(** * Aesthetic-Evaluator: finding validation and remediation lifecycle

  A shallow embedding of the parts of
    - backend/aesthetics_analyzer.py   (class AestheticsAnalyzer),
    - backend/enhanced_remediation.py  (class EnhancedRemediationService),
    - backend/llm_clients.py           (class LLMClient: the reply parser,
                                        the detection and the checks of
                                        issues and fixes)
  that locate, validate and score findings, that process the reply of a
  model, and that preview, apply and roll back remediations, followed by
  the properties proved about them.

  Conventions of the embedding.
    - A Python [str] is a [string]; source texts are taken to be ASCII, so
      [str.lower], [\w] and [\s] are the ASCII ones.
    - A Python [int] is a [Z]; a Python [float] score is an exact rational
      [Q] (rounding of binary floating point is not modelled).
    - A [dict] read with [.get(key, default)] is a record whose field holds
      the default when the key is absent; keys whose absence is observable
      are [option] fields.
    - A raised exception is the [Raise] case of [Exn]. *)

From Stdlib Require Import String Ascii List ZArith QArith Qminmax Lqa Lia Bool Sorted
     DecimalString.
From stdpp Require Import gmap strings.
Import ListNotations.

#[local] Open Scope Z_scope.
#[local] Open Scope string_scope.
#[local] Open Scope list_scope.

(* ===================================================================== *)
(** ** Exceptions *)
(* ===================================================================== *)

(** A raised exception: its class name and its message. *)
Record PyExc : Type := mkExc { exc_type : string; exc_msg : string }.

(** The outcome of code that may raise. *)
Inductive Exn (A : Type) : Type :=
| Ok (a : A)
| Raise (e : PyExc).

Arguments Ok {A} a.
Arguments Raise {A} e.

(** [len(xs)] as a float *)
Definition nat_Q (n : nat) : Q := inject_Z (Z.of_nat n).

(* ===================================================================== *)
(** ** Python strings *)
(* ===================================================================== *)

Module PyStr.

(** The double quote and the line feed, which string literals here do not
    spell. *)
Definition DQ : ascii := "034"%char.
Definition LF : ascii := "010"%char.

(** [str.isspace] on ASCII: TAB..CR, FS..US and the space. *)
Definition is_space (c : ascii) : bool :=
  let n := nat_of_ascii c in
  ((9 <=? n) && (n <=? 13) || (28 <=? n) && (n <=? 32))%nat.

Definition is_upper (c : ascii) : bool :=
  let n := nat_of_ascii c in ((65 <=? n) && (n <=? 90))%nat.

Definition is_lower (c : ascii) : bool :=
  let n := nat_of_ascii c in ((97 <=? n) && (n <=? 122))%nat.

Definition is_digit (c : ascii) : bool :=
  let n := nat_of_ascii c in ((48 <=? n) && (n <=? 57))%nat.

(** [\w] on ASCII: letters, digits and the underscore. *)
Definition is_word (c : ascii) : bool :=
  is_upper c || is_lower c || is_digit c || Ascii.eqb c "_"%char.

Definition lower_char (c : ascii) : ascii :=
  if is_upper c then ascii_of_nat (nat_of_ascii c + 32) else c.

Definition upper_char (c : ascii) : ascii :=
  if is_lower c then ascii_of_nat (nat_of_ascii c - 32) else c.

(** [s.lower()] *)
Fixpoint lower (s : string) : string :=
  match s with
  | EmptyString => EmptyString
  | String c s' => String (lower_char c) (lower s')
  end.

(** [s.lstrip()], [s.rstrip()], [s.strip()] *)
Fixpoint lstrip (s : string) : string :=
  match s with
  | EmptyString => EmptyString
  | String c s' => if is_space c then lstrip s' else s
  end.

Fixpoint rstrip (s : string) : string :=
  match s with
  | EmptyString => EmptyString
  | String c s' =>
      match rstrip s' with
      | EmptyString => if is_space c then EmptyString else String c EmptyString
      | t => String c t
      end
  end.

Definition strip (s : string) : string := rstrip (lstrip s).

(** [sub in s] *)
Fixpoint contains (sub s : string) : bool :=
  String.prefix sub s ||
  match s with
  | EmptyString => false
  | String _ s' => contains sub s'
  end.

(** [s.find(sub)]: the index of the first occurrence, [None] for -1. *)
Fixpoint find (sub s : string) : option nat :=
  if String.prefix sub s then Some O
  else match s with
       | EmptyString => None
       | String _ s' => option_map S (find sub s')
       end.

(** [s[i:]] and [s[:n]] for indexes within [0, len(s)] *)
Fixpoint drop (i : nat) (s : string) : string :=
  match i, s with
  | O, _ => s
  | S i', String _ s' => drop i' s'
  | S _, EmptyString => EmptyString
  end.

Fixpoint take (n : nat) (s : string) : string :=
  match n, s with
  | S n', String c s' => String c (take n' s')
  | _, _ => EmptyString
  end.

(** [s.find(sub, start)] *)
Definition find_from (sub s : string) (start : nat) : option nat :=
  if (String.length s <? start)%nat then None
  else option_map (fun i => (start + i)%nat) (find sub (drop start s)).

(** [s.rfind(sub)]: the index of the last occurrence. *)
Fixpoint rfind (sub s : string) : option nat :=
  match s with
  | EmptyString => if String.prefix sub s then Some O else None
  | String _ s' =>
      match rfind sub s' with
      | Some i => Some (S i)
      | None => if String.prefix sub s then Some O else None
      end
  end.

(** [s.split('\n')]: never the empty list. *)
Fixpoint split_lines (s : string) : list string :=
  match s with
  | EmptyString => [EmptyString]
  | String c s' =>
      match split_lines s' with
      | l :: ls => if Ascii.eqb c LF then EmptyString :: l :: ls
                   else String c l :: ls
      | [] => [String c EmptyString]
      end
  end.

(** ['\n'.join(lines)] *)
Fixpoint join_lines (ls : list string) : string :=
  match ls with
  | [] => EmptyString
  | [l] => l
  | l :: ls' => l ++ String LF (join_lines ls')
  end.

(** [s.replace(old, new)]: every occurrence, left to right; with an empty
    [old], [new] goes before every character and at the end. *)
Fixpoint replace_aux (fuel : nat) (old new s : string) : string :=
  match fuel with
  | O => s
  | S fuel' =>
      if String.prefix old s
      then new ++ replace_aux fuel' old new (drop (String.length old) s)
      else match s with
           | EmptyString => EmptyString
           | String c s' => String c (replace_aux fuel' old new s')
           end
  end.

Fixpoint intersperse (new s : string) : string :=
  match s with
  | EmptyString => new
  | String c s' => new ++ String c (intersperse new s')
  end.

Definition replace (old new s : string) : string :=
  match old with
  | EmptyString => intersperse new s
  | _ => replace_aux (S (String.length s)) old new s
  end.

(** [s[:n] + "..." if len(s) > n else s] *)
Definition truncate (n : nat) (s : string) : string :=
  if (n <? String.length s)%nat then take n s ++ "..." else s.

(** [s.split()]: the words between runs of whitespace. *)
Fixpoint split_ws (text : string) : list string :=
  match text with
  | EmptyString => []
  | String a text' =>
      if is_space a then split_ws text'
      else match text' with
           | EmptyString => [String a EmptyString]
           | String b _ =>
               if is_space b then String a EmptyString :: split_ws text'
               else match split_ws text' with
                    | word :: words => String a word :: words
                    | [] => [String a EmptyString]
                    end
           end
  end.

End PyStr.

(* ===================================================================== *)
(** ** Regular expressions: the fragment of Python's [re] the code uses *)
(* ===================================================================== *)

Module Re.
Import PyStr.

(** Patterns are kept as syntax trees; each table below gives the pattern
    text of the source beside its tree. *)
Inductive regex : Type :=
| Eps                               (* the empty pattern *)
| Lit (c : ascii)                   (* one literal character *)
| Cls (p : ascii -> bool)           (* a class: \w \s \d [..] [^..] . *)
| Seq (r1 r2 : regex)               (* r1 r2 *)
| Alt (r1 r2 : regex)               (* r1|r2, the left one first *)
| Star (r : regex)                  (* r*, greedy *)
| Rep (lo hi : nat) (r : regex)     (* r{lo,hi}, greedy *)
| Grp (r : regex)                   (* (r), capturing *)
| WordB.                            (* \b *)

Definition Plus (r : regex) : regex := Seq r (Star r).

(** A literal word, character by character. *)
Fixpoint Str (s : string) : regex :=
  match s with
  | EmptyString => Eps
  | String c EmptyString => Lit c
  | String c s' => Seq (Lit c) (Str s')
  end.

Definition w : regex := Cls is_word.
Definition s : regex := Cls is_space.
Definition d : regex := Cls is_digit.

(** The matcher's position: the character before it (for [\b]), the text
    still to read, and the groups closed so far, in closing order. *)
Record mstate : Type := MState {
  prev : option ascii;
  rest : list ascii;
  caps : list string
}.

Definition advance (a : ascii) (t : list ascii) (st : mstate) : mstate :=
  MState (Some a) t (caps st).

(** Under [re.IGNORECASE] a character matches in either case. *)
Definition lit_ok (icase : bool) (c a : ascii) : bool :=
  if icase then Ascii.eqb (lower_char c) (lower_char a) else Ascii.eqb c a.

Definition cls_ok (icase : bool) (p : ascii -> bool) (a : ascii) : bool :=
  if icase then p a || p (lower_char a) || p (upper_char a) else p a.

Definition at_boundary (st : mstate) : bool :=
  let before := match prev st with Some a => is_word a | None => false end in
  let after := match rest st with a :: _ => is_word a | [] => false end in
  xorb before after.

Definition consumed (st st' : mstate) : string :=
  string_of_list_ascii
    (firstn (length (rest st) - length (rest st')) (rest st)).

(** Backtracking matcher in continuation-passing style: [k] is what has to
    match after [r]; the first way to succeed wins, as in [re]. *)
Fixpoint rmatch {A : Type} (icase : bool) (r : regex) (st : mstate)
         (k : mstate -> option A) {struct r} : option A :=
  match r with
  | Eps => k st
  | Lit c =>
      match rest st with
      | a :: t => if lit_ok icase c a then k (advance a t st) else None
      | [] => None
      end
  | Cls p =>
      match rest st with
      | a :: t => if cls_ok icase p a then k (advance a t st) else None
      | [] => None
      end
  | Seq r1 r2 => rmatch icase r1 st (fun st1 => rmatch icase r2 st1 k)
  | Alt r1 r2 =>
      match rmatch icase r1 st k with
      | Some x => Some x
      | None => rmatch icase r2 st k
      end
  | Star r1 =>
      (fix star (n : nat) (st0 : mstate) {struct n} : option A :=
         match n with
         | O => k st0
         | S n' =>
             match rmatch icase r1 st0
                     (fun st1 =>
                        if (length (rest st1) <? length (rest st0))%nat
                        then star n' st1 else None) with
             | Some x => Some x
             | None => k st0
             end
         end) (length (rest st)) st
  | Rep lo hi r1 =>
      let optional :=
        fix opt (n : nat) (st0 : mstate) {struct n} : option A :=
          match n with
          | O => k st0
          | S n' =>
              match rmatch icase r1 st0 (fun st1 => opt n' st1) with
              | Some x => Some x
              | None => k st0
              end
          end in
      (fix mand (n : nat) (st0 : mstate) {struct n} : option A :=
         match n with
         | O => optional (hi - lo)%nat st0
         | S n' => rmatch icase r1 st0 (fun st1 => mand n' st1)
         end) lo st
  | Grp r1 =>
      rmatch icase r1 st
        (fun st1 =>
           k (MState (prev st1) (rest st1) (caps st1 ++ [consumed st st1])))
  | WordB => if at_boundary st then k st else None
  end.

Definition match_here (icase : bool) (r : regex) (p : option ascii)
           (t : list ascii) : option mstate :=
  rmatch icase r (MState p t []) Some.

(** [re.search]: the leftmost position where the pattern matches. *)
Fixpoint search_from (icase : bool) (r : regex) (p : option ascii)
         (t : list ascii) : option (list ascii * mstate) :=
  match match_here icase r p t with
  | Some st => Some (t, st)
  | None =>
      match t with
      | [] => None
      | a :: t' => search_from icase r (Some a) t'
      end
  end.

Definition search (icase : bool) (r : regex) (text : string) : bool :=
  match search_from icase r None (list_ascii_of_string text) with
  | Some _ => true
  | None => false
  end.

(** [match.group()] of [re.search] *)
Definition search_group (icase : bool) (r : regex) (text : string)
  : option string :=
  match search_from icase r None (list_ascii_of_string text) with
  | Some (t, st) => Some (consumed (MState None t []) st)
  | None => None
  end.

(** The successive non-overlapping matches, left to right, each with its
    groups. The patterns of the code never match the empty string; after
    an empty match the scan moves on by one character. Every step moves on
    by at least one character: a fuel of one more than the length of the
    text is enough. *)
Fixpoint scan (fuel : nat) (icase : bool) (r : regex) (p : option ascii)
         (t : list ascii) : list (list string) :=
  match fuel with
  | O => []
  | S fuel' =>
      let step := match t with
                  | [] => []
                  | a :: t' => scan fuel' icase r (Some a) t'
                  end in
      match match_here icase r p t with
      | Some st =>
          if (length (rest st) <? length t)%nat
          then caps st :: scan fuel' icase r (prev st) (rest st)
          else caps st :: step
      | None => step
      end
  end.

(** [re.findall], flattened as the code flattens it: the non-empty group
    texts of every match, in order. *)
Definition findall (icase : bool) (r : regex) (text : string) : list string :=
  let t := list_ascii_of_string text in
  List.filter (fun g => negb (String.eqb g "")) (concat (scan (S (length t)) icase r None t)).

(** [re.sub(r, '', text)]: the text without its matches. *)
Fixpoint delete_matches (fuel : nat) (icase : bool) (r : regex)
         (p : option ascii) (t : list ascii) : list ascii :=
  match fuel with
  | O => t
  | S fuel' =>
      let step := match t with
                  | [] => []
                  | a :: t' => a :: delete_matches fuel' icase r (Some a) t'
                  end in
      match match_here icase r p t with
      | Some st =>
          if (length (rest st) <? length t)%nat
          then delete_matches fuel' icase r (prev st) (rest st)
          else step
      | None => step
      end
  end.

Definition sub_empty (icase : bool) (r : regex) (text : string) : string :=
  let t := list_ascii_of_string text in
  string_of_list_ascii (delete_matches (S (length t)) icase r None t).

End Re.

(* ===================================================================== *)
(** ** aesthetics_analyzer.py: class AestheticsAnalyzer *)
(* ===================================================================== *)

Module Analyzer.
Import PyStr Re.

(** An issue dictionary. [severity] holds ["medium"] and the other strings
    the empty string when their key is absent, [line_numbers] the empty
    list. The keys that only feed the report ([code_context],
    [design_context], [ui_preview], [principle_details], [recommendation])
    are read by none of the functions below and are left out. *)
Record Issue : Type := mkIssue {
  issue_id : string;
  principle_id : string;
  category : string;
  severity : string;
  line_numbers : list Z;
  code_snippet : string;
  description : string;
  source : string;
  validation_score : option Q;
  fix_confidence : option Q;
  file_path : string
}.

Definition set_line_numbers (lns : list Z) (i : Issue) : Issue :=
  mkIssue (issue_id i) (principle_id i) (category i) (severity i) lns
          (code_snippet i) (description i) (source i) (validation_score i)
          (fix_confidence i) (file_path i).

Definition set_code_snippet (sn : string) (i : Issue) : Issue :=
  mkIssue (issue_id i) (principle_id i) (category i) (severity i)
          (line_numbers i) sn (description i) (source i) (validation_score i)
          (fix_confidence i) (file_path i).

Definition set_validation_score (v : Q) (i : Issue) : Issue :=
  mkIssue (issue_id i) (principle_id i) (category i) (severity i)
          (line_numbers i) (code_snippet i) (description i) (source i)
          (Some v) (fix_confidence i) (file_path i).

Definition set_fix_confidence (v : Q) (i : Issue) : Issue :=
  mkIssue (issue_id i) (principle_id i) (category i) (severity i)
          (line_numbers i) (code_snippet i) (description i) (source i)
          (validation_score i) (Some v) (file_path i).

Definition set_file_path (p : string) (i : Issue) : Issue :=
  mkIssue (issue_id i) (principle_id i) (category i) (severity i)
          (line_numbers i) (code_snippet i) (description i) (source i)
          (validation_score i) (fix_confidence i) p.

(** The keys of [self.aesthetic_principles]. *)
Definition aesthetic_principles : list string :=
  [ "COLOR_001"; "COLOR_002"; "COLOR_003"; "COLOR_004";
    "SPACING_001"; "SPACING_002"; "SPACING_003"; "SPACING_004";
    "TYPOGRAPHY_001"; "TYPOGRAPHY_002"; "TYPOGRAPHY_003"; "TYPOGRAPHY_004";
    "HIERARCHY_001"; "HIERARCHY_002"; "HIERARCHY_003";
    "CONSISTENCY_001"; "CONSISTENCY_002"; "CONSISTENCY_003";
    "MODERN_001"; "MODERN_002"; "MODERN_003"; "MODERN_004";
    "BALANCE_001"; "BALANCE_002"; "CLUTTER_001"; "CLUTTER_002" ].

Definition str_in (x : string) (l : list string) : bool :=
  existsb (String.eqb x) l.

(** A dictionary literal, in source order. *)
Fixpoint dict_get {V : Type} (key : string) (table : list (string * V))
  : option V :=
  match table with
  | [] => None
  | (k, v) :: table' => if String.eqb key k then Some v else dict_get key table'
  end.

(** *** Pattern tables *)

(** [name\s*:] *)
Definition prop (name : string) : regex :=
  Seq (Str name) (Seq (Star s) (Lit ":")).

(** [name\s*\(] *)
Definition call (name : string) : regex :=
  Seq (Str name) (Seq (Star s) (Lit "(")).

Definition is_hex (c : ascii) : bool :=
  let n := nat_of_ascii c in
  is_digit c || ((97 <=? n) && (n <=? 102))%nat || ((65 <=? n) && (n <=? 70))%nat.

(** [#[0-9a-fA-F]{3,6}] *)
Definition hex_color : regex := Seq (Lit "#") (Rep 3 6 (Cls is_hex)).

Definition not_quote (c : ascii) : bool := negb (Ascii.eqb c DQ).

(** [<(\w+)|(\w+)=|class="([^"]+)"|id="([^"]+)"|(\w+)\s*:] *)
Definition element_pattern : regex :=
  Alt (Seq (Lit "<") (Grp (Plus w)))
 (Alt (Seq (Grp (Plus w)) (Lit "="))
 (Alt (Seq (Str "class=") (Seq (Lit DQ) (Seq (Grp (Plus (Cls not_quote))) (Lit DQ))))
 (Alt (Seq (Str "id=") (Seq (Lit DQ) (Seq (Grp (Plus (Cls not_quote))) (Lit DQ))))
      (Seq (Grp (Plus w)) (Seq (Star s) (Lit ":")))))).

(** [semantic_patterns] and [category_patterns] of [_semantic_match_code] *)
Definition semantic_patterns : list (string * list regex) :=
  [ ("COLOR_001", [prop "color"; prop "background-color"; hex_color;
                   call "rgb"; call "rgba"]);
    ("COLOR_002", [prop "color"; prop "background-color"; hex_color]);
    ("SPACING_001", [prop "margin"; prop "padding"; prop "gap"; prop "spacing"]);
    ("SPACING_002", [prop "margin"; prop "padding"; prop "gap"]);
    ("TYPOGRAPHY_001", [prop "font-size"; prop "font-weight"; prop "font-family"]);
    ("TYPOGRAPHY_002", [prop "font-size"]);
    ("HIERARCHY_001", [prop "font-size"; prop "font-weight"]);
    ("MODERN_001", [prop "box-shadow"; prop "border-radius"; prop "border"]) ].

Definition semantic_category_patterns : list (string * list regex) :=
  [ ("color", [prop "color"; prop "background-color"; hex_color]);
    ("spacing", [prop "margin"; prop "padding"; prop "gap"]);
    ("typography", [prop "font-size"; prop "font-family"; prop "line-height"]);
    ("hierarchy", [prop "font-size"; prop "font-weight"; prop "opacity"]) ].

(** [search_patterns] and [category_patterns] of [_find_related_elements] *)
Definition search_patterns : list (string * list regex) :=
  [ ("COLOR_001", [prop "color"; prop "background-color"; hex_color]);
    ("COLOR_002", [prop "color"; prop "background-color"]);
    ("SPACING_001", [prop "margin"; prop "padding"; prop "gap"]);
    ("SPACING_002", [prop "margin"; prop "padding"]);
    ("TYPOGRAPHY_001", [prop "font-size"; prop "font-weight"; prop "font-family"]);
    ("TYPOGRAPHY_002", [prop "font-size"]);
    ("HIERARCHY_001", [prop "font-size"; prop "font-weight"]);
    ("MODERN_001", [prop "box-shadow"; prop "border-radius"]) ].

Definition search_category_patterns : list (string * list regex) :=
  [ ("color", [prop "color"; prop "background-color"]);
    ("spacing", [prop "margin"; prop "padding"; prop "gap"]);
    ("typography", [prop "font-size"; prop "font-family"]);
    ("hierarchy", [prop "font-size"; prop "font-weight"]) ].

(** [w1|w2|...] *)
Fixpoint alternatives (ws : list string) : regex :=
  match ws with
  | [] => Eps
  | [x] => Str x
  | x :: ws' => Alt (Str x) (alternatives ws')
  end.

(** [\b(w1|w2|...)\b] *)
Definition word_of (ws : list string) : regex :=
  Seq WordB (Seq (Grp (alternatives ws)) WordB).

(** [keyword_patterns] of [_extract_keywords_from_issue] *)
Definition keyword_patterns : list regex :=
  [ word_of ["color"; "background"; "border"; "fill"; "stroke"];
    word_of ["margin"; "padding"; "gap"; "spacing"];
    word_of ["font"; "typography"; "text"; "size"; "weight"];
    word_of ["shadow"; "radius"; "border"; "rounded"];
    word_of ["hierarchy"; "emphasis"; "contrast"] ].

(** *** Lines *)

(** [1 <= n <= len(lines)] *)
Definition in_range (lines : list string) (n : Z) : bool :=
  ((1 <=? n)%Z && (n <=? Z.of_nat (length lines))%Z).

(** [lines[n - 1]], read only under [in_range] *)
Definition line_at (lines : list string) (n : Z) : string :=
  nth (Z.to_nat (n - 1)) lines "".

(** [enumerate(lines, 1)] *)
Fixpoint enumerate_from (i : Z) (lines : list string) : list (Z * string) :=
  match lines with
  | [] => []
  | l :: ls => (i, l) :: enumerate_from (i + 1) ls
  end.

(** [[i for i, line in enumerate(lines, 1) if test(line)]] *)
Definition lines_where (test : string -> bool) (lines : list string) : list Z :=
  map fst (List.filter (fun il => test (snd il)) (enumerate_from 1 lines)).

(** *** Matching strategies *)

Definition _fuzzy_match_code (snippet line_content : string) : bool :=
  let snippet_clean := sub_empty false (Plus s) (lower snippet) in
  let line_clean := sub_empty false (Plus s) (lower line_content) in
  if contains snippet_clean line_clean || contains line_clean snippet_clean
  then true
  else
    let snippet_parts := findall false element_pattern (lower snippet) in
    let line_parts := findall false element_pattern (lower line_content) in
    match snippet_parts, line_parts with
    | _ :: _, _ :: _ =>
        let overlap :=
          nodup string_dec (List.filter (fun p => str_in p line_parts) snippet_parts) in
        (* len(overlap) >= len(snippet_parts) * 0.5 *)
        (length snippet_parts <=? 2 * length overlap)%nat
    | _, _ => false
    end.

Definition any_pattern (patterns : list regex) (line : string) : bool :=
  existsb (fun r => search true r line) patterns.

Definition _semantic_match_code (issue : Issue) (line_content : string) : bool :=
  match dict_get (principle_id issue) semantic_patterns with
  | Some patterns => any_pattern patterns line_content
  | None =>
      match dict_get (category issue) semantic_category_patterns with
      | Some patterns => any_pattern patterns line_content
      | None => false
      end
  end.

(** The principles accepted without a location:
    [any(critical in principle_id for critical in [...])] *)
Definition lenient_principles : list string :=
  ["COLOR_003"; "TYPOGRAPHY_002"; "SPACING_001"].

Definition is_lenient (principle : string) : bool :=
  existsb (fun critical => contains critical principle) lenient_principles.

(** One resolved line of [_validate_issue_existence]: in range, and matched
    by one of the three strategies. *)
Definition line_matches (issue : Issue) (code_snippet : string)
           (lines : list string) (line_num : Z) : bool :=
  in_range lines line_num &&
  (let line_content := strip (line_at lines line_num) in
   contains code_snippet line_content
   || _fuzzy_match_code code_snippet line_content
   || _semantic_match_code issue line_content).

(** The snippet search of [_validate_issue_existence]: the first line the
    snippet matches fuzzily becomes the issue's only line number. *)
Definition locate_snippet (issue : Issue) (code_snippet : string)
           (lines : list string) : Issue :=
  match line_numbers issue, code_snippet with
  | [], String _ _ =>
      match lines_where (_fuzzy_match_code code_snippet) lines with
      | i :: _ => set_line_numbers [i] issue
      | [] => issue
      end
  | _, _ => issue
  end.

(** Returns the verdict and the issue, whose [line_numbers] the function
    may have set in place. *)
Definition _validate_issue_existence (issue : Issue) (original_code : string)
  : bool * Issue :=
  let lines := split_lines original_code in
  let code_snippet := strip (code_snippet issue) in
  let issue := locate_snippet issue code_snippet lines in
  match line_numbers issue with
  | [] => (is_lenient (principle_id issue), issue)
  | line_nums =>
      let matches :=
        fold_left
          (fun (matches : nat) line_num =>
             if line_matches issue code_snippet lines line_num
             then S matches else matches)
          line_nums O in
      ((0 <? matches)%nat, issue)
  end.

(** *** The line locator *)

Definition _find_related_elements (issue : Issue) (original_code : string)
  : list Z :=
  let lines := split_lines original_code in
  match dict_get (principle_id issue) search_patterns with
  | Some patterns => lines_where (any_pattern patterns) lines
  | None =>
      if str_in (category issue) ["color"; "spacing"; "typography"; "hierarchy"]
      then
        let patterns :=
          match dict_get (category issue) search_category_patterns with
          | Some ps => ps
          | None => []
          end in
        lines_where (any_pattern patterns) lines
      else []
  end.

(** [list(set(keywords))]: only membership is used by the caller. *)
Definition _extract_keywords_from_issue (issue : Issue) : list string :=
  let description := lower (description issue) in
  let code_snippet := lower (code_snippet issue) in
  let category := lower (category issue) in
  let css_properties :=
    findall false (Seq (Grp (Plus w)) (Seq (Star s) (Lit ":"))) code_snippet in
  let html_tags := findall false (Seq (Lit "<") (Grp (Plus w))) code_snippet in
  let from_description :=
    flat_map (fun pattern => findall false pattern description) keyword_patterns in
  let from_category :=
    match category with
    | EmptyString => []
    | _ => [category]
    end in
  nodup string_dec (css_properties ++ html_tags ++ from_description ++ from_category).

(** Strategy 4 for one claimed line number that is in range: the first
    line within two lines of it that holds a keyword, else the number
    itself. *)
Definition repair_line (keywords : list string) (lines : list string)
           (line_num : Z) : Z :=
  let hit (offset : Z) : bool :=
    let check_line := line_num + offset in
    in_range lines check_line &&
    existsb (fun keyword => contains keyword (lower (line_at lines check_line)))
            keywords in
  match List.find hit [-2; -1; 0; 1; 2] with
  | Some offset => line_num + offset
  | None => line_num
  end.

Definition _improve_line_accuracy (issue : Issue) (original_code : string)
  : list Z :=
  let lines := split_lines original_code in
  let code_snippet := strip (code_snippet issue) in
  let original_line_numbers := line_numbers issue in
  match code_snippet with
  | EmptyString => original_line_numbers
  | _ =>
      (* Strategy 1: exact match search *)
      match lines_where (contains code_snippet) lines with
      | (_ :: _) as exact_matches => firstn 3 exact_matches
      | [] =>
          (* Strategy 2: fuzzy search *)
          match lines_where (_fuzzy_match_code code_snippet) lines with
          | (_ :: _) as fuzzy_matches => firstn 3 fuzzy_matches
          | [] =>
              (* Strategy 3: elements related to the issue *)
              match _find_related_elements issue original_code with
              | (_ :: _) as element_matches => firstn 3 element_matches
              | [] =>
                  (* Strategy 4: the claimed numbers, or lines near them *)
                  let validated_lines :=
                    map (repair_line (_extract_keywords_from_issue issue) lines)
                        (List.filter (in_range lines) original_line_numbers) in
                  match validated_lines with
                  | [] => [1]
                  | _ => validated_lines
                  end
              end
          end
      end
  end.

Definition _extract_precise_code_snippet (code : string) (line_numbers : list Z)
           (original_snippet : string) : string :=
  let lines := split_lines code in
  match line_numbers with
  | [] => original_snippet
  | _ =>
      let actual_lines :=
        map (line_at lines) (List.filter (in_range lines) line_numbers) in
      match actual_lines with
      | [] => original_snippet
      | [l] => strip l
      | _ => join_lines (map rstrip actual_lines)
      end
  end.

(** *** Scores *)

Definition _calculate_fix_confidence (issue : Issue) : Q :=
  let base_confidence := 0.7%Q in
  let validation_score :=
    match validation_score issue with
    | Some v => v
    | None => 0.5%Q
    end in
  let base_confidence := (base_confidence * validation_score)%Q in
  let base_confidence :=
    if String.eqb (severity issue) "critical" then (base_confidence + 0.2)%Q
    else if String.eqb (severity issue) "high" then (base_confidence + 0.1)%Q
    else base_confidence in
  let base_confidence :=
    if String.eqb (source issue) "static_analysis"
    then (base_confidence + 0.1)%Q else base_confidence in
  let code_snippet := code_snippet issue in
  let base_confidence :=
    if (10 <? String.length code_snippet)%nat
       && (contains "{" code_snippet || contains "<" code_snippet)
    then (base_confidence + 0.1)%Q else base_confidence in
  Qmin 1 base_confidence.

Definition description_keywords : list string :=
  ["color"; "spacing"; "typography"; "hierarchy"; "design"; "aesthetic"].

Definition _calculate_validation_score (issue : Issue) (original_code : string)
  : Q :=
  let score := 0%Q in
  let lines := split_lines original_code in
  let line_numbers := line_numbers issue in
  (* Line number accuracy (40% of score) *)
  let score :=
    match line_numbers with
    | [] => score
    | _ =>
        let valid_lines := length (List.filter (in_range lines) line_numbers) in
        (score + 0.4 * (nat_Q valid_lines / nat_Q (length line_numbers)))%Q
    end in
  (* Code snippet relevance (30% of score) *)
  let code_snippet := code_snippet issue in
  let score :=
    match code_snippet, line_numbers with
    | String _ _, _ :: _ =>
        if existsb (fun ln => contains (strip code_snippet) (line_at lines ln))
                   (List.filter (in_range lines) line_numbers)
        then (score + 0.3)%Q else score
    | _, _ => score
    end in
  (* Principle specificity (20% of score) *)
  let principle_id := principle_id issue in
  let score :=
    if negb (String.eqb principle_id "") && str_in principle_id aesthetic_principles
    then (score + 0.2)%Q else score in
  (* Description quality (10% of score) *)
  let description := description issue in
  let score :=
    if (20 <? String.length description)%nat
       && existsb (fun keyword => contains keyword (lower description))
                  description_keywords
    then (score + 0.1)%Q else score in
  Qmin score 1.

(** The keys [_enhance_issue] sets that the scores depend on, in the order
    the function sets them. *)
Definition _enhance_issue (issue : Issue) (original_code : string) : Issue :=
  let enhanced := issue in
  let enhanced :=
    set_line_numbers (_improve_line_accuracy issue original_code) enhanced in
  let line_numbers := line_numbers enhanced in
  let enhanced :=
    match line_numbers with
    | [] => enhanced
    | _ =>
        set_code_snippet
          (_extract_precise_code_snippet original_code line_numbers
                                         (code_snippet issue))
          enhanced
    end in
  let enhanced := set_fix_confidence (_calculate_fix_confidence enhanced) enhanced in
  let enhanced :=
    set_validation_score (_calculate_validation_score enhanced original_code)
                         enhanced in
  enhanced.

(** *** Metrics *)

Definition severity_levels : list string := ["critical"; "high"; "medium"; "low"].

Definition design_categories : list string :=
  [ "color"; "spacing"; "typography"; "hierarchy"; "consistency";
    "modern_patterns"; "balance"; "clutter" ].

(** [{key: 0, ...}] *)
Definition zero_counts (keys : list string) : list (string * nat) :=
  map (fun key => (key, O)) keys.

(** [if key in counts: counts[key] += 1] *)
Definition bump (key : string) (counts : list (string * nat))
  : list (string * nat) :=
  map (fun entry => if String.eqb key (fst entry)
                    then (fst entry, S (snd entry)) else entry)
      counts.

(** [counts[key]] *)
Definition count_of (key : string) (counts : list (string * nat)) : nat :=
  match dict_get key counts with
  | Some n => n
  | None => O
  end.

(** The dictionary [_calculate_metrics] returns, without its
    ["validation_quality"]: that key holds the floating-point mean of the
    validation scores, whose rounding the exact rationals of this
    development do not follow. *)
Record Metrics : Type := mkMetrics {
  metrics_total_issues : nat;
  severity_breakdown : list (string * nat);
  category_breakdown : list (string * nat);
  design_score : Z
}.

(** One round of the loop over the issues, on the two tables of counts. *)
Definition tally (state : list (string * nat) * list (string * nat))
           (issue : Issue)
  : list (string * nat) * list (string * nat) :=
  let '(severity_counts, category_counts) := state in
  (bump (severity issue) severity_counts,
   bump (category issue) category_counts).

Definition _calculate_metrics (issues : list Issue) : Metrics :=
  let total_issues := length issues in
  match total_issues with
  | O =>
      mkMetrics 0 (zero_counts severity_levels) (zero_counts design_categories)
                100
  | S _ =>
      let '(severity_counts, category_counts) :=
        fold_left tally issues
                  (zero_counts severity_levels, zero_counts design_categories) in
      (* Calculate design score *)
      let critical_issues :=
        (count_of "critical" severity_counts + count_of "high" severity_counts)%nat in
      let design_score :=
        Z.max 0 (100 - Z.of_nat critical_issues * 5
                 - Z.of_nat (count_of "medium" severity_counts) * 2) in
      mkMetrics total_issues severity_counts category_counts design_score
  end.

(** *** Principle ids *)

Definition _extract_principle_id (principle_text : string) : string :=
  if str_in principle_text aesthetic_principles then principle_text
  else match List.find (fun principle_id => contains principle_id principle_text)
                       aesthetic_principles with
       | Some principle_id => principle_id
       | None => ""
       end.

(** *** Code context *)

(** One entry of the ["lines"] of a code context. *)
Record ContextLine : Type := mkContextLine {
  ctx_number : Z;
  ctx_content : string;
  ctx_highlighted : bool;
  ctx_indentation : nat;
  ctx_is_empty : bool
}.

(** The dictionary [_extract_accurate_code_context] returns;
    [highlighted_lines] is absent when no line number is given. *)
Record CodeContext : Type := mkCodeContext {
  ctx_lines : list ContextLine;
  start_line : Z;
  end_line : Z;
  highlighted_lines : option (list Z)
}.

(** [range(a, b)] *)
Definition range (a b : Z) : list Z :=
  map (fun k => a + Z.of_nat k) (seq 0 (Z.to_nat (b - a))).

(** [min(xs)] and [max(xs)] of a list that is not empty *)
Definition min_of (x : Z) (xs : list Z) : Z := fold_left Z.min xs x.
Definition max_of (x : Z) (xs : list Z) : Z := fold_left Z.max xs x.

Definition _extract_accurate_code_context (code : string) (line_numbers : list Z)
  : CodeContext :=
  let lines := split_lines code in
  match line_numbers with
  | [] => mkCodeContext [] 0 0 None
  | n :: ns =>
      let context_window := 3 in
      let min_line := Z.max 0 (min_of n ns - context_window) in
      let max_line :=
        Z.min (Z.of_nat (length lines)) (max_of n ns + context_window) in
      let context_lines :=
        map (fun i =>
               let is_highlighted := existsb (Z.eqb (i + 1)) line_numbers in
               let line_content :=
                 if (i <? Z.of_nat (length lines))%Z
                 then nth (Z.to_nat i) lines "" else "" in
               mkContextLine (i + 1) line_content is_highlighted
                 (String.length line_content - String.length (lstrip line_content))
                 (String.eqb (strip line_content) ""))
            (range min_line max_line) in
      mkCodeContext context_lines (min_line + 1) max_line (Some line_numbers)
  end.

(** *** The element type of the UI preview *)

Definition element_tags : list string :=
  [ "button"; "input"; "a"; "img"; "select"; "textarea"; "label"; "div";
    "span"; "section"; "article" ].

(** [<(button|input|...|article)\b] *)
Definition known_tag_pattern : regex :=
  Seq (Lit "<") (Seq (Grp (alternatives element_tags)) WordB).

Definition is_quote (c : ascii) : bool := Ascii.eqb c DQ || Ascii.eqb c "'"%char.

(** [class\s*=\s*Q([^Q]+)Q], where [Q] stands for the class of the single
    and the double quote *)
Definition class_pattern : regex :=
  Seq (Str "class")
      (Seq (Star s)
           (Seq (Lit "=")
                (Seq (Star s)
                     (Seq (Cls is_quote)
                          (Seq (Grp (Plus (Cls (fun c => negb (is_quote c)))))
                               (Cls is_quote)))))).

(** [<(\w+)] *)
Definition any_tag_pattern : regex := Seq (Lit "<") (Grp (Plus w)).

(** [m.group(1)] of [re.search], for a pattern with one group *)
Definition search_group1 (icase : bool) (r : regex) (text : string)
  : option string :=
  match search_from icase r None (list_ascii_of_string text) with
  | Some (_, st) => Some (hd "" (caps st))
  | None => None
  end.

(** The first pattern that matches decides; a class attribute of
    whitespace only has no first word, and [split()[0]] raises. *)
Definition _extract_element_type (code_snippet : string) : Exn string :=
  match search_group1 true known_tag_pattern code_snippet with
  | Some tag => Ok tag
  | None =>
      match search_group1 true class_pattern code_snippet with
      | Some classes =>
          match split_ws classes with
          | first :: _ => Ok first
          | [] => Raise (mkExc "IndexError" "list index out of range")
          end
      | None =>
          match search_group1 true any_tag_pattern code_snippet with
          | Some tag => Ok tag
          | None => Ok "unknown"
          end
      end
  end.

End Analyzer.

(* ===================================================================== *)
(** ** enhanced_remediation.py: class EnhancedRemediationService *)
(* ===================================================================== *)

Module Remediation.
Import PyStr Re Analyzer.

(** *** Data *)

(** One entry of the gateway's ["changes"]; [line_number] is 0 when the key
    is absent. *)
Record Change : Type := mkChange {
  line_number : Z;
  original : string;
  fixed : string
}.

(** The gateway's reply to a remediation prompt: the truth value of its
    ["success"] key and its ["changes"]. *)
Record LLMReply : Type := mkReply {
  reply_success : bool;
  reply_changes : list Change
}.

(** The dictionary [get_enhanced_remediation] returns for a usable reply:
    the reply with the keys the function adds. [backup_path] is absent, and
    [validation_error] present, when the backup or the diff raised. *)
Record RemediationResult : Type := mkResult {
  changes : list Change;
  fixed_code : string;
  validation_passed : bool;
  quality_score : Q;
  backup_path : option string;
  validation_error : option string
}.

(** What [get_enhanced_remediation] returns: [{success: False, error, stage}]
    or the remediation result (whose ["success"] is true). *)
Inductive GetResult : Type :=
| Failed (stage error : string)
| Proposed (r : RemediationResult).

(** One entry of [session["remediations"]]; [rolled_back] is false while the
    key is absent. *)
Record RemediationRecord : Type := mkRecord {
  rec_model : string;
  rec_result : RemediationResult;
  rec_timestamp : nat;
  rec_applied : bool;
  rec_quality_score : Q;
  rec_rolled_back : bool;
  rec_rollback_timestamp : option nat
}.

(** One per-file result of a model: its [file_info] and its issues. *)
Record FileResult : Type := mkFileResult {
  info_path : string;
  info_name : string;
  issues : list Issue
}.

(** A session: [analysis_results] maps a model name to its list of file
    results ([None] for a value that is not a list), in insertion order;
    [remediations] is [None] until the key is created. *)
Record Session : Type := mkSession {
  analysis_results : list (string * option (list FileResult));
  remediations : option (gmap string RemediationRecord)
}.

(** What [apply_remediation] returns. *)
Inductive ApplyResult : Type :=
| NotApplied (stage error : string)
| BelowThreshold (score : Q) (suggestion : string)
                 (remediation_preview : RemediationResult)
| Applied (issue model : string) (score : Q) (changes_applied : nat)
          (backup : option string).

(** What [rollback_remediation] returns. *)
Inductive RollbackResult : Type :=
| RollbackFailed (error : string)
| RolledBack (issue restored_from : string).

(** *** The world outside the service *)

(** Operations on the file store, in the order they were issued; a
    snapshot that failed has no backup path, a write that failed is
    flagged. *)
Inductive IOEvent : Type :=
| EvSnapshot (file : string) (backup : option string)
| EvWrite (file content : string) (done : bool)
| EvRestore (backup file : string) (done : bool).

Record World : Type := mkWorld {
  fs : gmap string string;      (* path -> content *)
  clock : nat;                  (* how often datetime.now() was read *)
  io_log : list IOEvent
}.

(** The collaborators whose code is outside this repository's analyzer and
    remediation modules: the model gateway, the parsers behind the static
    analysis, the code processor and the operating system. *)
Record Env : Type := mkEnv {
  (* llm_client._call_model on the prompt built from the issue, the file
     content and the file path, for a model name *)
  call_model : Issue -> string -> string -> string -> Exn LLMReply;
  (* _analyze_html_enhanced, _analyze_css_enhanced, _analyze_xml_enhanced,
     _analyze_react_enhanced: BeautifulSoup, ElementTree and float parsing *)
  analyze_html : string -> list Issue;
  analyze_css : string -> list Issue;
  analyze_xml : string -> list Issue;
  analyze_react : string -> list Issue;
  (* code_processor.validate_fixed_code(...)["syntax_valid"] *)
  validate_fixed_code : string -> string -> string -> Exn bool;
  (* faults of the code processor and of the operating system *)
  read_fails : string -> bool;
  backup_fails : string -> bool;
  backup_name : string -> string -> string;
  diff_fails : bool;
  write_fails : string -> bool;
  copy_fails : string -> string -> bool;
  (* how far a write or a copy that fails gets: [None] when it raises
     before the target is opened for writing, [Some n] when it raises after
     the target was truncated and [n] characters reached it *)
  write_reach : string -> option nat;
  copy_reach : string -> string -> option nat;
  (* the naive wall clock at each reading, in microseconds: it can repeat
     or step back *)
  wall_clock : nat -> nat
}.

Definition io_error (msg : string) : PyExc := mkExc "OSError" msg.

(** [Path(p).exists()]; [Path("")] is the current directory. *)
Definition path_exists (w : World) (p : string) : bool :=
  match p with
  | EmptyString => true
  | _ => bool_decide (is_Some (fs w !! p))
  end.

(** Modelled from the spec: [code_processor.read_file_content], which is
    not among the sources; the File Store's [read(path) -> (content,
    metadata)]. *)
Definition read_file_content (env : Env) (w : World) (path : string)
  : Exn string :=
  if read_fails env path then Raise (io_error "read failed")
  else match fs w !! path with
       | Some content => Ok content
       | None => Raise (io_error "no such file")
       end.

(** Modelled from the spec: [code_processor.create_backup], which is not
    among the sources; the File Store's [backup(path, dest_dir) -> path]: a
    byte-for-byte copy of the file under the destination directory. *)
Definition create_backup (env : Env) (w : World) (file dest_dir : string)
  : Exn string * World :=
  match (if backup_fails env file then None else fs w !! file) with
  | Some content =>
      let dest := backup_name env file dest_dir in
      (Ok dest,
       mkWorld (<[dest := content]> (fs w)) (clock w)
               (io_log w ++ [EvSnapshot file (Some dest)]))
  | None =>
      (Raise (io_error "backup failed"),
       mkWorld (fs w) (clock w) (io_log w ++ [EvSnapshot file None]))
  end.

(** What a target holds after a write of [content] that raised: its old
    content when the target was not opened, else the characters that
    reached it after the truncation. *)
Definition torn (reach : option nat) (path content : string)
           (store : gmap string string) : gmap string string :=
  match reach with
  | None => store
  | Some n => <[path := take n content]> store
  end.

(** [with open(path, 'w') as f: f.write(content)]: opening truncates the
    file, so a write that raises afterwards leaves it empty or partial. *)
Definition write_file (env : Env) (w : World) (path content : string)
  : Exn unit * World :=
  if write_fails env path
  then (Raise (io_error "write failed"),
        mkWorld (torn (write_reach env path) path content (fs w)) (clock w)
                (io_log w ++ [EvWrite path content false]))
  else (Ok tt,
        mkWorld (<[path := content]> (fs w)) (clock w)
                (io_log w ++ [EvWrite path content true])).

(** [shutil.copy2(backup, path)]: it raises before it opens anything when
    the source is missing or is the target itself; else it overwrites the
    target in place, so a copy that raises midway leaves the target empty or
    partial. *)
Definition copy2 (env : Env) (w : World) (backup path : string)
  : Exn unit * World :=
  let untouched (msg : string) :=
    (Raise (io_error msg) : Exn unit,
     mkWorld (fs w) (clock w) (io_log w ++ [EvRestore backup path false])) in
  match fs w !! backup with
  | None => untouched "No such file or directory"
  | Some content =>
      if String.eqb backup path then untouched "are the same file"
      else if copy_fails env backup path
      then (Raise (io_error "copy failed"),
            mkWorld (torn (copy_reach env backup path) path content (fs w))
                    (clock w) (io_log w ++ [EvRestore backup path false]))
      else (Ok tt,
            mkWorld (<[path := content]> (fs w)) (clock w)
                    (io_log w ++ [EvRestore backup path true]))
  end.

(** [datetime.now().isoformat()]: the wall clock is read once more. *)
Definition now (env : Env) (w : World) : nat * World :=
  (wall_clock env (clock w), mkWorld (fs w) (S (clock w)) (io_log w)).

(** *** Checking a candidate fix *)

Definition is_lower_or_dash (c : ascii) : bool :=
  is_lower c || Ascii.eqb c "-"%char.

(** [--[a-z-]+-color] *)
Definition color_variable : regex :=
  Seq (Str "--") (Seq (Plus (Cls is_lower_or_dash)) (Str "-color")).

(** [var\(--[a-z-]+-color] *)
Definition color_variable_use : regex := Seq (Str "var(") color_variable.

Definition digit_between (lo hi : nat) (c : ascii) : bool :=
  let n := nat_of_ascii c in ((48 + lo <=? n) && (n <=? 48 + hi))%nat.

(** [font-size\s*:\s*1[2-9]px|font-size\s*:\s*[2-9]\d+px] *)
Definition readable_font_size : regex :=
  Alt (Seq (prop "font-size")
           (Seq (Star s) (Seq (Lit "1") (Seq (Cls (digit_between 2 9)) (Str "px")))))
      (Seq (prop "font-size")
           (Seq (Star s) (Seq (Cls (digit_between 2 9)) (Seq (Plus d) (Str "px"))))).

(** The ['patterns'] of [resolution_patterns] *)
Definition resolution_patterns : list (string * list regex) :=
  [ ("COLOR_001", [hex_color; call "rgb"; call "rgba"]);
    ("COLOR_002", [color_variable_use; color_variable]);
    ("SPACING_001", [Seq (Plus d) (Str "px")]);
    ("SPACING_002", [prop "margin"; prop "padding"; prop "gap"]);
    ("TYPOGRAPHY_001", [prop "font-size"; prop "font-weight"]);
    ("TYPOGRAPHY_002", [readable_font_size]);
    ("HIERARCHY_001", [prop "font-size"; prop "font-weight"]);
    ("MODERN_001", [Str "box-shadow"; Str "border-radius"]) ].

(** [category_patterns] of [_check_issue_resolution] *)
Definition resolution_category_patterns : list (string * list regex) :=
  [ ("color", [color_variable_use; hex_color]);
    ("spacing", [alternatives ["margin"; "padding"; "gap"]]);
    ("typography", [alternatives ["font-size"; "font-weight"; "line-height"]]);
    ("hierarchy", [alternatives ["font-size"; "font-weight"]]);
    ("modern_patterns", [alternatives ["box-shadow"; "border-radius"]]) ].

Definition resolution_categories : list string :=
  ["color"; "spacing"; "typography"; "hierarchy"; "modern_patterns"].

(** [re.search(pattern, fixed, re.IGNORECASE) and
     not re.search(pattern, original, re.IGNORECASE)] *)
Definition newly_matched (original_content fixed_content : string)
           (pattern : regex) : bool :=
  search true pattern fixed_content
  && negb (search true pattern original_content).

Definition general_improvements : list string :=
  [ "// FIXED"; "// AESTHETIC FIX"; "border-radius"; "box-shadow";
    "var(--"; "font-size"; "margin"; "padding"; "color:" ].

(** [imp.lower() in fixed.lower() and imp.lower() not in original.lower()] *)
Definition newly_present (original_content fixed_content imp : string) : bool :=
  contains (lower imp) (lower fixed_content)
  && negb (contains (lower imp) (lower original_content)).

(** The dictionary [_check_issue_resolution] returns, without its texts. *)
Record Resolution : Type := mkResolution {
  likely_resolved : bool;
  confidence : Q
}.

(** The pattern check and its [return] stand inside the [else] branch of the
    source, after [patterns = []]; the two other branches bind [patterns]
    and fall through to the general check. *)
Definition _check_issue_resolution (original_content fixed_content : string)
           (issue_details : Issue) : Exn Resolution :=
  let known : option (list regex) :=
    match dict_get (principle_id issue_details) resolution_patterns with
    | Some patterns => Some patterns
    | None =>
        if str_in (category issue_details) resolution_categories
        then Some (match dict_get (category issue_details)
                                  resolution_category_patterns with
                   | Some patterns => patterns
                   | None => []
                   end)
        else None
    end in
  match known with
  | None =>
      let patterns : list regex := [] in
      let improvements_found :=
        List.filter (newly_matched original_content fixed_content) patterns in
      match length patterns with
      | O => Raise (mkExc "ZeroDivisionError" "division by zero")
      | S _ =>
          Ok (mkResolution (0 <? length improvements_found)%nat
                (nat_Q (length improvements_found) / nat_Q (length patterns))%Q)
      end
  | Some _ =>
      let found_improvements :=
        List.filter (newly_present original_content fixed_content)
                    general_improvements in
      Ok (mkResolution (0 <? length found_improvements)%nat
            (match found_improvements with
             | _ :: _ => 0.5%Q
             | [] => 0.1%Q
             end))
  end.

(** [p.split('/')] *)
Fixpoint path_parts (p : string) : list string :=
  match p with
  | EmptyString => [EmptyString]
  | String c p' =>
      match path_parts p' with
      | part :: parts =>
          if Ascii.eqb c "/"%char then EmptyString :: part :: parts
          else String c part :: parts
      | [] => [String c EmptyString]
      end
  end.

(** [Path(p).name]: the last component of the path; [pathlib] drops the
    empty components and the components ["."], so that a slash at the end
    does not count. *)
Definition path_name (p : string) : string :=
  List.last
    (List.filter (fun part => negb (String.eqb part "") && negb (String.eqb part "."))
                 (path_parts p))
    "".

(** [Path(p).suffix.lower()] for the name of the path: from the last dot,
    unless it leads or ends the name. *)
Definition suffix_lower (name : string) : string :=
  match rfind "." name with
  | Some i =>
      if ((0 <? i) && (i <? String.length name - 1))%nat
      then lower (drop i name) else ""
  | None => ""
  end.

Definition _determine_file_type (filename : string) : string :=
  match dict_get (suffix_lower (path_name filename))
          [ (".html", "html"); (".htm", "html"); (".css", "css");
            (".xml", "xml"); (".jsx", "jsx"); (".tsx", "tsx");
            (".js", "javascript"); (".ts", "typescript");
            (".cpp", "cpp"); (".cc", "cpp"); (".cxx", "cpp");
            (".c", "c"); (".h", "c") ] with
  | Some t => t
  | None => "unknown"
  end.

(** [AestheticsAnalyzer._perform_static_analysis]; an analysis that raises
    contributes no issue. *)
Definition _perform_static_analysis (env : Env) (code name : string)
  : list Issue :=
  let file_type := _determine_file_type name in
  if String.eqb file_type "html" then analyze_html env code
  else if String.eqb file_type "css" then analyze_css env code
  else if String.eqb file_type "xml" then analyze_xml env code
  else if str_in file_type ["jsx"; "tsx"; "javascript"] then analyze_react env code
  else [].

Definition _is_similar_issue (new_issue original_issue : Issue) : bool :=
  if String.eqb (principle_id new_issue) (principle_id original_issue) then true
  else existsb (fun ln => existsb (Z.eqb ln) (line_numbers original_issue))
               (line_numbers new_issue).

(** The dictionary [_recheck_aesthetics] returns, without its listings. *)
Record Recheck : Type := mkRecheck {
  similar_issues_remaining : nat;
  improvement_score : Q
}.

Definition _recheck_aesthetics (env : Env) (fixed_content : string)
           (issue_details : Issue) (file_path : string) : Recheck :=
  let static_issues :=
    _perform_static_analysis env fixed_content (path_name file_path) in
  let similar_issues :=
    List.filter (fun issue => _is_similar_issue issue issue_details)
                static_issues in
  mkRecheck (length similar_issues)
            (match similar_issues with
             | [] => 1.0%Q
             | _ => 0.3%Q
             end).

Definition _calculate_remediation_quality (syntax_valid : bool)
           (issue_addressed : Resolution) (design_recheck : Recheck) : Q :=
  let score := 0%Q in
  (* Syntax validation (30%) *)
  let score := if syntax_valid then (score + 0.3)%Q else score in
  (* Issue resolution (40%) *)
  let score := (score + 0.4 * confidence issue_addressed)%Q in
  (* Design improvement (30%) *)
  let score := (score + 0.3 * improvement_score design_recheck)%Q in
  Qmin 1 score.

(** [validation_passed] and [quality_score] of [_validate_remediation]; an
    exception inside leaves both at their initial values. *)
Definition _validate_remediation (env : Env)
           (original_content fixed_content : string) (issue_details : Issue)
           (file_path : string) : bool * Q :=
  match validate_fixed_code env original_content fixed_content file_path with
  | Raise _ => (false, 0%Q)
  | Ok syntax_valid =>
      match _check_issue_resolution original_content fixed_content
                                    issue_details with
      | Raise _ => (false, 0%Q)
      | Ok issue_addressed =>
          let design_recheck :=
            _recheck_aesthetics env fixed_content issue_details file_path in
          let score :=
            _calculate_remediation_quality syntax_valid issue_addressed
                                           design_recheck in
          (syntax_valid && likely_resolved issue_addressed
           && Qle_bool 0.7 score, score)
      end
  end.

(** *** Building the candidate content *)

(** [sorted(changes, key=line_number, reverse=True)]: descending and
    stable. *)
Fixpoint insert_desc (c : Change) (l : list Change) : list Change :=
  match l with
  | [] => [c]
  | x :: l' =>
      if (line_number x <=? line_number c)%Z then c :: l
      else x :: insert_desc c l'
  end.

Definition sorted_desc (changes : list Change) : list Change :=
  fold_right insert_desc [] changes.

Definition apply_change (lines : list string) (change : Change) : list string :=
  let line_number := line_number change in
  let original_line := original change in
  let fixed_line := fixed change in
  if negb (line_number =? 0)%Z && in_range lines line_number then
    let i := Z.to_nat (line_number - 1) in
    let current := line_at lines line_number in
    if negb (String.eqb original_line "")
       && contains (strip original_line) current
    then <[i := replace (strip original_line) (strip fixed_line) current]> lines
    else <[i := fixed_line]> lines
  else lines.

Definition _apply_changes_to_content (original_content : string)
           (changes : list Change) : string :=
  let lines := split_lines original_content in
  join_lines (fold_left apply_change (sorted_desc changes) lines).

(** *** Sessions *)

Definition find_in_file (issue_id : string) (file_result : FileResult)
  : option Issue :=
  match List.find (fun issue => String.eqb (Analyzer.issue_id issue) issue_id)
                  (issues file_result) with
  | Some issue => Some (set_file_path (info_path file_result) issue)
  | None => None
  end.

Fixpoint first_some {A B : Type} (f : A -> option B) (l : list A) : option B :=
  match l with
  | [] => None
  | x :: l' =>
      match f x with
      | Some y => Some y
      | None => first_some f l'
      end
  end.

(** The first issue with the given id, over the models and their files in
    order, with the path of its file. *)
Definition _find_issue_in_session (session : Session) (issue_id : string)
  : option Issue :=
  first_some
    (fun entry : string * option (list FileResult) =>
       match snd entry with
       | Some model_results =>
           first_some (find_in_file issue_id) model_results
       | None => None
       end)
    (analysis_results session).

(** *** The remediation lifecycle *)

Definition backup_dir (session_id : string) : string :=
  "temp_sessions/" ++ session_id ++ "/backups".

Definition get_enhanced_remediation (env : Env) (w : World)
           (analysis_sessions : gmap string Session)
           (session_id issue_id model : string) : GetResult * World :=
  match analysis_sessions !! session_id with
  | None => (Failed "session_lookup" ("Session " ++ session_id ++ " not found"), w)
  | Some session =>
  (* Step 1: find the original issue *)
  match _find_issue_in_session session issue_id with
  | None =>
      (* the message goes on with the first five available ids *)
      (Failed "issue_lookup"
              ("Issue " ++ issue_id ++ " not found in session analysis results"), w)
  | Some issue_details =>
  (* Step 2: read the current file content *)
  let file_path := file_path issue_details in
  if String.eqb file_path "" then
    (Failed "file_path_missing" "No file path found in issue details", w)
  else if negb (path_exists w file_path) then
    (Failed "file_access" ("File not found: " ++ file_path), w)
  else
  match read_file_content env w file_path with
  | Raise e =>
      (Failed "file_reading" ("Error reading file content: " ++ exc_msg e), w)
  | Ok EmptyString =>
      (Failed "file_reading" "Failed to read file content or content is empty", w)
  | Ok content =>
  (* Steps 3 and 4: prompt and gateway *)
  match call_model env issue_details content file_path model with
  | Raise e =>
      (Failed "llm_processing" ("Error calling LLM model: " ++ exc_msg e), w)
  | Ok reply =>
  (* Step 5: validate and enhance the result *)
  match reply_success reply, reply_changes reply with
  | true, _ :: _ =>
      let fixed_content :=
        _apply_changes_to_content content (reply_changes reply) in
      let validation :=
        _validate_remediation env content fixed_content issue_details
                              file_path in
      let result (backup : option string) (error : option string) :=
        mkResult (reply_changes reply) fixed_content (fst validation)
                 (snd validation) backup error in
      match create_backup env w file_path (backup_dir session_id) with
      | (Raise e, w) => (Proposed (result None (Some (exc_msg e))), w)
      | (Ok backup, w) =>
          if diff_fails env
          then (Proposed (result (Some backup) (Some "diff failed")), w)
          else (Proposed (result (Some backup) None), w)
      end
  | _, _ =>
      (Failed "llm_processing" "LLM failed to generate valid remediation", w)
  end end end end end.

Definition below_threshold (score : Q) : bool := negb (Qle_bool 0.7 score).

Definition suggestion_text : string :=
  "Review the proposed changes or try a different model".

(** The answer of the [except] branch of [apply_remediation] *)
Definition apply_failed (msg : string) : ApplyResult :=
  NotApplied "file_writing" ("Failed to apply remediation: " ++ msg).

Definition apply_remediation (env : Env) (w : World)
           (analysis_sessions : gmap string Session)
           (session_id issue_id model : string) (force_apply : bool)
  : ApplyResult * World * gmap string Session :=
  match get_enhanced_remediation env w analysis_sessions session_id issue_id
                                 model with
  | (Failed stage error, w) => (NotApplied stage error, w, analysis_sessions)
  | (Proposed remediation_result, w) =>
  (* Check quality score *)
  let score := quality_score remediation_result in
  if below_threshold score && negb force_apply then
    (BelowThreshold score suggestion_text remediation_result, w,
     analysis_sessions)
  else
  (* Apply the fix *)
  match analysis_sessions !! session_id with
  | None => (apply_failed ("'" ++ session_id ++ "'"), w, analysis_sessions)
  | Some session =>
  match _find_issue_in_session session issue_id with
  | None =>
      (apply_failed "'NoneType' object is not subscriptable", w,
       analysis_sessions)
  | Some issue_details =>
  let file_path := file_path issue_details in
  match write_file env w file_path (fixed_code remediation_result) with
  | (Raise e, w) => (apply_failed (exc_msg e), w, analysis_sessions)
  | (Ok _, w) =>
      (* Store successful remediation in session *)
      let store :=
        match remediations session with
        | Some store => store
        | None => ∅
        end in
      let '(timestamp, w) := now env w in
      let record :=
        mkRecord model remediation_result timestamp true score false None in
      let session :=
        mkSession (analysis_results session) (Some (<[issue_id := record]> store)) in
      (Applied issue_id model score (length (changes remediation_result))
               (backup_path remediation_result),
       w, <[session_id := session]> analysis_sessions)
  end end end end.

Definition mark_rolled_back (timestamp : nat) (r : RemediationRecord)
  : RemediationRecord :=
  mkRecord (rec_model r) (rec_result r) (rec_timestamp r) (rec_applied r)
           (rec_quality_score r) true (Some timestamp).

Definition rollback_remediation (env : Env) (w : World)
           (analysis_sessions : gmap string Session)
           (session_id issue_id : string)
  : RollbackResult * World * gmap string Session :=
  match analysis_sessions !! session_id with
  | None =>
      (RollbackFailed ("Rollback failed: '" ++ session_id ++ "'"), w,
       analysis_sessions)
  | Some session =>
  match (match remediations session with
         | Some store => store !! issue_id
         | None => None
         end) with
  | None =>
      (RollbackFailed "No remediation found for this issue", w, analysis_sessions)
  | Some remediation =>
  let backup_path :=
    match backup_path (rec_result remediation) with
    | Some p => p
    | None => ""
    end in
  if negb (path_exists w backup_path) then
    (RollbackFailed "Backup file not found - cannot rollback", w,
     analysis_sessions)
  else
  (* Find original file path *)
  match _find_issue_in_session session issue_id with
  | None =>
      (RollbackFailed "Original issue details not found", w, analysis_sessions)
  | Some issue_details =>
  let original_file_path := file_path issue_details in
  (* Restore from backup *)
  match copy2 env w backup_path original_file_path with
  | (Raise e, w) =>
      (RollbackFailed ("Rollback failed: " ++ exc_msg e), w, analysis_sessions)
  | (Ok _, w) =>
      (* Mark as rolled back *)
      let store :=
        match remediations session with
        | Some store => store
        | None => ∅
        end in
      let '(timestamp, w) := now env w in
      let session :=
        mkSession (analysis_results session)
                  (Some (<[issue_id := mark_rolled_back timestamp remediation]> store)) in
      (RolledBack issue_id backup_path, w,
       <[session_id := session]> analysis_sessions)
  end end end end.

(** *** Observations on sessions and results *)

(** [session["remediations"]] of a session, empty while the key or the
    session is absent. *)
Definition store_of (analysis_sessions : gmap string Session)
           (session_id : string) : gmap string RemediationRecord :=
  match analysis_sessions !! session_id with
  | Some session =>
      match remediations session with
      | Some store => store
      | None => ∅
      end
  | None => ∅
  end.

(** The real file of an issue of a session. *)
Definition issue_file (analysis_sessions : gmap string Session)
           (session_id issue_id : string) : option string :=
  match analysis_sessions !! session_id with
  | Some session =>
      match _find_issue_in_session session issue_id with
      | Some issue_details => Some (file_path issue_details)
      | None => None
      end
  | None => None
  end.

Definition is_applied (result : ApplyResult) : bool :=
  match result with
  | Applied _ _ _ _ _ => true
  | _ => false
  end.

Definition is_rolled_back (result : RollbackResult) : bool :=
  match result with
  | RolledBack _ _ => true
  | RollbackFailed _ => false
  end.

(** A write to [file] that went through. *)
Definition is_write_to (file : string) (event : IOEvent) : bool :=
  match event with
  | EvWrite f _ true => String.eqb f file
  | _ => false
  end.

(** A snapshot of [file] that completed. *)
Definition is_snapshot_of (file : string) (event : IOEvent) : bool :=
  match event with
  | EvSnapshot f (Some _) => String.eqb f file
  | _ => false
  end.

(** The invariant of section 4.6 on a log: every write to [file] that went
    through comes after a completed snapshot of [file]. *)
Fixpoint snapshot_before_write (file : string) (seen : bool)
         (log : list IOEvent) : bool :=
  match log with
  | [] => true
  | event :: log' =>
      (negb (is_write_to file event) || seen)
      && snapshot_before_write file (seen || is_snapshot_of file event) log'
  end.

(** *** Previews *)

(** What [preview_remediation] returns: the failure of the proposal as it
    is, or the changes and the quality score of the proposal (without
    [diff], and without [validation] and [estimated_impact], which are the
    reply's own). *)
Inductive PreviewResult : Type :=
| PreviewFailed (stage error : string)
| Preview (changes : list Change) (quality_score : Q).

Definition preview_remediation (env : Env) (w : World)
           (analysis_sessions : gmap string Session)
           (session_id issue_id model : string) : PreviewResult * World :=
  match get_enhanced_remediation env w analysis_sessions session_id issue_id
                                 model with
  | (Proposed remediation_result, w) =>
      (* Don't apply the fix, just return the preview *)
      (Preview (changes remediation_result)
               (quality_score remediation_result), w)
  | (Failed stage error, w) => (PreviewFailed stage error, w)
  end.

(** The backup path an apply reports. *)
Definition backup_of (result : ApplyResult) : option string :=
  match result with
  | Applied _ _ _ _ backup => backup
  | _ => None
  end.

End Remediation.

(* ===================================================================== *)
(** ** aesthetics_analyzer.py: AestheticsAnalyzer.process_llm_result *)
(* ===================================================================== *)

Module Pipeline.
Import PyStr Re Analyzer Remediation.

(** The gateway's reply to a detection prompt: the truth value of its
    ["error"] key and its ["issues"], the empty list when the key is
    absent. *)
Record LLMResult : Type := mkLLMResult {
  llm_error : bool;
  llm_issues : list Issue
}.

(** The dictionary [process_llm_result] builds, without [file_info] and
    [llm_result], which it copies from its arguments. *)
Record Processed : Type := mkProcessed {
  out_total_issues : nat;
  out_issues : list Issue;
  out_metrics : Metrics;
  llm_issues_count : nat;
  static_issues_count : nat
}.

(** One round of the loop over the reply's issues: the enhancement, which
    raises when the element type of its UI preview does, and the
    validation. *)
Definition keep_if_valid (original_code : string)
           (enhanced_issues : Exn (list Issue)) (issue : Issue)
  : Exn (list Issue) :=
  match enhanced_issues with
  | Raise e => Raise e
  | Ok enhanced_issues =>
      let enhanced_issue := _enhance_issue issue original_code in
      match _extract_element_type (code_snippet enhanced_issue) with
      | Raise e => Raise e
      | Ok _ =>
          let '(exists_in_code, enhanced_issue) :=
            _validate_issue_existence enhanced_issue original_code in
          Ok (if exists_in_code then enhanced_issues ++ [enhanced_issue]
              else enhanced_issues)
      end
  end.

(** [name] is [file_info["name"]]; without the key the static analysis
    raises and adds nothing. A reply with an error is returned as it is. *)
Definition process_llm_result (env : Env) (llm_result : LLMResult)
           (name : option string) (original_code : string)
  : Exn (LLMResult + Processed) :=
  if llm_error llm_result then Ok (inl llm_result)
  else
    match fold_left (keep_if_valid original_code) (llm_issues llm_result) (Ok [])
    with
    | Raise e => Raise e
    | Ok enhanced_issues =>
        let llm_validated_count := length enhanced_issues in
        (* Add static analysis results *)
        let static_issues :=
          match name with
          | Some name => _perform_static_analysis env original_code name
          | None => []
          end in
        let static_issues_count := length static_issues in
        let enhanced_issues := enhanced_issues ++ static_issues in
        (* Calculate metrics *)
        let metrics := _calculate_metrics enhanced_issues in
        let total_issues := length enhanced_issues in
        Ok (inr (mkProcessed total_issues enhanced_issues metrics
                             llm_validated_count static_issues_count))
    end.

(** The verdict of the validator on the enhanced finding, read from the
    finding as the gateway reported it. *)
Definition survives (original_code : string) (issue : Issue) : bool :=
  if String.eqb (strip (code_snippet issue)) ""
  then match line_numbers issue with
       | [] => is_lenient (principle_id issue)
       | claimed => existsb (in_range (split_lines original_code)) claimed
       end
  else true.

End Pipeline.

(* ===================================================================== *)
(** ** llm_clients.py: LLMClient._parse_json_response *)
(* ===================================================================== *)

Module LLMClient.
Import PyStr Re.

#[local] Set Warnings "-register-all".

(** A decoded JSON value; an object keeps its keys in order. *)
Inductive json : Type :=
| JNull
| JBool (b : bool)
| JInt (n : Z)
| JFloat (q : Q)
| JStr (s : string)
| JList (items : list json)
| JObj (fields : list (string * json)).

(** [d.get(key)] *)
Definition jget (key : string) (fields : list (string * json)) : option json :=
  Analyzer.dict_get key fields.

(** [d[key] = v]: in place when the key exists, else at the end. *)
Fixpoint jset (key : string) (v : json) (fields : list (string * json))
  : list (string * json) :=
  match fields with
  | [] => [(key, v)]
  | (k, x) :: fields' =>
      if String.eqb key k then (k, v) :: fields'
      else (k, x) :: jset key v fields'
  end.

(** [s[i:j]] for [i <= j] *)
Definition slice (i j : nat) (s : string) : string := take (j - i) (drop i s).

Definition fence : string := "```".
Definition json_fence : string := "```json".

(** The removal of a markdown code block; the text is kept as it is when
    the opening fence has no closing one. *)
Definition strip_fences (content : string) : string :=
  match find json_fence content with
  | Some i =>
      let start := (i + 7)%nat in
      match find_from fence content start with
      | Some stop => strip (slice start stop content)
      | None => content
      end
  | None =>
      match find fence content with
      | Some i =>
          let start := (i + 3)%nat in
          match find_from fence content start with
          | Some stop => strip (slice start stop content)
          | None => content
          end
      | None => content
      end
  end.

(** [content[json_start:json_end + 1]] when both braces are found and the
    closing one comes later. *)
Definition json_candidate (content : string) : option string :=
  match find "{" content, rfind "}" content with
  | Some json_start, Some json_end =>
      if (json_start <? json_end)%nat
      then Some (slice json_start (S json_end) content)
      else None
  | _, _ => None
  end.

(** [\{.*\}] under [re.DOTALL] *)
Definition braces_pattern : regex :=
  Seq (Lit "{") (Seq (Star (Cls (fun _ => true))) (Lit "}")).

Definition file_info_unknown : json :=
  JObj [ ("filename", JStr "unknown"); ("total_lines", JInt 0);
         ("file_type", JStr "unknown") ].

(** The zero-issue dictionary of the two fallbacks. *)
Definition error_result (error content : string) : json :=
  JObj [ ("total_issues", JInt 0);
         ("issues", JList []);
         ("error", JStr error);
         ("raw_response", JStr (truncate 500 content));
         ("file_info", file_info_unknown) ].

(** "Validate required fields" *)
Definition normalise (fields : list (string * json)) : list (string * json) :=
  let fields :=
    match jget "issues" fields with
    | Some (JList _) => fields
    | _ => jset "issues" (JList []) fields
    end in
  match jget "total_issues" fields with
  | Some (JInt _) | Some (JBool _) => fields
  | _ =>
      let count :=
        match jget "issues" fields with
        | Some (JList items) => length items
        | _ => O
        end in
      jset "total_issues" (JInt (Z.of_nat count)) fields
  end.

Definition is_decode_error (e : PyExc) : bool :=
  String.eqb (exc_type e) "JSONDecodeError".

Section Parser.

(** [json.loads]: the decoded value, or the exception it raises. *)
Variable json_loads : string -> Exn json.

(** The first attempt: [Some] is what the function returns or raises from
    it, [None] means that the attempt was skipped or ended in a
    [JSONDecodeError]. *)
Definition first_attempt (content : string) : option (Exn json) :=
  match json_candidate content with
  | Some json_content =>
      match json_loads json_content with
      | Ok (JObj fields) => Some (Ok (JObj (normalise fields)))
      | Ok _ => Some (Raise (mkExc "AttributeError" "no attribute get"))
      | Raise e => if is_decode_error e then None else Some (Raise e)
      end
  | None => None
  end.

(** The second attempt, on the regular-expression match. *)
Definition second_attempt (content : string) : option (Exn json) :=
  match search_group false braces_pattern content with
  | Some text =>
      match json_loads text with
      | Ok parsed => Some (Ok parsed)
      | Raise e => if is_decode_error e then None else Some (Raise e)
      end
  | None => None
  end.

(** The body of the [try] block, after the code block was removed. *)
Definition try_block (content : string) : Exn json :=
  match first_attempt content with
  | Some outcome => outcome
  | None =>
      match second_attempt content with
      | Some outcome => outcome
      | None =>
          Ok (error_result
                "Failed to parse LLM response as JSON: Content does not contain valid JSON"
                content)
      end
  end.

Definition _parse_json_response (content : string) : Exn json :=
  let content := strip_fences content in
  match try_block content with
  | Ok parsed => Ok parsed
  | Raise e =>
      Ok (error_result ("Failed to parse LLM response: " ++ exc_msg e) content)
  end.

End Parser.

End LLMClient.

(* ===================================================================== *)
(** ** llm_clients.py: LLMClient, the detection and its checks *)
(* ===================================================================== *)

Module Detection.
Import PyStr Re Analyzer Remediation.

(** *** Numbered code *)

(** [str(i)] *)
Definition decimal (i : Z) : string := NilZero.string_of_int (Z.to_int i).

(** [' ' * n] *)
Fixpoint spaces (n : nat) : string :=
  match n with
  | O => EmptyString
  | S n' => String " " (spaces n')
  end.

(** [f"{i:4d}"]: right-aligned in a field of at least four characters. *)
Definition format_4d (i : Z) : string :=
  let digits := decimal i in
  (spaces (4 - String.length digits) ++ digits)%string.

(** [f"{i:4d}: {line}"] *)
Definition numbered_line (il : Z * string) : string :=
  (format_4d (fst il) ++ ": " ++ snd il)%string.

Definition _create_numbered_code (code : string) : string :=
  let lines := split_lines code in
  join_lines (map numbered_line (enumerate_from 1 lines)).

(** *** The score of a fix *)

(** [line-height\s*:\s*1\.[4-6]] *)
Definition proper_line_height : regex :=
  Seq (prop "line-height")
      (Seq (Star s) (Seq (Str "1.") (Cls (digit_between 4 6)))).

(** [improvements] of [_calculate_fix_validation_score] *)
Definition improvements : list (regex * Q) :=
  [ (color_variable_use, 0.2%Q);
    (prop "border-radius", 0.15%Q);
    (prop "box-shadow", 0.15%Q);
    (readable_font_size, 0.1%Q);
    (proper_line_height, 0.1%Q);
    (alternatives ["margin"; "padding"; "gap"], 0.15%Q);
    (prop "font-weight", 0.15%Q) ].

Definition _calculate_fix_validation_score (original fixed : string) : Q :=
  let score := 0%Q in
  let score :=
    fold_left (fun score (improvement : regex * Q) =>
                 let (pattern, weight) := improvement in
                 if newly_matched original fixed pattern
                 then (score + weight)%Q else score)
              improvements score in
  (* Bonus for FIXED comments *)
  let score := if contains "// FIXED" fixed then (score + 0.1)%Q else score in
  Qmin score 1.

(** *** The acceptance of a fix *)

(** [validation_patterns] and [category_patterns] of [_validate_fix_quality] *)
Definition validation_patterns : list (string * list regex) :=
  [ ("COLOR_001", [hex_color; call "rgb"; call "rgba"]);
    ("COLOR_002", [Str "var(--"; color_variable]);
    ("SPACING_001", [Seq (Plus d) (Str "px")]);
    ("SPACING_002", [alternatives ["margin"; "padding"; "gap"]]);
    ("TYPOGRAPHY_001", [prop "font-size"; prop "font-weight"]);
    ("TYPOGRAPHY_002", [readable_font_size]);
    ("HIERARCHY_001", [prop "font-size"; prop "font-weight"]);
    ("MODERN_001", [Str "box-shadow"; Str "border-radius"]) ].

Definition validation_category_patterns : list (string * list regex) :=
  [ ("color", [prop "color"; prop "background-color"; Str "var(--"]);
    ("spacing", [alternatives ["margin"; "padding"; "gap"]]);
    ("typography", [alternatives ["font-size"; "font-weight"; "line-height"]]);
    ("hierarchy", [alternatives ["font-size"; "font-weight"]]);
    ("modern_patterns", [alternatives ["box-shadow"; "border-radius"]]) ].

Definition _validate_fix_quality (original_code fixed_code : string)
           (issue : Issue) : bool :=
  let expected :=
    match dict_get (principle_id issue) validation_patterns with
    | Some patterns => any_pattern patterns fixed_code
    | None =>
        if str_in (category issue)
                  ["color"; "spacing"; "typography"; "hierarchy"; "modern_patterns"]
        then match dict_get (category issue) validation_category_patterns with
             | Some patterns => any_pattern patterns fixed_code
             | None => false
             end
        else false
    end in
  if expected then true
  else
    (* If we can't validate specifically, check for general improvements *)
    contains "// FIXED" fixed_code
    || (String.length original_code <? String.length fixed_code)%nat.

(** *** The accuracy of a reported issue *)

(** The dictionary [_validate_issue_accuracy] returns, without its notes. *)
Record Validation : Type := mkValidation {
  is_valid : bool;
  accuracy_confidence : Q
}.

(** The test on one claimed line that is a line of the code. *)
Definition snippet_on_line (code_snippet line_content : string) : bool :=
  negb (String.eqb code_snippet "")
  && (contains code_snippet line_content
      || existsb (fun word => contains word line_content)
                 (List.filter (fun word => (3 <? String.length word)%nat)
                              (split_ws code_snippet))).

Definition accurate_line (issue : Issue) (lines : list string) (line_num : Z) : bool :=
  in_range lines line_num
  && snippet_on_line (strip (code_snippet issue)) (strip (line_at lines line_num)).

Definition _validate_issue_accuracy (issue : Issue) (original_code : string)
  : Validation :=
  let lines := split_lines original_code in
  match line_numbers issue with
  | [] => mkValidation false 0.0
  | line_numbers =>
      let valid_line_count :=
        fold_left (fun (count : nat) line_num =>
                     if accurate_line issue lines line_num then S count else count)
                  line_numbers O in
      (* Calculate confidence based on validation *)
      let confidence :=
        (nat_Q valid_line_count / nat_Q (length line_numbers))%Q in
      mkValidation (Qle_bool 0.5 confidence) confidence
  end.

(** *** Detection *)

(** A detection result: its ["error"], its ["total_issues"] and its
    ["issues"], each with its ["validation"] when it has one. *)
Record Detection : Type := mkDetection {
  det_error : option string;
  det_total_issues : Z;
  det_issues : list (Issue * option Validation)
}.

(** What a detection prompt is built from. *)
Inductive Prompt : Type :=
| DetectionPrompt (code numbered_code filename : string)
| ChunkPrompt (filename : string) (start_line end_line : Z) (chunk_code : string).

(** [range(0, n, 100)] *)
Definition chunk_starts (n : nat) : list nat :=
  map (fun k => (k * 100)%nat) (seq 0 ((n + 99) / 100)).

(** The line numbers of an issue of a chunk, moved by the offset of the
    chunk. *)
Definition adjust_lines (offset : nat) (entry : Issue * option Validation)
  : Issue * option Validation :=
  (set_line_numbers (map (fun line_num => line_num + Z.of_nat offset)
                         (line_numbers (fst entry)))
                    (fst entry),
   snd entry).

Section Detect.

(** [_call_model]: the parsed reply of the model, or the exception it
    raises. *)
Variable _call_model : Prompt -> string -> Exn Detection.

(** One round of the loop over the chunks. *)
Definition detect_chunk (lines : list string) (filename model : string)
           (all_issues : list (Issue * option Validation)) (i : nat)
  : list (Issue * option Validation) :=
  let chunk_size := 100%nat in
  let chunk_lines := firstn chunk_size (skipn i lines) in
  let chunk_code := join_lines chunk_lines in
  let start_line := Z.of_nat i + 1 in
  let end_line := Z.min (Z.of_nat (i + chunk_size)) (Z.of_nat (length lines)) in
  (* Skip empty chunks *)
  if String.eqb (strip chunk_code) "" then all_issues
  else
    match _call_model (ChunkPrompt filename start_line end_line chunk_code) model with
    | Ok chunk_result =>
        match det_issues chunk_result with
        | [] => all_issues
        | issues => all_issues ++ map (adjust_lines i) issues
        end
    | Raise _ => all_issues
    end.

Definition _detect_aesthetic_issues_chunked (code filename model : string)
  : Detection :=
  let lines := split_lines code in
  let all_issues :=
    fold_left (detect_chunk lines filename model) (chunk_starts (length lines)) [] in
  mkDetection None (Z.of_nat (length all_issues)) all_issues.

(** One round of the loop over the reported issues. *)
Definition keep_confident (code : string)
           (validated_issues : list (Issue * option Validation))
           (entry : Issue * option Validation)
  : list (Issue * option Validation) :=
  let issue := fst entry in
  let validation := _validate_issue_accuracy issue code in
  (* Only include high-confidence issues *)
  if Qle_bool 0.3 (accuracy_confidence validation)
  then validated_issues ++ [(issue, Some validation)]
  else validated_issues.

Definition detect_aesthetic_issues (code filename model : string) : Detection :=
  if String.eqb model "llama-maverick" && (2000 <? Z.of_nat (String.length code))%Z
  then _detect_aesthetic_issues_chunked code filename model
  else
    let numbered_code := _create_numbered_code code in
    match _call_model (DetectionPrompt code numbered_code filename) model with
    | Ok raw_result =>
        match det_issues raw_result with
        | [] => raw_result
        | issues =>
            let validated_issues := fold_left (keep_confident code) issues [] in
            mkDetection (det_error raw_result)
                        (Z.of_nat (length validated_issues)) validated_issues
        end
    | Raise e => mkDetection (Some (exc_msg e)) 0 []
    end.

End Detect.

End Detection.

(* ===================================================================== *)
(** ** The brace search of the parser, as functions on the text *)
(* ===================================================================== *)

Module Braces.
Import PyStr Re.

(** The text up to and including the last closing brace. *)
Fixpoint upto_last_close (text : string) : option string :=
  match text with
  | EmptyString => None
  | String a text' =>
      match upto_last_close text' with
      | Some body => Some (String a body)
      | None => if Ascii.eqb a "}" then Some (String a EmptyString) else None
      end
  end.

(** The text from the first opening brace to the last closing brace after
    it. *)
Fixpoint braced (text : string) : option string :=
  match text with
  | EmptyString => None
  | String a text' =>
      if Ascii.eqb a "{"
      then match upto_last_close text' with
           | Some body => Some (String a body)
           | None => None
           end
      else braced text'
  end.

(** What is left of a text after its last closing brace. *)
Fixpoint after_last_close (t : list ascii) : option (list ascii) :=
  match t with
  | [] => None
  | a :: t' =>
      match after_last_close t' with
      | Some r => Some r
      | None => if Ascii.eqb "}" a then Some t' else None
      end
  end.

(** A text without a backtick: no code fence starts or ends in it. *)
Fixpoint no_backtick (text : string) : bool :=
  match text with
  | EmptyString => true
  | String a text' => negb (Ascii.eqb a "`") && no_backtick text'
  end.

(** The two halves of [\{.*\}] after its opening brace. *)
Definition any_char : regex := Cls (fun _ => true).

Definition close_then_done (st : mstate) : option mstate :=
  rmatch false (Lit "}") st Some.

End Braces.

(* ===================================================================== *)
(** ** Whitespace and line feeds, as functions on the text *)
(* ===================================================================== *)

Module Whitespace.
Import PyStr Re.

(** The text without its whitespace characters. *)
Fixpoint squeeze (text : string) : string :=
  match text with
  | EmptyString => EmptyString
  | String a text' =>
      if is_space a then squeeze text' else String a (squeeze text')
  end.

(** The characters after the leading whitespace. *)
Fixpoint skip_spaces (t : list ascii) : list ascii :=
  match t with
  | a :: t' => if is_space a then skip_spaces t' else t
  | [] => []
  end.

(** The character before the first one that is not whitespace. *)
Fixpoint last_space (p : option ascii) (t : list ascii) : option ascii :=
  match t with
  | a :: t' => if is_space a then last_space (Some a) t' else p
  | [] => p
  end.

(** The lines without their whitespace, one after the other. *)
Fixpoint squeeze_all (ls : list string) : string :=
  match ls with
  | [] => EmptyString
  | l :: ls' => (squeeze l ++ squeeze_all ls')%string
  end.

(** A text of one line: no line feed in it. *)
Fixpoint no_lf (text : string) : bool :=
  match text with
  | EmptyString => true
  | String a text' => negb (Ascii.eqb a LF) && no_lf text'
  end.

End Whitespace.

(* ===================================================================== *)
(** ** The specification's formulas, in its own words *)
(* ===================================================================== *)

Module Spec.
Import PyStr Re Analyzer Remediation.

(** 1 if the condition holds, else 0 *)
Definition indicator (b : bool) : Q := if b then 1%Q else 0%Q.

(** The fraction of the claimed line numbers that are in range (0 when no
    line number is claimed). *)
Definition in_range_fraction (claimed : list Z) (lines : list string) : Q :=
  (nat_Q (length (List.filter (in_range lines) claimed))
   / nat_Q (length claimed))%Q.

(** The claimed snippet appears verbatim on at least one resolved line,
    that is a claimed line that exists in the text. *)
Definition snippet_appears_verbatim (issue : Issue) (lines : list string) : bool :=
  existsb (fun ln => in_range lines ln
                     && contains (code_snippet issue) (line_at lines ln))
          (line_numbers issue).

(** The same for a snippet that is not empty, compared without the
    whitespace around it. *)
Definition trimmed_snippet_appears (issue : Issue) (lines : list string) : bool :=
  negb (String.eqb (code_snippet issue) "")
  && existsb (fun ln => in_range lines ln
                        && contains (strip (code_snippet issue)) (line_at lines ln))
             (line_numbers issue).

(** The principle id is a key of the taxonomy. *)
Definition known_principle (principle : string) : bool :=
  str_in principle aesthetic_principles.

(** The description is longer than 20 characters and holds a domain
    keyword. *)
Definition good_description (text : string) : bool :=
  (20 <? String.length text)%nat
  && existsb (fun keyword => contains keyword (lower text)) description_keywords.

(** The validation score of section 4.4, for a given reading of "the
    snippet appears". *)
Definition validation_score_of (appears : Issue -> list string -> bool)
           (issue : Issue) (code : string) : Q :=
  let lines := split_lines code in
  (0.4 * in_range_fraction (line_numbers issue) lines
   + 0.3 * indicator (appears issue lines)
   + 0.2 * indicator (known_principle (principle_id issue))
   + 0.1 * indicator (good_description (description issue)))%Q.

(** The principle id belongs to the lenient set. *)
Definition in_lenient_set (principle : string) : bool :=
  str_in principle lenient_principles.

(** The taxonomy's resolution patterns for a finding: those of its
    principle, else those of its category. *)
Definition taxonomy_resolution_patterns (issue : Issue) : list regex :=
  match dict_get (principle_id issue) resolution_patterns with
  | Some patterns => patterns
  | None =>
      match dict_get (category issue) resolution_category_patterns with
      | Some patterns => patterns
      | None => []
      end
  end.

(** The issue-resolution confidence of section 4.4: the fraction of the
    resolution patterns present in the fixed content and absent from the
    original. *)
Definition resolution_fraction (issue : Issue) (original fixed : string) : Q :=
  let patterns := taxonomy_resolution_patterns issue in
  (nat_Q (length (List.filter (newly_matched original fixed) patterns))
   / nat_Q (length patterns))%Q.

(** The remediation quality score of section 4.4 *)
Definition quality_score_spec (syntax_valid : bool) (issue : Issue)
           (original fixed : string) (similar_remaining : nat) : Q :=
  (0.3 * indicator syntax_valid
   + 0.4 * resolution_fraction issue original fixed
   + 0.3 * (match similar_remaining with O => 1.0 | _ => 0.3 end))%Q.

(** The fix confidence score of section 4.4, from the validation score of
    the finding. *)
Definition fix_confidence_spec (validation : Q) (issue : Issue) : Q :=
  Qmin 1
    (0.7 * validation
     + (if String.eqb (severity issue) "critical" then 0.2
        else if String.eqb (severity issue) "high" then 0.1 else 0)
     + (if String.eqb (source issue) "static_analysis" then 0.1 else 0)
     + (if (10 <? String.length (code_snippet issue))%nat
           && (contains "{" (code_snippet issue)
               || contains "<" (code_snippet issue))
        then 0.1 else 0))%Q.

(** A score read from an optional key. *)
Definition score_is (o : option Q) (q : Q) : Prop :=
  match o with
  | Some v => (v == q)%Q
  | None => False
  end.

End Spec.

(* ===================================================================== *)
(** ** Concrete scenarios *)
(* ===================================================================== *)

Module Scenario.
Import PyStr Re Analyzer Remediation LLMClient.

(** Scenario A of the specification: one style line, the snippet without
    its semicolon, no line numbers. *)
Definition margin_css : string := "margin: 10px;".

Definition margin_issue : Issue :=
  mkIssue "LLM_001" "SPACING_001" "spacing" "medium" [] "margin: 10px"
          "Spacing is inconsistent with the design grid" "" None None "".

(** A line that occurs four times, and a snippet that is blank. *)
Definition repeated_css : string :=
  String "a" (String LF (String "a" (String LF (String "a" (String LF "a"))))).

Definition repeated_issue : Issue :=
  mkIssue "LLM_002" "" "" "medium" [] "a" "" "" None None "".

Definition empty_snippet_issue : Issue :=
  mkIssue "LLM_003" "" "" "medium" [] "" "" "" None None "".

Definition blank_snippet_issue : Issue :=
  mkIssue "LLM_004" "" "" "medium" [] " " "" "" None None "".

(** A snippet that occurs nowhere, with a claimed line beyond the text. *)
Definition absent_issue : Issue :=
  mkIssue "LLM_005" "" "" "medium" [500] "zzz" "" "" None None "".

(** A finding of a lenient principle with no claimed line and no
    snippet. *)
Definition contrast_issue : Issue :=
  mkIssue "LLM_006" "COLOR_003" "color" "critical" [] "" "" "" None None "".

(** The snippet of Scenario A followed by a space, claimed on line 1; and
    no snippet, claimed on line 1. *)
Definition spaced_issue : Issue :=
  mkIssue "LLM_009" "" "" "medium" [1] "margin: 10px; " "" "" None None "".

Definition bare_line_issue : Issue :=
  mkIssue "LLM_010" "" "" "medium" [1] "" "" "" None None "".

(** A principle named with its title, and no location. *)
Definition titled_contrast_issue : Issue :=
  mkIssue "LLM_011" "COLOR_003 - Color Contrast for Readability" "color"
          "critical" [] "" "" "" None None "".

(** A card style and a finding on it, in a session of one model and one
    file whose type has no static analysis. *)
Definition card_path : string := "ui/card.txt".
Definition card_original : string := "a {}".
Definition card_fixed : string := "a { box-shadow: none; border-radius: 4px }".

Definition card_issue : Issue :=
  mkIssue "LLM_007" "MODERN_001" "modern_patterns" "medium" [1] "a {}"
          "Flat card" "" None None "".

Definition unknown_issue : Issue :=
  mkIssue "LLM_008" "LAYOUT_009" "layout" "medium" [1] "a {}"
          "Flat card" "" None None "".

Definition card_session : Session :=
  mkSession [("gpt-4o", Some [mkFileResult card_path "card.txt" [card_issue]])]
            None.

Definition card_sessions : gmap string Session := {[ "s1" := card_session ]}.

Definition card_world : World := mkWorld {[ card_path := card_original ]} 0 [].

(** The gateway proposes the card fix; nothing fails, or only the backup
    does. *)
Definition card_env (backup_fault : bool) : Env :=
  mkEnv (fun _ _ _ _ => Ok (mkReply true [mkChange 1 card_original card_fixed]))
        (fun _ => []) (fun _ => []) (fun _ => []) (fun _ => [])
        (fun _ _ _ => Ok true)
        (fun _ => false) (fun _ => backup_fault)
        (fun file dest_dir => (dest_dir ++ "/" ++ path_name file ++ ".bak")%string)
        false (fun _ => false) (fun _ _ => false)
        (fun _ => None) (fun _ _ => None) (fun reading => reading).

(** The same gateway with a code processor that finds the fixed content
    syntactically invalid: the proposal scores 0.5. *)
Definition strict_env : Env :=
  mkEnv (call_model (card_env false))
        (fun _ => []) (fun _ => []) (fun _ => []) (fun _ => [])
        (fun _ _ _ => Ok false)
        (fun _ => false) (fun _ => false) (backup_name (card_env false))
        false (fun _ => false) (fun _ _ => false)
        (fun _ => None) (fun _ _ => None) (fun reading => reading).

Definition strict_proposal : GetResult * World :=
  get_enhanced_remediation strict_env card_world card_sessions
                           "s1" "LLM_007" "gpt-4o".

Definition strict_step : ApplyResult * World * gmap string Session :=
  apply_remediation strict_env card_world card_sessions
                    "s1" "LLM_007" "gpt-4o" false.

(** The card scenario, step by step: a proposal; an apply, a rollback and
    a second apply with another model. *)
Definition card_proposal : GetResult * World :=
  get_enhanced_remediation (card_env false) card_world card_sessions
                           "s1" "LLM_007" "gpt-4o".

Definition step1 : ApplyResult * World * gmap string Session :=
  apply_remediation (card_env false) card_world card_sessions
                    "s1" "LLM_007" "gpt-4o" false.

Definition step2 : RollbackResult * World * gmap string Session :=
  rollback_remediation (card_env false) (snd (fst step1)) (snd step1)
                       "s1" "LLM_007".

Definition step3 : ApplyResult * World * gmap string Session :=
  apply_remediation (card_env false) (snd (fst step2)) (snd step2)
                    "s1" "LLM_007" "claude-opus-4" false.

(** A reply of 501 characters without a brace. *)
Definition long_reply : string :=
  string_of_list_ascii (repeat "a"%char 501).

(** A key or a text between double quotes. *)
Definition quoted (text : string) : string :=
  String DQ (text ++ String DQ "")%string.

(** A reply that decodes, with a wrong shape:
    {"issues": "none", "total_issues": 3} *)
Definition misshapen_reply : string :=
  ("{" ++ quoted "issues" ++ ": " ++ quoted "none" ++ ", "
       ++ quoted "total_issues" ++ ": 3}")%string.

Definition misshapen_object : json :=
  JObj [("issues", JStr "none"); ("total_issues", JInt 3)].

(** The misshapen reply inside a code fence, with braces and prose around
    the fence; and prose inside a code fence, with prose around it. *)
Definition fenced_reply : string :=
  ("{ see " ++ json_fence ++ misshapen_reply ++ fence ++ " thanks }")%string.

Definition fenced_prose : string :=
  ("Here it is: " ++ json_fence ++ " nothing found " ++ fence ++ " Regards")%string.

(** A decoder that knows the misshapen reply and rejects everything
    else. *)
Definition sample_loads (text : string) : Exn json :=
  if String.eqb text misshapen_reply then Ok misshapen_object
  else Raise (mkExc "JSONDecodeError" "Expecting value").

End Scenario.

(* ===================================================================== *)
(** ** Concrete scenarios of the processing, the lifecycle and the detection *)
(* ===================================================================== *)

Module Examples.
Import PyStr Re Analyzer Remediation Pipeline LLMClient Detection Scenario.

(** A reply with the finding of Scenario A and the finding whose snippet
    stands nowhere, claimed beyond the text. *)
Definition margin_reply : LLMResult :=
  mkLLMResult false [margin_issue; absent_issue].

(** A paragraph whose class attribute is blank, and a finding on it. *)
Definition blank_class_html : string :=
  ("<p class=" ++ quoted " " ++ ">")%string.

Definition blank_class_reply : LLMResult :=
  mkLLMResult false
    [mkIssue "LLM_013" "" "" "medium" [1] "<p" "" "" None None ""].

(** A blank line followed by a rule. *)
Definition blank_then_rule : string := String LF "a {}".

(** The backup of the card file in the session of the card scenario. *)
Definition card_backup : string := "temp_sessions/s1/backups/card.txt.bak".

(** The environment of the card scenario on a full disk: every write and
    every copy raises right after its target was opened. *)
Definition torn_env : Env :=
  mkEnv (call_model (card_env false))
        (fun _ => []) (fun _ => []) (fun _ => []) (fun _ => [])
        (fun _ _ _ => Ok true)
        (fun _ => false) (fun _ => false) (backup_name (card_env false))
        false (fun _ => true) (fun _ _ => true)
        (fun _ => Some O) (fun _ _ => Some O) (wall_clock (card_env false)).

(** A proposal and an apply of the card fix, and a rollback of the applied
    card fix, on the full disk. *)
Definition torn_proposal : GetResult * World :=
  get_enhanced_remediation torn_env card_world card_sessions
                           "s1" "LLM_007" "gpt-4o".

Definition torn_apply : ApplyResult * World * gmap string Session :=
  apply_remediation torn_env card_world card_sessions
                    "s1" "LLM_007" "gpt-4o" false.

Definition torn_rollback : RollbackResult * World * gmap string Session :=
  rollback_remediation torn_env (snd (fst step1)) (snd step1) "s1" "LLM_007".

(** A change beyond the last line, and a change of the second line. *)
Definition stray_change : Change := mkChange 5 "" "b".
Definition second_line_change : Change := mkChange 2 "a" "b".

(** A gateway that answers a detection prompt with the finding on line 1
    and the finding that stands nowhere, and every chunk with a finding on
    its first line. *)
Definition first_line_issue : Issue :=
  mkIssue "LLM_012" "" "" "medium" [1] "a" "" "" None None "".

Definition sample_reply : Detection :=
  mkDetection None 2 [(spaced_issue, None); (absent_issue, None)].

Definition sample_gateway (prompt : Prompt) (model : string) : Exn Detection :=
  match prompt with
  | DetectionPrompt _ _ _ => Ok sample_reply
  | ChunkPrompt _ _ _ _ => Ok (mkDetection None 1 [(first_line_issue, None)])
  end.

(** A text of 150 lines. *)
Definition long_css : string := join_lines (repeat "a" 150).

End Examples.

(* ===================================================================== *)
(** ** Properties of the string and pattern functions *)
(* ===================================================================== *)

Module PrimitiveFacts.
Import PyStr Re.

(** More fuel than one per character changes nothing. *)
Lemma scan_fuel (icase : bool) (r : regex) (fuel1 fuel2 : nat)
      (p : option ascii) (t : list ascii) :
  (length t < fuel1)%nat -> (length t < fuel2)%nat ->
  scan fuel1 icase r p t = scan fuel2 icase r p t.
Proof.
  revert fuel2 p t. induction fuel1 as [|fuel1 IH]; intros fuel2 p t H1 H2; [lia|].
  destruct fuel2 as [|fuel2]; [lia|].
  cbn [scan].
  assert (Hstep : match t with
                  | [] => []
                  | a :: t' => scan fuel1 icase r (Some a) t'
                  end
                  = match t with
                    | [] => []
                    | a :: t' => scan fuel2 icase r (Some a) t'
                    end).
  { destruct t as [|a t']; [reflexivity|]. apply IH; simpl in *; lia. }
  rewrite Hstep.
  destruct (match_here icase r p t) as [st|]; [|reflexivity].
  destruct (length (rest st) <? length t)%nat eqn:E; [|reflexivity].
  apply Nat.ltb_lt in E. f_equal. apply IH; lia.
Qed.

Lemma delete_matches_fuel (icase : bool) (r : regex) (fuel1 fuel2 : nat)
      (p : option ascii) (t : list ascii) :
  (length t < fuel1)%nat -> (length t < fuel2)%nat ->
  delete_matches fuel1 icase r p t = delete_matches fuel2 icase r p t.
Proof.
  revert fuel2 p t. induction fuel1 as [|fuel1 IH]; intros fuel2 p t H1 H2; [lia|].
  destruct fuel2 as [|fuel2]; [lia|].
  cbn [delete_matches].
  assert (Hstep : match t with
                  | [] => []
                  | a :: t' => a :: delete_matches fuel1 icase r (Some a) t'
                  end
                  = match t with
                    | [] => []
                    | a :: t' => a :: delete_matches fuel2 icase r (Some a) t'
                    end).
  { destruct t as [|a t']; [reflexivity|]. f_equal. apply IH; simpl in *; lia. }
  rewrite Hstep.
  destruct (match_here icase r p t) as [st|]; [|reflexivity].
  destruct (length (rest st) <? length t)%nat eqn:E; [|reflexivity].
  apply Nat.ltb_lt in E. apply IH; lia.
Qed.

Lemma drop_length (n : nat) (text : string) :
  String.length (drop n text) = (String.length text - n)%nat.
Proof.
  revert text. induction n as [|n IH]; intros text.
  - simpl. lia.
  - destruct text as [|c text]; simpl; [reflexivity|]. apply IH.
Qed.

Lemma prefix_length (a b : string) :
  String.prefix a b = true -> (String.length a <= String.length b)%nat.
Proof.
  revert b. induction a as [|c a IH]; intros b H.
  - simpl. lia.
  - destruct b as [|c' b]; simpl in H; [discriminate|].
    destruct (ascii_dec c c'); [|discriminate].
    specialize (IH b H). simpl. lia.
Qed.

Lemma replace_aux_fuel (c : ascii) (old new : string) (fuel1 fuel2 : nat)
      (text : string) :
  (String.length text < fuel1)%nat -> (String.length text < fuel2)%nat ->
  replace_aux fuel1 (String c old) new text
  = replace_aux fuel2 (String c old) new text.
Proof.
  revert fuel2 text. induction fuel1 as [|fuel1 IH]; intros fuel2 text H1 H2; [lia|].
  destruct fuel2 as [|fuel2]; [lia|].
  cbn [replace_aux].
  destruct (String.prefix (String c old) text) eqn:E.
  - f_equal. apply prefix_length in E.
    apply IH; rewrite drop_length; simpl String.length in *; lia.
  - destruct text as [|a text]; [reflexivity|].
    f_equal. apply IH; simpl in *; lia.
Qed.

End PrimitiveFacts.

(* ===================================================================== *)
(** ** Properties of the analyzer *)
(* ===================================================================== *)

Module AnalyzerFacts.
Import PyStr Re Analyzer Spec Scenario.

(** *** Lists and lines *)

Lemma existsb_filter {A : Type} (p f : A -> bool) (l : list A) :
  existsb f (List.filter p l) = existsb (fun x => p x && f x) l.
Proof.
  induction l as [|x l IH]; simpl; [reflexivity|].
  destruct (p x); simpl; rewrite IH; reflexivity.
Qed.

Lemma count_positive {A : Type} (p : A -> bool) (l : list A) (n : nat) :
  (0 <? fold_left (fun (m : nat) x => if p x then S m else m) l n)%nat
  = ((0 <? n)%nat || existsb p l).
Proof.
  revert n; induction l as [|x l IH]; intros n; simpl.
  - rewrite orb_false_r; reflexivity.
  - rewrite IH. destruct (p x); simpl.
    + rewrite orb_true_r; reflexivity.
    + reflexivity.
Qed.

Lemma filter_length_le {A : Type} (p : A -> bool) (l : list A) :
  (length (List.filter p l) <= length l)%nat.
Proof.
  induction l as [|x l IH]; simpl; [lia|].
  destruct (p x); simpl; lia.
Qed.

Lemma split_lines_nonempty (text : string) : split_lines text <> [].
Proof.
  destruct text as [|c text]; simpl; [discriminate|].
  destruct (split_lines text); [discriminate|].
  destruct (Ascii.eqb c LF); discriminate.
Qed.

(** *** Fractions *)

Lemma nat_Q_nonneg (n : nat) : (0 <= nat_Q n)%Q.
Proof. unfold nat_Q, Qle; simpl; lia. Qed.

Lemma nat_Q_le (a b : nat) : (a <= b)%nat -> (nat_Q a <= nat_Q b)%Q.
Proof. intros H; unfold nat_Q, Qle; simpl; lia. Qed.

Lemma nat_Q_pos (n : nat) : (0 < n)%nat -> (0 < nat_Q n)%Q.
Proof. intros H; unfold nat_Q, Qlt; simpl; lia. Qed.

Lemma fraction_bounds (a b : nat) :
  (a <= b)%nat -> (0 <= nat_Q a / nat_Q b <= 1)%Q.
Proof.
  intros Hab. destruct b as [|b].
  - assert (a = O) by lia; subst a. split; vm_compute; discriminate.
  - assert (Hb : (0 < nat_Q (S b))%Q) by (apply nat_Q_pos; lia).
    split.
    + apply Qle_shift_div_l; [exact Hb|].
      rewrite Qmult_0_l. apply nat_Q_nonneg.
    + apply Qle_shift_div_r; [exact Hb|].
      rewrite Qmult_1_l. apply nat_Q_le; exact Hab.
Qed.

Lemma indicator_bounds (b : bool) : (0 <= indicator b <= 1)%Q.
Proof. destruct b; simpl; split; vm_compute; discriminate. Qed.

(** *** The validation score *)

(** C5, amended. For every issue and source text, the validation score is
    0.4 times the fraction of the claimed line numbers that are in range,
    plus 0.3 if the claimed snippet is not empty and, without the whitespace
    around it, appears verbatim on a resolved line, plus 0.2 if the
    principle id is a taxonomy key, plus 0.1 if the description is longer
    than 20 characters and holds a domain keyword; it lies within [0,1]. *)
Theorem validation_score_formula (issue : Issue) (code : string) :
  (_calculate_validation_score issue code
   == validation_score_of trimmed_snippet_appears issue code)%Q
  /\ (0 <= _calculate_validation_score issue code <= 1)%Q.
Proof.
  assert (Hf := fraction_bounds
                  (length (List.filter (in_range (split_lines code)) (line_numbers issue)))
                  (length (line_numbers issue))
                  (filter_length_le _ _)).
  unfold _calculate_validation_score, validation_score_of, in_range_fraction,
    trimmed_snippet_appears, known_principle, good_description in *.
  set (lines := split_lines code) in *.
  set (f := (nat_Q (length (List.filter (in_range lines) (line_numbers issue)))
             / nat_Q (length (line_numbers issue)))%Q) in *.
  rewrite <- existsb_filter.
  set (onl := existsb _ (List.filter (in_range lines) (line_numbers issue))).
  set (dq := ((20 <? String.length (description issue))%nat && _)).
  assert (Hp : (negb (String.eqb (principle_id issue) "")
                && str_in (principle_id issue) aesthetic_principles)
               = str_in (principle_id issue) aesthetic_principles).
  { destruct (String.eqb_spec (principle_id issue) "") as [E|E]; [rewrite E|]; reflexivity. }
  rewrite Hp. clear Hp.
  set (kp := str_in _ _).
  assert (Hs : forall x : Q,
     (match code_snippet issue, line_numbers issue with
      | String _ _, _ :: _ => if onl then (x + 0.3)%Q else x
      | _, _ => x
      end == x + 0.3 * indicator (negb (String.eqb (code_snippet issue) "") && onl))%Q).
  { intros x. subst onl. destruct (code_snippet issue) as [|c sn]; simpl.
    - lra.
    - destruct (line_numbers issue) as [|ln lns]; simpl.
      + lra.
      + match goal with |- context [if ?b then _ else _] => destruct b end; simpl; lra. }
  assert (Hl : (match line_numbers issue with
                | [] => 0
                | _ :: _ => 0 + 0.4 * f
                end == 0.4 * f)%Q).
  { subst f. destruct (line_numbers issue); [vm_compute; reflexivity | lra]. }
  match goal with
  | |- (Qmin ?sc 1 == ?rhs)%Q /\ _ =>
      assert (E : (sc == rhs)%Q)
  end.
  { destruct dq, kp; simpl; rewrite Hs, Hl; lra. }
  assert (Hi := indicator_bounds (negb (String.eqb (code_snippet issue) "") && onl)).
  match goal with
  | |- (Qmin ?sc 1 == ?rhs)%Q /\ _ =>
      assert (B : (0 <= sc <= 1)%Q)
  end.
  { rewrite E. destruct dq, kp; simpl; lra. }
  rewrite (Q.min_l _ _ (proj2 B)).
  split; [exact E | exact B].
Qed.

(** *** The validator *)

Lemma locate_snippet_same_keys (issue : Issue) (snippet : string) (lines : list string) :
  principle_id (locate_snippet issue snippet lines) = principle_id issue
  /\ category (locate_snippet issue snippet lines) = category issue.
Proof.
  unfold locate_snippet.
  destruct (line_numbers issue); [|split; reflexivity].
  destruct snippet; [split; reflexivity|].
  destruct (lines_where _ lines); split; reflexivity.
Qed.

Lemma line_matches_same_keys (i j : Issue) (snippet : string) (lines : list string) (ln : Z) :
  principle_id i = principle_id j -> category i = category j ->
  line_matches i snippet lines ln = line_matches j snippet lines ln.
Proof.
  intros Hp Hc. unfold line_matches, _semantic_match_code. rewrite Hp, Hc. reflexivity.
Qed.

(** C7, amended. When resolved line numbers exist, the validator accepts
    exactly when at least one of them is in range and its line matches under
    the exact, the fuzzy or the taxonomy-pattern strategy; when none could
    be resolved, it accepts exactly when the principle id contains the id of
    a principle of the lenient set. *)
Theorem validate_any_match (issue : Issue) (code : string) :
  let lines := split_lines code in
  let snippet := strip (code_snippet issue) in
  let resolved := line_numbers (locate_snippet issue snippet lines) in
  let accepted := fst (_validate_issue_existence issue code) in
  (resolved <> [] ->
     (accepted = true <->
      exists line_num, In line_num resolved
        /\ in_range lines line_num = true
        /\ (contains snippet (strip (line_at lines line_num)) = true
            \/ _fuzzy_match_code snippet (strip (line_at lines line_num)) = true
            \/ _semantic_match_code issue (strip (line_at lines line_num)) = true)))
  /\ (resolved = [] ->
      (accepted = true <->
       exists critical, In critical lenient_principles
                        /\ contains critical (principle_id issue) = true)).
Proof.
  intros lines snippet resolved accepted.
  destruct (locate_snippet_same_keys issue snippet lines) as [Hp Hc].
  assert (Hacc : accepted = match resolved with
                            | [] => is_lenient (principle_id issue)
                            | _ => existsb (line_matches issue snippet lines) resolved
                            end).
  { subst accepted resolved. unfold _validate_issue_existence.
    fold lines. fold snippet.
    destruct (line_numbers (locate_snippet issue snippet lines)) as [|ln lns] eqn:E.
    - simpl. rewrite Hp. reflexivity.
    - cbv zeta. cbn [fst].
      rewrite (count_positive (line_matches (locate_snippet issue snippet lines) snippet lines)
                              (ln :: lns) O).
      change (0 <? 0)%nat with false. cbn [orb].
      generalize (ln :: lns). intros l. induction l as [|x l IH]; simpl; [reflexivity|].
      rewrite IH. f_equal. apply line_matches_same_keys; assumption. }
  split.
  - intros Hne. rewrite Hacc. destruct resolved as [|ln lns]; [congruence|].
    rewrite existsb_exists. unfold line_matches.
    split.
    + intros (x & Hin & Hx). exists x. split; [exact Hin|].
      apply andb_true_iff in Hx. destruct Hx as [Hr Hm]. split; [exact Hr|].
      apply orb_true_iff in Hm. destruct Hm as [Hm|Hm]; [|right; right; exact Hm].
      apply orb_true_iff in Hm. destruct Hm as [Hm|Hm]; [left|right; left]; exact Hm.
    + intros (x & Hin & Hr & Hm). exists x. split; [exact Hin|].
      rewrite Hr. simpl.
      destruct Hm as [Hm|[Hm|Hm]]; rewrite Hm; rewrite ?orb_true_r; reflexivity.
  - intros He. rewrite Hacc, He. unfold is_lenient. apply existsb_exists.
Qed.

(** *** The line locator *)

Lemma enumerate_from_In (test : string -> bool) (lines : list string) (i n : Z) :
  In n (map fst (List.filter (fun il => test (snd il)) (enumerate_from i lines)))
  <-> i <= n < i + Z.of_nat (length lines)
      /\ test (nth (Z.to_nat (n - i)) lines "") = true.
Proof.
  revert i; induction lines as [|l ls IH]; intros i.
  - simpl. split; [tauto | lia].
  - cbn [enumerate_from List.filter snd length].
    assert (Hhere : nth (Z.to_nat (i - i)) (l :: ls) "" = l).
    { rewrite Z.sub_diag. reflexivity. }
    assert (Hnext : i + 1 <= n ->
              nth (Z.to_nat (n - i)) (l :: ls) "" = nth (Z.to_nat (n - (i + 1))) ls "").
    { intros H. replace (Z.to_nat (n - i)) with (S (Z.to_nat (n - (i + 1)))) by lia.
      reflexivity. }
    destruct (test l) eqn:T; cbn [map fst In]; rewrite ?IH.
    + split.
      * intros [E|[Hr Ht]].
        -- subst n. rewrite Hhere. split; [lia | exact T].
        -- rewrite Hnext by lia. split; [lia | exact Ht].
      * intros [Hr Ht]. destruct (Z.eq_dec n i) as [E|Hne]; [left; symmetry; exact E|].
        right. rewrite Hnext in Ht by lia. split; [lia | exact Ht].
    + split.
      * intros [Hr Ht]. rewrite Hnext by lia. split; [lia | exact Ht].
      * intros [Hr Ht]. destruct (Z.eq_dec n i) as [E|Hne].
        -- subst n. rewrite Hhere in Ht. congruence.
        -- rewrite Hnext in Ht by lia. split; [lia | exact Ht].
Qed.

Lemma lines_where_In (test : string -> bool) (lines : list string) (n : Z) :
  In n (lines_where test lines)
  <-> in_range lines n = true /\ test (line_at lines n) = true.
Proof.
  unfold lines_where, in_range, line_at. rewrite enumerate_from_In.
  rewrite andb_true_iff, !Z.leb_le. intuition lia.
Qed.

Lemma enumerate_from_sorted (test : string -> bool) (lines : list string) (i : Z) :
  StronglySorted Z.lt
    (map fst (List.filter (fun il => test (snd il)) (enumerate_from i lines))).
Proof.
  revert i; induction lines as [|l ls IH]; intros i; simpl.
  - constructor.
  - destruct (test l); simpl; [|apply IH].
    constructor; [apply IH|].
    apply List.Forall_forall. intros n Hn. apply enumerate_from_In in Hn. lia.
Qed.

Lemma lines_where_sorted (test : string -> bool) (lines : list string) :
  StronglySorted Z.lt (lines_where test lines).
Proof. apply enumerate_from_sorted. Qed.

Lemma improve_exact (issue : Issue) (code : string) (n : Z) (rest : list Z) :
  strip (code_snippet issue) <> "" ->
  lines_where (contains (strip (code_snippet issue))) (split_lines code) = n :: rest ->
  _improve_line_accuracy issue code = firstn 3 (n :: rest).
Proof.
  intros Hne Hex. unfold _improve_line_accuracy.
  destruct (strip (code_snippet issue)) as [|c sn] eqn:Es; [congruence|].
  rewrite Hex. reflexivity.
Qed.

(** C8, amended. When the trimmed snippet is not empty and appears verbatim
    in at least one line, the locator returns, by the exact substring
    strategy and whatever line numbers were claimed, the first three of the
    lines containing it, in ascending order: exactly those lines when there
    are at most three. *)
Theorem locator_exact_match (issue : Issue) (code : string) :
  let lines := split_lines code in
  let snippet := strip (code_snippet issue) in
  let containing := lines_where (contains snippet) lines in
  snippet <> "" ->
  (exists n, in_range lines n = true /\ contains snippet (line_at lines n) = true) ->
  _improve_line_accuracy issue code = firstn 3 containing
  /\ (forall n, In n containing
                <-> in_range lines n = true /\ contains snippet (line_at lines n) = true)
  /\ StronglySorted Z.lt containing
  /\ ((length containing <= 3)%nat -> _improve_line_accuracy issue code = containing).
Proof.
  intros lines snippet containing Hne (n & Hr & Hc).
  assert (Hin : In n containing) by (apply lines_where_In; split; assumption).
  assert (E : _improve_line_accuracy issue code = firstn 3 containing).
  { destruct containing as [|m rest] eqn:Ec; [destruct Hin|].
    apply improve_exact; assumption. }
  split; [exact E|].
  split; [intros m; apply lines_where_In|].
  split; [apply lines_where_sorted|].
  intros Hlen. rewrite E. apply firstn_all2. exact Hlen.
Qed.

(** C10, amended. A snippet that is empty after trimming returns the
    claimed line numbers as they are. For a snippet that is not, the
    returned list is never empty, and it is [1] when no exact, fuzzy or
    taxonomy-pattern strategy finds a line and no claimed line number is in
    range. *)
Theorem locator_fallback (issue : Issue) (code : string) :
  let lines := split_lines code in
  let snippet := strip (code_snippet issue) in
  (snippet = "" -> _improve_line_accuracy issue code = line_numbers issue)
  /\ (snippet <> "" ->
      (exists n rest, _improve_line_accuracy issue code = n :: rest)
      /\ (lines_where (contains snippet) lines = [] ->
          lines_where (_fuzzy_match_code snippet) lines = [] ->
          _find_related_elements issue code = [] ->
          List.filter (in_range lines) (line_numbers issue) = [] ->
          _improve_line_accuracy issue code = [1])).
Proof.
  intros lines snippet. subst lines snippet. unfold _improve_line_accuracy.
  destruct (strip (code_snippet issue)) as [|c sn] eqn:Es.
  - split; [reflexivity | congruence].
  - split; [discriminate|]. intros _.
    split.
    + destruct (lines_where (contains (String c sn)) (split_lines code)) as [|a l];
        [|simpl; eauto].
      destruct (lines_where (_fuzzy_match_code (String c sn)) (split_lines code)) as [|a l];
        [|simpl; eauto].
      destruct (_find_related_elements issue code) as [|a l]; [|simpl; eauto].
      destruct (map _ _); eauto.
    + intros -> -> -> ->. reflexivity.
Qed.

(** *** The properties at the scenarios *)

(** Scenario A: the validator accepts the located finding through its one
    resolved line. *)
Lemma validate_any_match_witness :
  fst (_validate_issue_existence margin_issue margin_css) = true
  /\ fst (_validate_issue_existence contrast_issue margin_css) = true.
Proof.
  destruct (validate_any_match margin_issue margin_css) as [Hsome _].
  destruct (validate_any_match contrast_issue margin_css) as [_ Hnone].
  split.
  - apply Hsome; [vm_compute; discriminate|].
    exists 1. split; [vm_compute; auto|]. split; [reflexivity|].
    left. vm_compute. reflexivity.
  - apply Hnone; [vm_compute; reflexivity|].
    exists "COLOR_003". split; [simpl; auto | vm_compute; reflexivity].
Defined.

(** A principle id that holds the id of a lenient principle is not a member
    of the lenient set, and is accepted without any location. *)
Lemma validate_accepts_titled_principle :
  line_numbers titled_contrast_issue = []
  /\ code_snippet titled_contrast_issue = ""
  /\ in_lenient_set (principle_id titled_contrast_issue) = false
  /\ fst (_validate_issue_existence titled_contrast_issue margin_css) = true.
Proof. vm_compute. auto 10. Qed.

(** The snippet followed by a space does not appear verbatim on line 1, and
    scores the 0.3 of the snippet term; no snippet, which is found in every
    line, does not. *)
Lemma validation_score_trims_snippet :
  snippet_appears_verbatim spaced_issue (split_lines margin_css) = false
  /\ (validation_score_of snippet_appears_verbatim spaced_issue margin_css == 0.4)%Q
  /\ (_calculate_validation_score spaced_issue margin_css == 0.7)%Q
  /\ snippet_appears_verbatim bare_line_issue (split_lines margin_css) = true
  /\ (validation_score_of snippet_appears_verbatim bare_line_issue margin_css == 0.7)%Q
  /\ (_calculate_validation_score bare_line_issue margin_css == 0.4)%Q.
Proof. vm_compute. auto 10. Qed.

(** Scenario A: the snippet without its semicolon resolves to line 1. *)
Lemma locator_exact_match_witness :
  strip (code_snippet margin_issue) <> ""
  /\ _improve_line_accuracy margin_issue margin_css = [1].
Proof.
  assert (Hne : strip (code_snippet margin_issue) <> "") by (vm_compute; discriminate).
  split; [exact Hne|].
  destruct (locator_exact_match margin_issue margin_css Hne) as (_ & _ & _ & Hall).
  - exists 1. split; vm_compute; reflexivity.
  - rewrite Hall; vm_compute; [reflexivity | lia].
Defined.

(** Four lines hold the snippet and three are returned; an empty snippet,
    which every line contains, resolves to no line. *)
Lemma locator_caps_exact_matches :
  lines_where (contains (strip (code_snippet repeated_issue)))
              (split_lines repeated_css) = [1; 2; 3; 4]
  /\ _improve_line_accuracy repeated_issue repeated_css = [1; 2; 3]
  /\ contains (strip (code_snippet empty_snippet_issue)) margin_css = true
  /\ _improve_line_accuracy empty_snippet_issue margin_css = [].
Proof. vm_compute. auto 10. Qed.

(** A snippet found nowhere, with the one claimed line out of range. *)
Lemma locator_fallback_witness :
  strip (code_snippet absent_issue) <> ""
  /\ _improve_line_accuracy absent_issue margin_css = [1]
  /\ _improve_line_accuracy empty_snippet_issue margin_css
     = line_numbers empty_snippet_issue.
Proof.
  assert (Hne : strip (code_snippet absent_issue) <> "") by (vm_compute; discriminate).
  split; [exact Hne|].
  destruct (locator_fallback absent_issue margin_css) as [_ Hfull].
  destruct (locator_fallback empty_snippet_issue margin_css) as [Hblank _].
  split.
  - apply (proj2 (Hfull Hne)); vm_compute; reflexivity.
  - apply Hblank. vm_compute. reflexivity.
Defined.

(** A snippet of one space is not empty, and the locator returns the empty
    list of claimed line numbers. *)
Lemma locator_blank_snippet_unresolved :
  String.eqb (code_snippet blank_snippet_issue) "" = false
  /\ line_numbers blank_snippet_issue = []
  /\ _improve_line_accuracy blank_snippet_issue margin_css = [].
Proof. vm_compute. auto 10. Qed.

(** The function on its own follows the formula, from the validation score
    the issue carries, 0.5 when it carries none. *)
Lemma fix_confidence_formula (issue : Issue) :
  (_calculate_fix_confidence issue
   == fix_confidence_spec (match validation_score issue with
                           | Some v => v
                           | None => 0.5
                           end) issue)%Q.
Proof.
  unfold _calculate_fix_confidence, fix_confidence_spec.
  apply Q.min_compat; [reflexivity|].
  destruct (String.eqb (severity issue) "critical");
    [|destruct (String.eqb (severity issue) "high")];
    destruct (String.eqb (source issue) "static_analysis");
    destruct ((10 <? String.length (code_snippet issue))%nat && _);
    lra.
Qed.

(** Whatever its validation score turns out to be, a finding that arrives
    without one gets the fix confidence of the default 0.5. *)
Lemma enhance_confidence_default (issue : Issue) (code : string) :
  validation_score issue = None ->
  let enhanced := _enhance_issue issue code in
  score_is (fix_confidence enhanced) (fix_confidence_spec 0.5 enhanced).
Proof.
  intros Hnone. unfold _enhance_issue.
  destruct (_improve_line_accuracy issue code) as [|ln lns];
    cbn -[_calculate_fix_confidence _calculate_validation_score
          fix_confidence_spec _extract_precise_code_snippet].
  all: unfold score_is; cbn [fix_confidence set_validation_score set_fix_confidence].
  all: etransitivity; [apply fix_confidence_formula|].
  all: cbn [validation_score set_line_numbers set_code_snippet]; rewrite Hnone; reflexivity.
Qed.

(** C6. On Scenario A, [_enhance_issue] gives the finding the validation
    score 1 and the fix confidence 0.35, which is 0.7 times the default
    0.5: the confidence is computed before the validation score is set.
    The formula of the claim gives 0.7. *)
Theorem enhance_scores_confidence_first :
  let enhanced := _enhance_issue margin_issue margin_css in
  score_is (validation_score enhanced) 1
  /\ score_is (fix_confidence enhanced) 0.35
  /\ (fix_confidence_spec 1 enhanced == 0.7)%Q.
Proof. vm_compute. auto 10. Qed.

End AnalyzerFacts.

(* ===================================================================== *)
(** ** Properties of the remediation service *)
(* ===================================================================== *)

Module RemediationFacts.
Import PyStr Re Analyzer Remediation Spec Scenario.

(** *** What a proposal leaves behind *)

Lemma create_backup_effect (env : Env) (w : World) (file dest : string)
      (out : Exn string) (w1 : World) :
  create_backup env w file dest = (out, w1) ->
  clock w1 = clock w
  /\ fs w1 !! file = fs w !! file
  /\ io_log w1 = io_log w ++ [EvSnapshot file (match out with Ok p => Some p | Raise _ => None end)].
Proof.
  unfold create_backup. intros H.
  destruct (if backup_fails env file then None else fs w !! file) as [content|] eqn:E.
  - inversion H; subst; clear H. simpl. split; [reflexivity|]. split; [|reflexivity].
    destruct (backup_fails env file); [discriminate|].
    destruct (decide (backup_name env file dest = file)) as [Heq|Hne].
    + rewrite Heq, lookup_insert_eq. symmetry; exact E.
    + rewrite lookup_insert_ne by exact Hne. reflexivity.
  - inversion H; subst; clear H. simpl. auto.
Qed.

Lemma get_proposed (env : Env) (w : World) (ss : gmap string Session)
      (sid iid model : string) (r : RemediationResult) (w1 : World) :
  get_enhanced_remediation env w ss sid iid model = (Proposed r, w1) ->
  exists path,
    issue_file ss sid iid = Some path
    /\ clock w1 = clock w
    /\ fs w1 !! path = fs w !! path
    /\ io_log w1 = io_log w ++ [EvSnapshot path (backup_path r)].
Proof.
  unfold get_enhanced_remediation, issue_file. intros H.
  destruct (ss !! sid) as [session|]; [|discriminate].
  destruct (_find_issue_in_session session iid) as [details|]; [|discriminate].
  exists (file_path details). split; [reflexivity|].
  destruct (String.eqb (file_path details) ""); [discriminate|].
  destruct (negb (path_exists w (file_path details))); [discriminate|].
  destruct (read_file_content env w (file_path details)) as [content|e]; [|discriminate].
  destruct content as [|c content]; [discriminate|].
  destruct (call_model env details (String c content) (file_path details) model)
    as [reply|e]; [|discriminate].
  destruct (reply_success reply); [|discriminate].
  destruct (reply_changes reply) as [|ch chs]; [discriminate|].
  destruct (create_backup env w (file_path details) (backup_dir sid)) as [out w2] eqn:B.
  apply create_backup_effect in B. destruct B as (Hc & Hf & Hl).
  destruct out as [backup|e].
  - destruct (diff_fails env); inversion H; subst; clear H; simpl; auto.
  - inversion H; subst; clear H; simpl; auto.
Qed.

Lemma below_threshold_spec (q : Q) :
  below_threshold q = false <-> (0.7 <= q)%Q.
Proof.
  unfold below_threshold. rewrite negb_false_iff. apply Qle_bool_iff.
Qed.

Lemma app_singleton_not_self {A : Type} (l : list A) (x : A) : l <> l ++ [x].
Proof.
  intros H. apply (f_equal (@length A)) in H. rewrite length_app in H. simpl in H. lia.
Qed.

(** C3. For every successful remediation attempt, [apply_remediation]
    issues the write of the candidate content to the file of the issue if
    and only if the quality score is at least 0.7 or the caller forces it.
    When that holds and the write goes through, the file holds the
    candidate content and the result reports the application. When the score
    is below 0.7 and nothing is forced, the file, the world and the sessions
    are untouched and the candidate is returned with its score and the
    suggestion to review it or to try a different model. *)
Theorem apply_gated_by_quality (env : Env) (w : World) (ss : gmap string Session)
        (sid iid model : string) (force : bool)
        (r : RemediationResult) (w1 : World)
        (res : ApplyResult) (w' : World) (ss' : gmap string Session) :
  get_enhanced_remediation env w ss sid iid model = (Proposed r, w1) ->
  apply_remediation env w ss sid iid model force = (res, w', ss') ->
  exists path,
    issue_file ss sid iid = Some path
    /\ ((exists done, io_log w' = io_log w1 ++ [EvWrite path (fixed_code r) done])
        <-> ((0.7 <= quality_score r)%Q \/ force = true))
    /\ ((0.7 <= quality_score r)%Q \/ force = true ->
        write_fails env path = false ->
        fs w' !! path = Some (fixed_code r)
        /\ res = Applied iid model (quality_score r) (length (changes r)) (backup_path r))
    /\ (~ (0.7 <= quality_score r)%Q -> force = false ->
        res = BelowThreshold (quality_score r) suggestion_text r
        /\ w' = w1 /\ ss' = ss
        /\ fs w' !! path = fs w !! path).
Proof.
  intros Hget Happly.
  destruct (get_proposed _ _ _ _ _ _ _ _ Hget) as (path & Hfile & Hclock & Hfs & Hlog).
  exists path. split; [exact Hfile|].
  unfold apply_remediation in Happly. rewrite Hget in Happly.
  unfold issue_file in Hfile.
  destruct (ss !! sid) as [session|] eqn:Hs; [|discriminate].
  destruct (_find_issue_in_session session iid) as [details|] eqn:Hd; [|discriminate].
  injection Hfile as Hpath. rewrite Hpath in Happly.
  assert (Hcond : below_threshold (quality_score r) && negb force = false
                  <-> ((0.7 <= quality_score r)%Q \/ force = true)).
  { rewrite andb_false_iff, below_threshold_spec, negb_false_iff. reflexivity. }
  destruct (below_threshold (quality_score r) && negb force) eqn:G.
  - (* below the threshold and not forced *)
    injection Happly as <- <- <-.
    assert (Hclosed : ~ ((0.7 <= quality_score r)%Q \/ force = true)).
    { intros H. apply Hcond in H. discriminate. }
    split; [|split].
    + split; [|tauto]. intros [done H]. exfalso. exact (app_singleton_not_self _ _ H).
    + tauto.
    + intros _ _. auto.
  - (* at least 0.7, or forced *)
    assert (Hopen : (0.7 <= quality_score r)%Q \/ force = true) by (apply Hcond; reflexivity).
    unfold write_file in Happly.
    destruct (write_fails env path) eqn:Hw.
    + injection Happly as <- <- <-. simpl.
      split; [|split].
      * split; [tauto|]. intros _. eauto.
      * intros _ Hno. discriminate.
      * intros Hnot Hf. destruct Hopen as [H|H]; [tauto|congruence].
    + simpl in Happly. injection Happly as <- <- <-. simpl.
      split; [|split].
      * split; [tauto|]. intros _. eauto.
      * intros _ _. rewrite lookup_insert_eq. auto.
      * intros Hnot Hf. destruct Hopen as [H|H]; [tauto|congruence].
Qed.

(** The resolution check never returns the fraction of the patterns: its
    confidence is 0.5 or 0.1. *)
Lemma resolution_confidence_values (original fixed : string) (issue : Issue)
      (r : Resolution) :
  _check_issue_resolution original fixed issue = Ok r ->
  confidence r = 0.5%Q \/ confidence r = 0.1%Q.
Proof.
  unfold _check_issue_resolution.
  destruct (match dict_get (principle_id issue) resolution_patterns with
            | Some patterns => Some patterns
            | None => _
            end) as [patterns|].
  - intros H. injection H as <-. cbn [confidence].
    match goal with
    | |- context [match ?found with [] => _ | _ :: _ => _ end] => destruct found
    end; auto.
  - simpl. discriminate.
Qed.

(** Every apply that goes through wrote right after the snapshot attempt of
    its proposal, whatever the outcome of that attempt. *)
Lemma apply_follows_snapshot_attempt (env : Env) (w : World)
      (ss : gmap string Session) (sid iid model : string) (force : bool)
      (res : ApplyResult) (w' : World) (ss' : gmap string Session) :
  apply_remediation env w ss sid iid model force = (res, w', ss') ->
  is_applied res = true ->
  exists path content backup,
    issue_file ss sid iid = Some path
    /\ io_log w' = io_log w ++ [EvSnapshot path backup; EvWrite path content true].
Proof.
  intros Happly Happ. unfold apply_remediation in Happly.
  destruct (get_enhanced_remediation env w ss sid iid model) as [[stage error|r] w1] eqn:Hget.
  { injection Happly as <- <- <-. discriminate. }
  destruct (get_proposed _ _ _ _ _ _ _ _ Hget) as (path & Hfile & _ & _ & Hlog).
  exists path, (fixed_code r), (backup_path r). split; [exact Hfile|].
  unfold issue_file in Hfile.
  destruct (below_threshold (quality_score r) && negb force).
  { injection Happly as <- <- <-. discriminate. }
  destruct (ss !! sid) as [session|]; [|discriminate].
  destruct (_find_issue_in_session session iid) as [details|]; [|discriminate].
  injection Hfile as Hpath. rewrite Hpath in Happly.
  unfold write_file in Happly.
  destruct (write_fails env path).
  { injection Happly as <- <- <-. discriminate. }
  simpl in Happly. injection Happly as <- <- <-. simpl.
  rewrite Hlog, <- app_assoc. reflexivity.
Qed.

(** *** The remediation records *)

Lemma create_backup_clock (env : Env) (w : World) (file dest : string) :
  clock (snd (create_backup env w file dest)) = clock w.
Proof.
  unfold create_backup.
  destruct (if backup_fails env file then None else fs w !! file); reflexivity.
Qed.

Lemma get_clock (env : Env) (w : World) (ss : gmap string Session)
      (sid iid model : string) :
  clock (snd (get_enhanced_remediation env w ss sid iid model)) = clock w.
Proof.
  unfold get_enhanced_remediation.
  destruct (ss !! sid) as [session|]; [|reflexivity].
  destruct (_find_issue_in_session session iid) as [details|]; [|reflexivity].
  destruct (String.eqb (file_path details) ""); [reflexivity|].
  destruct (negb (path_exists w (file_path details))); [reflexivity|].
  destruct (read_file_content env w (file_path details)) as [content|e]; [|reflexivity].
  destruct content as [|c content]; [reflexivity|].
  destruct (call_model env details (String c content) (file_path details) model)
    as [reply|e]; [|reflexivity].
  destruct (reply_success reply); [|reflexivity].
  destruct (reply_changes reply) as [|ch chs]; [reflexivity|].
  pose proof (create_backup_clock env w (file_path details) (backup_dir sid)) as B.
  destruct (create_backup env w (file_path details) (backup_dir sid)) as [out w2].
  simpl in B. destruct out as [backup|e]; [destruct (diff_fails env)|]; exact B.
Qed.

Lemma store_of_insert (ss : gmap string Session) (sid : string)
      (results : list (string * option (list FileResult)))
      (store : gmap string RemediationRecord) :
  store_of (<[sid := mkSession results (Some store)]> ss) sid = store.
Proof. unfold store_of. rewrite lookup_insert_eq. reflexivity. Qed.

Lemma apply_applied (env : Env) (w : World) (ss : gmap string Session)
      (sid iid model : string) (force : bool)
      (res : ApplyResult) (w' : World) (ss' : gmap string Session) :
  apply_remediation env w ss sid iid model force = (res, w', ss') ->
  is_applied res = true ->
  exists r,
    store_of ss' sid
    = <[iid := mkRecord model r (wall_clock env (clock w)) true
                        (quality_score r) false None]>
        (store_of ss sid)
    /\ clock w' = S (clock w).
Proof.
  unfold apply_remediation. intros H Happ.
  pose proof (get_clock env w ss sid iid model) as Hc.
  destruct (get_enhanced_remediation env w ss sid iid model) as [[stage error|r] w1].
  { injection H as <- <- <-. discriminate. }
  simpl in Hc.
  destruct (below_threshold (quality_score r) && negb force).
  { injection H as <- <- <-. discriminate. }
  unfold store_of at 2.
  destruct (ss !! sid) as [session|] eqn:Hs.
  2: { injection H as <- <- <-. discriminate. }
  destruct (_find_issue_in_session session iid) as [details|].
  2: { injection H as <- <- <-. discriminate. }
  unfold write_file in H.
  destruct (write_fails env (file_path details)).
  { injection H as <- <- <-. discriminate. }
  simpl in H. injection H as <- <- <-.
  exists r. rewrite store_of_insert. simpl. rewrite Hc. auto.
Qed.

Lemma rollback_done (env : Env) (w : World) (ss : gmap string Session)
      (sid iid : string)
      (res : RollbackResult) (w' : World) (ss' : gmap string Session) :
  rollback_remediation env w ss sid iid = (res, w', ss') ->
  is_rolled_back res = true ->
  exists record,
    store_of ss sid !! iid = Some record
    /\ store_of ss' sid
       = <[iid := mark_rolled_back (wall_clock env (clock w)) record]> (store_of ss sid)
    /\ clock w' = S (clock w).
Proof.
  unfold rollback_remediation, store_of. intros H Hdone.
  destruct (ss !! sid) as [session|] eqn:Hs.
  2: { injection H as <- <- <-. discriminate. }
  destruct (remediations session) as [store|] eqn:Hr.
  2: { injection H as <- <- <-. discriminate. }
  destruct (store !! iid) as [record|] eqn:Hrec.
  2: { injection H as <- <- <-. discriminate. }
  destruct (negb (path_exists w _)).
  { injection H as <- <- <-. discriminate. }
  destruct (_find_issue_in_session session iid) as [details|].
  2: { injection H as <- <- <-. discriminate. }
  unfold copy2 in H.
  destruct (fs w !! _) as [content|].
  2: { injection H as <- <- <-. discriminate. }
  destruct (String.eqb _ _).
  { injection H as <- <- <-. discriminate. }
  destruct (copy_fails env _ _).
  { injection H as <- <- <-. discriminate. }
  simpl in H. injection H as <- <- <-.
  exists record. rewrite lookup_insert_eq. simpl. auto.
Qed.

(** C1, amended. After an apply and a rollback for an issue id, the
    rollback has marked the record of the issue as rolled back, stamped
    with the wall clock it read, and kept it; a subsequent apply for the
    same id stores a fresh record (applied, not rolled back, of the new
    model, stamped with the wall clock that apply read) under the id, in
    the place of the marked one. The store keeps one record per issue id,
    and the records of the other issues are those of the start. *)
Theorem reapply_replaces_record
        (env1 env2 env3 : Env) (w0 w1 w2 w3 : World)
        (ss0 ss1 ss2 ss3 : gmap string Session)
        (sid iid model1 model3 : string) (force1 force3 : bool)
        (applied1 applied3 : ApplyResult) (undone : RollbackResult) :
  apply_remediation env1 w0 ss0 sid iid model1 force1 = (applied1, w1, ss1) ->
  is_applied applied1 = true ->
  rollback_remediation env2 w1 ss1 sid iid = (undone, w2, ss2) ->
  is_rolled_back undone = true ->
  apply_remediation env3 w2 ss2 sid iid model3 force3 = (applied3, w3, ss3) ->
  is_applied applied3 = true ->
  exists first fresh : RemediationRecord,
    store_of ss1 sid !! iid = Some first
    /\ rec_rolled_back first = false
    /\ store_of ss2 sid !! iid
       = Some (mark_rolled_back (wall_clock env2 (clock w1)) first)
    /\ store_of ss3 sid !! iid = Some fresh
    /\ rec_applied fresh = true
    /\ rec_rolled_back fresh = false
    /\ rec_model fresh = model3
    /\ rec_timestamp first = wall_clock env1 (clock w0)
    /\ rec_timestamp fresh = wall_clock env3 (clock w2)
    /\ dom (store_of ss3 sid) = dom (store_of ss1 sid)
    /\ (forall other, other <> iid ->
                      store_of ss3 sid !! other = store_of ss0 sid !! other).
Proof.
  intros A1 HA1 R2 HR2 A3 HA3.
  destruct (apply_applied _ _ _ _ _ _ _ _ _ _ A1 HA1) as (r1 & S1 & C1).
  destruct (rollback_done _ _ _ _ _ _ _ _ R2 HR2) as (record & L1 & S2 & C2).
  destruct (apply_applied _ _ _ _ _ _ _ _ _ _ A3 HA3) as (r3 & S3 & C3).
  rewrite S1, lookup_insert_eq in L1. injection L1 as <-.
  eexists. eexists.
  split; [rewrite S1; apply lookup_insert_eq|].
  split; [reflexivity|].
  split; [rewrite S2; apply lookup_insert_eq|].
  split; [rewrite S3; apply lookup_insert_eq|].
  split; [reflexivity|].
  split; [reflexivity|].
  split; [reflexivity|].
  split; [reflexivity|].
  split; [reflexivity|].
  split.
  - rewrite S3, S2, S1. rewrite !insert_insert_eq. rewrite !dom_insert_L. reflexivity.
  - intros other Hne. rewrite S3, S2, S1.
    rewrite !lookup_insert_ne by congruence. reflexivity.
Qed.

(** *** The properties at the card scenario *)

Lemma pair3_eta {A B C : Type} (x : A * B * C) : x = (fst (fst x), snd (fst x), snd x).
Proof. destruct x as [[a b] c]. reflexivity. Qed.

(** The card fix scores 0.8 and is written without being forced; found
    syntactically invalid it scores 0.5 and is handed back, the file
    untouched. *)
Lemma apply_gated_by_quality_witness :
  (fs (snd (fst step1)) !! card_path = Some card_fixed
   /\ is_applied (fst (fst step1)) = true)
  /\ (fs (snd (fst strict_step)) !! card_path = Some card_original
      /\ exists score preview,
          fst (fst strict_step) = BelowThreshold score suggestion_text preview
          /\ (score == 0.5)%Q
          /\ fixed_code preview = card_fixed).
Proof.
  split.
  - assert (Hget : card_proposal
                   = (Proposed (mkResult [mkChange 1 card_original card_fixed]
                                         card_fixed true
                                         (snd (_validate_remediation (card_env false)
                                                 card_original card_fixed
                                                 (set_file_path card_path card_issue)
                                                 card_path))
                                         (Some "temp_sessions/s1/backups/card.txt.bak")
                                         None),
                      snd card_proposal)).
    { vm_compute. reflexivity. }
    destruct (apply_gated_by_quality _ _ _ _ _ _ false _ _ _ _ _ Hget (pair3_eta step1))
      as (path & Hpath & _ & Hopen & _).
    assert (path = card_path) as ->
        by (vm_compute in Hpath; injection Hpath as <-; reflexivity).
    destruct Hopen as [Hfile Hres].
    + left. vm_compute. discriminate.
    + reflexivity.
    + split; [exact Hfile|]. rewrite Hres. reflexivity.
  - assert (Hget : strict_proposal
                   = (Proposed (mkResult [mkChange 1 card_original card_fixed]
                                         card_fixed false
                                         (snd (_validate_remediation strict_env
                                                 card_original card_fixed
                                                 (set_file_path card_path card_issue)
                                                 card_path))
                                         (Some "temp_sessions/s1/backups/card.txt.bak")
                                         None),
                      snd strict_proposal)).
    { vm_compute. reflexivity. }
    destruct (apply_gated_by_quality _ _ _ _ _ _ false _ _ _ _ _ Hget
                                     (pair3_eta strict_step))
      as (path & Hpath & _ & _ & Hclosed).
    assert (path = card_path) as ->
        by (vm_compute in Hpath; injection Hpath as <-; reflexivity).
    destruct Hclosed as (Hres & _ & _ & Hfile).
    + vm_compute. intros H. apply H. reflexivity.
    + reflexivity.
    + split.
      * rewrite Hfile. vm_compute. reflexivity.
      * eexists. eexists. split; [exact Hres|].
        split; [vm_compute; reflexivity | reflexivity].
Defined.

(** The card fix applied by one model, rolled back, and applied by
    another. *)
Lemma reapply_replaces_record_witness :
  exists first fresh : RemediationRecord,
    store_of (snd step1) "s1" !! "LLM_007" = Some first
    /\ store_of (snd step3) "s1" !! "LLM_007" = Some fresh
    /\ rec_model first = "gpt-4o" /\ rec_model fresh = "claude-opus-4"
    /\ rec_rolled_back fresh = false.
Proof.
  destruct (reapply_replaces_record
              (card_env false) (card_env false) (card_env false)
              card_world (snd (fst step1)) (snd (fst step2)) (snd (fst step3))
              card_sessions (snd step1) (snd step2) (snd step3)
              "s1" "LLM_007" "gpt-4o" "claude-opus-4" false false
              (fst (fst step1)) (fst (fst step3)) (fst (fst step2)))
    as (first & fresh & H1 & _ & _ & H3 & _ & Hlive & Hmodel & _).
  - apply pair3_eta.
  - vm_compute. reflexivity.
  - apply pair3_eta.
  - vm_compute. reflexivity.
  - apply pair3_eta.
  - vm_compute. reflexivity.
  - exists first, fresh.
    split; [exact H1|]. split; [exact H3|].
    split; [|auto].
    vm_compute in H1. injection H1 as <-. reflexivity.
Defined.

(** After the rollback the store holds the record of the issue, marked; after
    the second apply it holds one record, which is not marked and is of the
    second model: the marked record is no longer in the session. *)
Lemma reapply_drops_rolled_back_record :
  option_map rec_rolled_back (store_of (snd step2) "s1" !! "LLM_007") = Some true
  /\ option_map rec_model (store_of (snd step2) "s1" !! "LLM_007") = Some "gpt-4o"
  /\ option_map rec_rolled_back (store_of (snd step3) "s1" !! "LLM_007") = Some false
  /\ option_map rec_model (store_of (snd step3) "s1" !! "LLM_007") = Some "claude-opus-4"
  /\ size (store_of (snd step3) "s1") = 1%nat.
Proof. vm_compute. auto 10. Qed.

(** C2. When the backup of the card file fails, the proposal still scores
    0.8 and [apply_remediation] overwrites the file: the log holds the
    failed snapshot followed by the write, and breaks the invariant that a
    completed snapshot precedes every write. *)
Theorem apply_writes_after_failed_snapshot :
  let out := apply_remediation (card_env true) card_world card_sessions
                               "s1" "LLM_007" "gpt-4o" false in
  is_applied (fst (fst out)) = true
  /\ io_log (snd (fst out))
     = [EvSnapshot card_path None; EvWrite card_path card_fixed true]
  /\ fs (snd (fst out)) !! card_path = Some card_fixed
  /\ snapshot_before_write card_path false (io_log (snd (fst out))) = false.
Proof. vm_compute. auto 10. Qed.

(** C4. On the card fix both resolution patterns of MODERN_001 are new in
    the fixed content, so the formula of the claim gives 1; the code takes
    the confidence 0.5 of the general check and scores 0.8. For a finding
    whose principle and category have no patterns the check divides by
    zero and the score stays 0. *)
Theorem quality_uses_general_check :
  (snd (_validate_remediation (card_env false) card_original card_fixed
                              card_issue card_path) == 0.8)%Q
  /\ (quality_score_spec true card_issue card_original card_fixed 0 == 1)%Q
  /\ _check_issue_resolution card_original card_fixed unknown_issue
     = Raise (mkExc "ZeroDivisionError" "division by zero")
  /\ (snd (_validate_remediation (card_env false) card_original card_fixed
                                 unknown_issue card_path) == 0)%Q.
Proof. vm_compute. auto 10. Qed.

End RemediationFacts.

(* ===================================================================== *)
(** ** Properties of the response parser *)
(* ===================================================================== *)

Module ParserFacts.
Import PyStr Re LLMClient Braces Scenario.

(** *** The brace search *)

Lemma prefix_one (c a : ascii) (text : string) :
  String.prefix (String c EmptyString) (String a text) = Ascii.eqb c a.
Proof.
  simpl. destruct (ascii_dec c a) as [->|Hne].
  - rewrite Ascii.eqb_refl. destruct text; reflexivity.
  - symmetry. apply Ascii.eqb_neq. exact Hne.
Qed.

Lemma rfind_close (text : string) :
  match rfind "}" text with
  | Some j => upto_last_close text = Some (take (S j) text)
  | None => upto_last_close text = None
  end.
Proof.
  induction text as [|a text IH].
  - reflexivity.
  - cbn [rfind upto_last_close]. rewrite prefix_one.
    destruct (rfind "}" text) as [j|].
    + rewrite IH. reflexivity.
    + rewrite IH. rewrite (Ascii.eqb_sym "}" a).
      destruct (Ascii.eqb a "}"); reflexivity.
Qed.

Lemma json_candidate_braced (text : string) : json_candidate text = braced text.
Proof.
  induction text as [|a text IH].
  - reflexivity.
  - unfold json_candidate in *. cbn [find rfind braced]. rewrite !prefix_one.
    rewrite (Ascii.eqb_sym "{" a), (Ascii.eqb_sym "}" a).
    pose proof (rfind_close text) as Hc.
    destruct (Ascii.eqb a "{") eqn:Ea.
    + apply Ascii.eqb_eq in Ea. subst a.
      destruct (rfind "}" text) as [j|].
      * rewrite Hc. reflexivity.
      * rewrite Hc. reflexivity.
    + rewrite <- IH.
      destruct (find "{" text) as [i|]; [|reflexivity].
      destruct (rfind "}" text) as [j|].
      * cbn [option_map]. unfold slice.
        change (S i <? S j)%nat with (i <? j)%nat.
        destruct (i <? j)%nat; [|reflexivity].
        reflexivity.
      * cbn [option_map]. destruct (Ascii.eqb a "}"); reflexivity.
Qed.

Lemma star_any_close (t : list ascii) (p : option ascii) (c : list string) :
  rmatch false (Star any_char) (MState p t c) close_then_done
  = match after_last_close t with
    | Some r => Some (MState (Some "}"%char) r c)
    | None => None
    end.
Proof.
  revert p c. induction t as [|a t IH]; intros p c.
  - reflexivity.
  - transitivity
      (match (if (length t <? S (length t))%nat
              then rmatch false (Star any_char) (MState (Some a) t c) close_then_done
              else None) with
       | Some x => Some x
       | None => close_then_done (MState p (a :: t) c)
       end); [reflexivity|].
    replace (length t <? S (length t))%nat with true
      by (symmetry; apply Nat.ltb_lt; lia).
    rewrite IH. cbn [after_last_close].
    destruct (after_last_close t) as [r|]; [reflexivity|].
    unfold close_then_done. cbn [rmatch rest lit_ok advance caps].
    destruct (Ascii.eqb "}" a) eqn:E; [|reflexivity].
    apply Ascii.eqb_eq in E. subst a. reflexivity.
Qed.

Lemma match_here_braces (p : option ascii) (t : list ascii) :
  match_here false braces_pattern p t
  = match t with
    | a :: t' =>
        if Ascii.eqb "{" a
        then match after_last_close t' with
             | Some r => Some (MState (Some "}"%char) r [])
             | None => None
             end
        else None
    | [] => None
    end.
Proof.
  destruct t as [|a t']; [reflexivity|].
  transitivity (if Ascii.eqb "{" a
                then rmatch false (Star any_char) (MState (Some a) t' []) close_then_done
                else None); [reflexivity|].
  rewrite star_any_close. reflexivity.
Qed.

Lemma after_last_close_shorter (t r : list ascii) :
  after_last_close t = Some r -> (length r < length t)%nat.
Proof.
  revert r. induction t as [|a t IH]; intros r; cbn [after_last_close].
  - discriminate.
  - destruct (after_last_close t) as [r'|].
    + intros H. injection H as <-. specialize (IH r' eq_refl). simpl. lia.
    + destruct (Ascii.eqb "}" a); [|discriminate].
      intros H. injection H as <-. simpl. lia.
Qed.

Lemma search_without_close (p : option ascii) (t : list ascii) :
  after_last_close t = None -> search_from false braces_pattern p t = None.
Proof.
  revert p. induction t as [|a t IH]; intros p Hnone.
  - reflexivity.
  - cbn [after_last_close] in Hnone.
    destruct (after_last_close t) as [r|] eqn:E; [discriminate|].
    cbn [search_from]. rewrite match_here_braces, E.
    destruct (Ascii.eqb "{" a); apply IH; reflexivity.
Qed.

Lemma upto_last_close_list (text : string) :
  match after_last_close (list_ascii_of_string text) with
  | Some r =>
      upto_last_close text
      = Some (string_of_list_ascii
                (firstn (length (list_ascii_of_string text) - length r)
                        (list_ascii_of_string text)))
  | None => upto_last_close text = None
  end.
Proof.
  induction text as [|a text IH].
  - reflexivity.
  - cbn [list_ascii_of_string after_last_close upto_last_close].
    destruct (after_last_close (list_ascii_of_string text)) as [r|] eqn:E.
    + rewrite IH. apply after_last_close_shorter in E.
      replace (length (a :: list_ascii_of_string text) - length r)%nat
        with (S (length (list_ascii_of_string text) - length r)) by (simpl; lia).
      reflexivity.
    + rewrite IH. rewrite (Ascii.eqb_sym a "}").
      destruct (Ascii.eqb "}" a); [|reflexivity].
      replace (length (a :: list_ascii_of_string text)
               - length (list_ascii_of_string text))%nat with 1%nat by (simpl; lia).
      reflexivity.
Qed.

Lemma search_from_braced (p q : option ascii) (text : string) :
  match search_from false braces_pattern p (list_ascii_of_string text) with
  | Some (t, st) => Some (consumed (MState q t []) st)
  | None => None
  end = braced text.
Proof.
  revert p. induction text as [|a text IH]; intros p.
  - reflexivity.
  - cbn [list_ascii_of_string search_from braced]. rewrite match_here_braces.
    rewrite (Ascii.eqb_sym a "{").
    pose proof (upto_last_close_list text) as Hc.
    destruct (Ascii.eqb "{" a) eqn:Ea.
    + destruct (after_last_close (list_ascii_of_string text)) as [r|] eqn:E.
      * rewrite Hc. apply after_last_close_shorter in E.
        unfold consumed. cbn [rest].
        replace (length (a :: list_ascii_of_string text) - length r)%nat
          with (S (length (list_ascii_of_string text) - length r)) by (simpl; lia).
        reflexivity.
      * rewrite Hc. rewrite search_without_close by exact E. reflexivity.
    + apply IH.
Qed.

Lemma search_group_braced (text : string) :
  search_group false braces_pattern text = braced text.
Proof. apply search_from_braced. Qed.

(** *** The code fence *)

Lemma string_app_cons (c : ascii) (a b : string) :
  (String c a ++ b)%string = String c (a ++ b).
Proof. reflexivity. Qed.

Lemma string_app_nil (b : string) : ("" ++ b)%string = b.
Proof. reflexivity. Qed.

Lemma prefix_append (a b : string) : String.prefix a (a ++ b) = true.
Proof.
  induction a as [|c a IH]; [destruct b; reflexivity|].
  rewrite string_app_cons. cbn [String.prefix].
  destruct (ascii_dec c c); [exact IH | congruence].
Qed.

Lemma find_at_prefix (sub text : string) :
  String.prefix sub text = true -> find sub text = Some O.
Proof. intros H. destruct text; cbn [find]; rewrite H; reflexivity. Qed.

(** The first occurrence of a pattern that starts with a backtick, after a
    text without backticks, is at the end of that text. *)
Lemma find_after_plain (pattern before rest : string) :
  no_backtick before = true ->
  find (String "`" pattern) (before ++ String "`" pattern ++ rest)
  = Some (String.length before).
Proof.
  induction before as [|c before IH]; intros Hplain.
  - rewrite string_app_nil. apply find_at_prefix. apply prefix_append.
  - cbn [no_backtick] in Hplain. apply andb_true_iff in Hplain.
    destruct Hplain as [Hc Hplain].
    rewrite string_app_cons. cbn [find String.prefix String.length].
    destruct (ascii_dec "`" c) as [<-|_]; [discriminate Hc|].
    rewrite (IH Hplain). reflexivity.
Qed.

Lemma drop_past (a text : string) (n : nat) :
  drop (String.length a + n) (a ++ text) = drop n text.
Proof.
  induction a as [|c a IH]; [reflexivity|].
  rewrite string_app_cons. exact IH.
Qed.

Lemma take_append (a b : string) : take (String.length a) (a ++ b) = a.
Proof.
  induction a as [|c a IH]; [destruct b; reflexivity|].
  rewrite string_app_cons. cbn [String.length take]. rewrite IH. reflexivity.
Qed.

Lemma length_append (a b : string) :
  String.length (a ++ b) = (String.length a + String.length b)%nat.
Proof.
  induction a as [|c a IH]; [reflexivity|].
  rewrite string_app_cons. cbn [String.length]. rewrite IH. reflexivity.
Qed.

(** Of a reply with a code block, only the text inside the block is kept,
    trimmed: the text before the opening fence and after the closing one is
    dropped. *)
Lemma strip_fences_fenced (before body after : string) :
  no_backtick before = true ->
  no_backtick body = true ->
  strip_fences (before ++ json_fence ++ body ++ fence ++ after) = strip body.
Proof.
  intros Hbefore Hbody. unfold strip_fences, json_fence, fence.
  rewrite (find_after_plain "``json" before _ Hbefore).
  unfold find_from.
  replace (String.length (before ++ "```json" ++ body ++ "```" ++ after)
           <? String.length before + 7)%nat with false.
  2: { symmetry. apply Nat.ltb_ge. rewrite !length_append.
       change (String.length "```json") with 7%nat. lia. }
  rewrite drop_past.
  change (drop 7 ("```json" ++ body ++ "```" ++ after))
    with (body ++ "```" ++ after)%string.
  rewrite (find_after_plain "``" body _ Hbody). cbn [option_map].
  unfold slice.
  replace (String.length before + 7 + String.length body
           - (String.length before + 7))%nat
    with (String.length body) by lia.
  rewrite drop_past.
  change (drop 7 ("```json" ++ body ++ "```" ++ after))
    with (body ++ "```" ++ after)%string.
  rewrite take_append. reflexivity.
Qed.

(** *** The parser *)

Section Decoder.

Variable json_loads : string -> Exn json.

Lemma parse_returns (content : string) :
  exists parsed, _parse_json_response json_loads content = Ok parsed.
Proof.
  unfold _parse_json_response.
  destruct (try_block json_loads (strip_fences content)); eauto.
Qed.

Lemma first_attempt_rejected (text : string) :
  (forall t, json_candidate text = Some t -> exists e, json_loads t = Raise e) ->
  first_attempt json_loads text = None
  \/ exists e, first_attempt json_loads text = Some (Raise e).
Proof.
  intros Hrej. unfold first_attempt.
  destruct (json_candidate text) as [t|]; [|left; reflexivity].
  destruct (Hrej t eq_refl) as [e He].
  rewrite He. destruct (is_decode_error e); eauto.
Qed.

Lemma second_attempt_rejected (text : string) :
  (forall t, json_candidate text = Some t -> exists e, json_loads t = Raise e) ->
  second_attempt json_loads text = None
  \/ exists e, second_attempt json_loads text = Some (Raise e).
Proof.
  intros Hrej. unfold second_attempt.
  rewrite search_group_braced, <- json_candidate_braced.
  destruct (json_candidate text) as [t|]; [|left; reflexivity].
  destruct (Hrej t eq_refl) as [e He].
  rewrite He. destruct (is_decode_error e); eauto.
Qed.

(** C9, amended. The parser never raises. It works on the payload of the
    reply: the trimmed text inside the code block of the reply when it has
    one, the reply itself otherwise; of a reply with a code block, the text
    before the opening fence and after the closing one is dropped. When
    [json.loads] rejects the text between the first opening and the last
    closing brace of the payload (or there is none), the result is the
    zero-issue dictionary: [total_issues] 0, no issues, an error message,
    and as [raw_response] the payload, cut to its first 500 characters
    followed by an ellipsis when it is longer. When that text decodes to an
    object, the object is returned with [issues] replaced by the empty list
    unless it is a list, and [total_issues] by the number of issues unless
    it is an integer. *)
Theorem parse_falls_back_without_raising (content : string) :
  let text := strip_fences content in
  (exists parsed, _parse_json_response json_loads content = Ok parsed)
  /\ ((forall t, json_candidate text = Some t -> exists e, json_loads t = Raise e) ->
      exists error,
        _parse_json_response json_loads content
        = Ok (JObj [ ("total_issues", JInt 0);
                     ("issues", JList []);
                     ("error", JStr error);
                     ("raw_response", JStr (truncate 500 text));
                     ("file_info", file_info_unknown) ]))
  /\ (forall t fields,
        json_candidate text = Some t ->
        json_loads t = Ok (JObj fields) ->
        _parse_json_response json_loads content = Ok (JObj (normalise fields)))
  /\ (forall before body after,
        no_backtick before = true ->
        no_backtick body = true ->
        content = (before ++ json_fence ++ body ++ fence ++ after)%string ->
        text = strip body).
Proof.
  intros text. split; [apply parse_returns|]. split; [|split].
  2: { intros t fields Hc Hl. unfold _parse_json_response, try_block, first_attempt.
       fold text. rewrite Hc, Hl. reflexivity. }
  2: { intros before body after Hbefore Hbody ->. subst text.
       apply strip_fences_fenced; assumption. }
  - intros Hrej. unfold _parse_json_response, try_block. fold text.
    destruct (first_attempt_rejected text Hrej) as [H1|[e H1]]; rewrite H1.
    + destruct (second_attempt_rejected text Hrej) as [H2|[e H2]]; rewrite H2;
        eexists; reflexivity.
    + eexists; reflexivity.
Qed.

End Decoder.

(** A long reply without braces: nothing is handed to the decoder. *)
Lemma parse_falls_back_without_raising_witness :
  exists error,
    _parse_json_response sample_loads long_reply
    = Ok (JObj [ ("total_issues", JInt 0);
                 ("issues", JList []);
                 ("error", JStr error);
                 ("raw_response", JStr (truncate 500 long_reply));
                 ("file_info", file_info_unknown) ]).
Proof.
  destruct (parse_falls_back_without_raising sample_loads long_reply) as (_ & Hfall & _).
  replace (strip_fences long_reply) with long_reply in Hfall by (vm_compute; reflexivity).
  apply Hfall. intros t Hin. vm_compute in Hin. discriminate Hin.
Defined.

(** A reply of 501 characters is kept as its first 500 and an ellipsis; a
    reply that decodes to an object of the wrong shape comes back with its
    [total_issues] of 3, no issue and no raw text, and so does that reply
    inside a code block, whatever stands around the block; of prose with a
    code block, the raw text kept is the inside of the block alone. *)
Lemma parse_truncates_and_keeps_misshapen :
  (exists error,
     _parse_json_response sample_loads long_reply
     = Ok (JObj [ ("total_issues", JInt 0);
                  ("issues", JList []);
                  ("error", JStr error);
                  ("raw_response", JStr (take 500 long_reply ++ "...")%string);
                  ("file_info", file_info_unknown) ]))
  /\ String.length long_reply = 501%nat
  /\ String.eqb (take 500 long_reply ++ "...")%string long_reply = false
  /\ sample_loads misshapen_reply = Ok misshapen_object
  /\ _parse_json_response sample_loads misshapen_reply
     = Ok (JObj [("issues", JList []); ("total_issues", JInt 3)])
  /\ _parse_json_response sample_loads fenced_reply
     = Ok (JObj [("issues", JList []); ("total_issues", JInt 3)])
  /\ (exists error,
        _parse_json_response sample_loads fenced_prose
        = Ok (JObj [ ("total_issues", JInt 0);
                     ("issues", JList []);
                     ("error", JStr error);
                     ("raw_response", JStr "nothing found");
                     ("file_info", file_info_unknown) ])).
Proof.
  split; [eexists; vm_compute; reflexivity|].
  split; [vm_compute; reflexivity|]. split; [vm_compute; reflexivity|].
  split; [vm_compute; reflexivity|]. split; [vm_compute; reflexivity|].
  split; [vm_compute; reflexivity|].
  eexists; vm_compute; reflexivity.
Qed.

End ParserFacts.

(* ===================================================================== *)
(** ** Properties of whitespace, lines and containment *)
(* ===================================================================== *)

Module TextFacts.
Import PyStr Re Whitespace.

Lemma skip_spaces_length (t : list ascii) :
  (length (skip_spaces t) <= length t)%nat.
Proof.
  induction t as [|a t IH]; simpl; [lia|].
  destruct (is_space a); simpl; lia.
Qed.

Lemma star_spaces (t : list ascii) (p : option ascii) (c : list string) :
  rmatch false (Star s) (MState p t c) Some
  = Some (MState (last_space p t) (skip_spaces t) c).
Proof.
  revert p. induction t as [|a t IH]; intros p.
  - reflexivity.
  - transitivity
      (match (if is_space a
              then if (length t <? S (length t))%nat
                   then rmatch false (Star s) (MState (Some a) t c) Some
                   else None
              else None) with
       | Some x => Some x
       | None => Some (MState p (a :: t) c)
       end); [reflexivity|].
    cbn [skip_spaces last_space].
    destruct (is_space a); [|reflexivity].
    replace (length t <? S (length t))%nat with true
      by (symmetry; apply Nat.ltb_lt; lia).
    rewrite IH. reflexivity.
Qed.

Lemma match_here_spaces (p : option ascii) (t : list ascii) :
  match_here false (Plus s) p t
  = match t with
    | a :: t' =>
        if is_space a
        then Some (MState (last_space (Some a) t') (skip_spaces t') [])
        else None
    | [] => None
    end.
Proof.
  destruct t as [|a t']; [reflexivity|].
  transitivity (if is_space a
                then rmatch false (Star s) (MState (Some a) t' []) Some
                else None); [reflexivity|].
  rewrite star_spaces. reflexivity.
Qed.

Lemma squeeze_skip_spaces (t : list ascii) :
  squeeze (string_of_list_ascii (skip_spaces t)) = squeeze (string_of_list_ascii t).
Proof.
  induction t as [|a t IH]; [reflexivity|].
  cbn [skip_spaces]. destruct (is_space a) eqn:E; [|reflexivity].
  rewrite IH. cbn [string_of_list_ascii squeeze]. rewrite E. reflexivity.
Qed.

Lemma delete_spaces (fuel : nat) (p : option ascii) (t : list ascii) :
  (length t < fuel)%nat ->
  string_of_list_ascii (delete_matches fuel false (Plus s) p t)
  = squeeze (string_of_list_ascii t).
Proof.
  revert p t. induction fuel as [|fuel IH]; intros p t Hlen; [lia|].
  cbn [delete_matches]. rewrite match_here_spaces.
  destruct t as [|a t']; [reflexivity|].
  cbn [string_of_list_ascii squeeze].
  destruct (is_space a) eqn:E.
  - cbn [rest prev].
    pose proof (skip_spaces_length t') as Hs.
    replace (length (skip_spaces t') <? length (a :: t'))%nat with true
      by (symmetry; apply Nat.ltb_lt; simpl; lia).
    rewrite IH by (simpl in Hlen; lia). apply squeeze_skip_spaces.
  - cbn [string_of_list_ascii]. f_equal. apply IH. simpl in Hlen; lia.
Qed.

(** [re.sub(r'\s+', '', text)] drops the whitespace characters. *)
Lemma sub_empty_spaces (text : string) :
  sub_empty false (Plus s) text = squeeze text.
Proof.
  unfold sub_empty. rewrite delete_spaces by lia.
  rewrite string_of_list_ascii_of_string. reflexivity.
Qed.

Lemma is_space_lower_char (c : ascii) : is_space (lower_char c) = is_space c.
Proof. destruct c as [[] [] [] [] [] [] [] []]; reflexivity. Qed.

Lemma squeeze_lower (text : string) : squeeze (lower text) = lower (squeeze text).
Proof.
  induction text as [|a text IH]; [reflexivity|].
  cbn [lower squeeze]. rewrite is_space_lower_char.
  destruct (is_space a); [exact IH|]. cbn [lower]. rewrite IH. reflexivity.
Qed.

Lemma squeeze_lstrip (text : string) : squeeze (lstrip text) = squeeze text.
Proof.
  induction text as [|a text IH]; [reflexivity|].
  cbn [lstrip]. destruct (is_space a) eqn:E; [|reflexivity].
  cbn [squeeze]. rewrite E. exact IH.
Qed.

Lemma squeeze_rstrip (text : string) : squeeze (rstrip text) = squeeze text.
Proof.
  induction text as [|a text IH]; [reflexivity|].
  cbn [rstrip squeeze]. destruct (rstrip text) as [|b t].
  - rewrite <- IH. destruct (is_space a) eqn:E; [reflexivity|].
    cbn [squeeze]. rewrite E. reflexivity.
  - cbn [squeeze] in *. rewrite IH. reflexivity.
Qed.

Lemma squeeze_strip (text : string) : squeeze (strip text) = squeeze text.
Proof. unfold strip. rewrite squeeze_rstrip. apply squeeze_lstrip. Qed.

Lemma append_cons (c : ascii) (a b : string) :
  (String c a ++ b)%string = String c (a ++ b)%string.
Proof. reflexivity. Qed.

Lemma append_nil (b : string) : ("" ++ b)%string = b.
Proof. reflexivity. Qed.

Lemma squeeze_app (a b : string) :
  squeeze (a ++ b) = (squeeze a ++ squeeze b)%string.
Proof.
  induction a as [|c a IH]; [reflexivity|].
  rewrite append_cons. cbn [squeeze]. destruct (is_space c); [exact IH|].
  rewrite append_cons, IH. reflexivity.
Qed.

Lemma lower_app (a b : string) : lower (a ++ b) = (lower a ++ lower b)%string.
Proof.
  induction a as [|c a IH]; [reflexivity|].
  rewrite append_cons. cbn [lower]. rewrite append_cons, IH. reflexivity.
Qed.

Lemma append_empty_r (a : string) : (a ++ "")%string = a.
Proof.
  induction a as [|c a IH]; [reflexivity|]. rewrite append_cons, IH. reflexivity.
Qed.

Lemma append_assoc (a b c : string) :
  ((a ++ b) ++ c)%string = (a ++ (b ++ c))%string.
Proof.
  induction a as [|x a IH]; [reflexivity|]. rewrite !append_cons, IH. reflexivity.
Qed.

Lemma squeeze_join_lines (ls : list string) :
  squeeze (join_lines ls) = squeeze_all ls.
Proof.
  induction ls as [|l ls IH]; [reflexivity|].
  destruct ls as [|l' ls'].
  - cbn [join_lines squeeze_all]. rewrite append_empty_r. reflexivity.
  - change (join_lines (l :: l' :: ls'))
      with (l ++ String LF (join_lines (l' :: ls')))%string.
    rewrite squeeze_app. cbn [squeeze].
    change (is_space LF) with true. cbv iota.
    rewrite IH. reflexivity.
Qed.

Lemma squeeze_all_rstrip (ls : list string) :
  squeeze_all (map rstrip ls) = squeeze_all ls.
Proof.
  induction ls as [|l ls IH]; [reflexivity|].
  cbn [map squeeze_all]. rewrite squeeze_rstrip, IH. reflexivity.
Qed.

Lemma squeeze_all_In (l : string) (ls : list string) :
  In l ls -> exists x y, squeeze_all ls = (x ++ squeeze l ++ y)%string.
Proof.
  induction ls as [|l' ls IH]; [contradiction|].
  intros [->|Hin].
  - exists "", (squeeze_all ls). reflexivity.
  - destruct (IH Hin) as (x & y & E).
    exists (squeeze l' ++ x)%string, y.
    cbn [squeeze_all]. rewrite E, append_assoc. reflexivity.
Qed.

Lemma prefix_app (a b : string) : String.prefix a (a ++ b) = true.
Proof.
  induction a as [|c a IH]; [destruct b; reflexivity|].
  rewrite append_cons. cbn [String.prefix].
  destruct (ascii_dec c c); [exact IH | congruence].
Qed.

Lemma contains_empty (text : string) : contains "" text = true.
Proof. destruct text; reflexivity. Qed.

Lemma contains_app (x a y : string) : contains a (x ++ a ++ y) = true.
Proof.
  induction x as [|c x IH].
  - rewrite append_nil. destruct (a ++ y)%string eqn:E.
    + destruct a; [reflexivity | discriminate].
    + rewrite <- E. pose proof (prefix_app a y) as P.
      destruct (a ++ y)%string; cbn [contains]; rewrite P; reflexivity.
  - rewrite append_cons. cbn [contains]. rewrite IH. apply orb_true_r.
Qed.

Lemma contains_refl (text : string) : contains text text = true.
Proof.
  pose proof (contains_app "" text "") as H.
  rewrite append_nil, append_empty_r in H. exact H.
Qed.

End TextFacts.

Module LineFacts.
Import PyStr Whitespace TextFacts.

Lemma join_split (text : string) : join_lines (split_lines text) = text.
Proof.
  induction text as [|a text IH]; [reflexivity|].
  cbn [split_lines].
  destruct (split_lines text) as [|l ls] eqn:E.
  - exfalso. exact (AnalyzerFacts.split_lines_nonempty text E).
  - destruct (Ascii.eqb a LF) eqn:Ea.
    + apply Ascii.eqb_eq in Ea. subst a.
      change (join_lines ("" :: l :: ls)) with (String LF (join_lines (l :: ls))).
      rewrite IH. reflexivity.
    + destruct ls as [|l' ls'].
      * cbn [join_lines] in *. rewrite IH. reflexivity.
      * change (join_lines (String a l :: l' :: ls'))
          with (String a (l ++ String LF (join_lines (l' :: ls')))).
        change (join_lines (l :: l' :: ls'))
          with (l ++ String LF (join_lines (l' :: ls')))%string in IH.
        rewrite IH. reflexivity.
Qed.

Lemma split_lines_no_lf (text : string) :
  Forall (fun l => no_lf l = true) (split_lines text).
Proof.
  induction text as [|a text IH]; [repeat constructor|].
  cbn [split_lines].
  destruct (split_lines text) as [|l ls] eqn:E.
  - exfalso. exact (AnalyzerFacts.split_lines_nonempty text E).
  - inversion IH as [|? ? Hl Hls]; subst.
    destruct (Ascii.eqb a LF) eqn:Ea.
    + constructor; [reflexivity | exact IH].
    + constructor; [|exact Hls]. cbn [no_lf]. rewrite Ea, Hl. reflexivity.
Qed.

Lemma split_no_lf (l : string) : no_lf l = true -> split_lines l = [l].
Proof.
  induction l as [|a l IH]; [reflexivity|].
  cbn [no_lf]. intros H. apply andb_true_iff in H. destruct H as [Ha Hl].
  cbn [split_lines]. rewrite (IH Hl).
  apply negb_true_iff in Ha. rewrite Ha. reflexivity.
Qed.

Lemma split_app_lf (l rest : string) :
  no_lf l = true -> split_lines (l ++ String LF rest) = l :: split_lines rest.
Proof.
  induction l as [|a l IH]; intros H.
  - rewrite append_nil. cbn [split_lines].
    destruct (split_lines rest) as [|x xs] eqn:E.
    + exfalso. exact (AnalyzerFacts.split_lines_nonempty rest E).
    + rewrite Ascii.eqb_refl. reflexivity.
  - cbn [no_lf] in H. apply andb_true_iff in H. destruct H as [Ha Hl].
    rewrite append_cons. cbn [split_lines]. rewrite (IH Hl).
    apply negb_true_iff in Ha. rewrite Ha. reflexivity.
Qed.

Lemma split_join (ls : list string) :
  ls <> [] -> Forall (fun l => no_lf l = true) ls ->
  split_lines (join_lines ls) = ls.
Proof.
  intros Hne H. induction H as [|l ls Hl Hls IH]; [congruence|].
  destruct ls as [|l' ls'].
  - cbn [join_lines]. apply split_no_lf. exact Hl.
  - change (join_lines (l :: l' :: ls'))
      with (l ++ String LF (join_lines (l' :: ls')))%string.
    rewrite split_app_lf by exact Hl. rewrite IH by discriminate. reflexivity.
Qed.

Lemma no_lf_app (a b : string) : no_lf (a ++ b) = no_lf a && no_lf b.
Proof.
  induction a as [|c a IH]; [reflexivity|].
  rewrite append_cons. cbn [no_lf]. rewrite IH, andb_assoc. reflexivity.
Qed.

Lemma no_lf_lstrip (text : string) : no_lf text = true -> no_lf (lstrip text) = true.
Proof.
  induction text as [|a text IH]; [reflexivity|].
  intros H. cbn [lstrip]. destruct (is_space a); [|exact H].
  cbn [no_lf] in H. apply andb_true_iff in H. apply IH. tauto.
Qed.

Lemma no_lf_rstrip (text : string) : no_lf text = true -> no_lf (rstrip text) = true.
Proof.
  induction text as [|a text IH]; [reflexivity|].
  cbn [no_lf]. intros H. apply andb_true_iff in H. destruct H as [Ha Ht].
  cbn [rstrip]. specialize (IH Ht).
  destruct (rstrip text) as [|b t].
  - destruct (is_space a); [reflexivity|]. cbn [no_lf]. rewrite Ha. reflexivity.
  - cbn [no_lf] in *. rewrite Ha, IH. reflexivity.
Qed.

Lemma no_lf_strip (text : string) : no_lf text = true -> no_lf (strip text) = true.
Proof. intros H. apply no_lf_rstrip, no_lf_lstrip, H. Qed.

Lemma no_lf_drop (n : nat) (text : string) :
  no_lf text = true -> no_lf (drop n text) = true.
Proof.
  revert text. induction n as [|n IH]; intros text H; [exact H|].
  destruct text as [|a text]; [reflexivity|].
  cbn [drop]. cbn [no_lf] in H. apply andb_true_iff in H. apply IH. tauto.
Qed.

Lemma no_lf_replace_aux (fuel : nat) (old new text : string) :
  no_lf new = true -> no_lf text = true ->
  no_lf (replace_aux fuel old new text) = true.
Proof.
  intros Hnew. revert text. induction fuel as [|fuel IH]; intros text H; [exact H|].
  cbn [replace_aux]. destruct (String.prefix old text).
  - rewrite no_lf_app, Hnew. apply IH, no_lf_drop, H.
  - destruct text as [|a text]; [reflexivity|].
    cbn [no_lf] in *. apply andb_true_iff in H. destruct H as [Ha Ht].
    rewrite Ha, (IH _ Ht). reflexivity.
Qed.

Lemma no_lf_intersperse (new text : string) :
  no_lf new = true -> no_lf text = true -> no_lf (intersperse new text) = true.
Proof.
  intros Hnew. induction text as [|a text IH]; intros H; [exact Hnew|].
  cbn [intersperse]. rewrite no_lf_app, Hnew.
  cbn [no_lf] in *. apply andb_true_iff in H. destruct H as [Ha Ht].
  rewrite Ha, (IH Ht). reflexivity.
Qed.

Lemma no_lf_replace (old new text : string) :
  no_lf new = true -> no_lf text = true -> no_lf (replace old new text) = true.
Proof.
  intros Hnew H. unfold replace. destruct old.
  - apply no_lf_intersperse; assumption.
  - apply no_lf_replace_aux; assumption.
Qed.

End LineFacts.

(* ===================================================================== *)
(** ** Properties of the enhancement of findings *)
(* ===================================================================== *)

Module EnhanceFacts.
Import PyStr Re Analyzer Whitespace TextFacts.
Import Scenario Examples.

Lemma fuzzy_of_squeezed (snippet line : string) :
  contains (lower (squeeze line)) (lower (squeeze snippet)) = true ->
  _fuzzy_match_code snippet line = true.
Proof.
  intros H. unfold _fuzzy_match_code.
  rewrite !sub_empty_spaces, !squeeze_lower, H, orb_true_r. reflexivity.
Qed.

Lemma fuzzy_of_part (snippet line x y : string) :
  squeeze snippet = (x ++ squeeze line ++ y)%string ->
  _fuzzy_match_code snippet line = true.
Proof.
  intros E. apply fuzzy_of_squeezed. rewrite E, !lower_app. apply contains_app.
Qed.

(** The snippet [_extract_precise_code_snippet] builds from a list of line
    numbers matches, fuzzily, each of the lines it was built from. *)
Lemma precise_snippet_matches (code original_snippet : string)
      (line_nums : list Z) (ln : Z) :
  In ln line_nums -> in_range (split_lines code) ln = true ->
  _fuzzy_match_code
    (strip (_extract_precise_code_snippet code line_nums original_snippet))
    (strip (line_at (split_lines code) ln)) = true.
Proof.
  intros Hin Hr. unfold _extract_precise_code_snippet.
  set (lines := split_lines code) in *.
  destruct line_nums as [|n0 ns]; [contradiction|].
  assert (Hl : In (line_at lines ln)
                  (map (line_at lines) (List.filter (in_range lines) (n0 :: ns)))).
  { apply in_map. apply filter_In. split; assumption. }
  destruct (squeeze_all_In _ _ Hl) as (x & y & E).
  revert Hl E.
  generalize (map (line_at lines) (List.filter (in_range lines) (n0 :: ns))).
  intros actual Hl E.
  destruct actual as [|l1 [|l2 rest]]; [contradiction| |].
  - apply (fuzzy_of_part _ _ x y).
    rewrite !squeeze_strip. cbn [squeeze_all] in E.
    rewrite append_empty_r in E. exact E.
  - apply (fuzzy_of_part _ _ x y).
    rewrite !squeeze_strip, squeeze_join_lines, squeeze_all_rstrip. exact E.
Qed.

Lemma enhance_line_numbers (issue : Issue) (code : string) :
  line_numbers (_enhance_issue issue code) = _improve_line_accuracy issue code.
Proof.
  unfold _enhance_issue. cbn [line_numbers set_line_numbers].
  destruct (_improve_line_accuracy issue code); reflexivity.
Qed.

Lemma enhance_code_snippet (issue : Issue) (code : string) :
  code_snippet (_enhance_issue issue code)
  = match _improve_line_accuracy issue code with
    | [] => code_snippet issue
    | line_nums =>
        _extract_precise_code_snippet code line_nums (code_snippet issue)
    end.
Proof.
  unfold _enhance_issue. cbn [line_numbers set_line_numbers].
  destruct (_improve_line_accuracy issue code); reflexivity.
Qed.

Lemma enhance_principle_id (issue : Issue) (code : string) :
  principle_id (_enhance_issue issue code) = principle_id issue.
Proof.
  unfold _enhance_issue. cbn [line_numbers set_line_numbers].
  destruct (_improve_line_accuracy issue code); reflexivity.
Qed.

Lemma validate_with_lines (issue : Issue) (code : string) (ln : Z) (lns : list Z) :
  line_numbers issue = ln :: lns ->
  _validate_issue_existence issue code
  = (existsb (line_matches issue (strip (code_snippet issue)) (split_lines code))
             (ln :: lns), issue).
Proof.
  intros E. unfold _validate_issue_existence, locate_snippet. rewrite E.
  cbv zeta. rewrite E.
  rewrite (AnalyzerFacts.count_positive
             (line_matches issue (strip (code_snippet issue)) (split_lines code))
             (ln :: lns) O).
  reflexivity.
Qed.

Lemma validate_without_lines (issue : Issue) (code : string) :
  line_numbers issue = [] -> strip (code_snippet issue) = "" ->
  _validate_issue_existence issue code = (is_lenient (principle_id issue), issue).
Proof.
  intros E Es. unfold _validate_issue_existence, locate_snippet. rewrite E, Es.
  cbv zeta. rewrite E. reflexivity.
Qed.

Lemma firstn_Forall {A : Type} (P : A -> Prop) (n : nat) (l : list A) :
  Forall P l -> Forall P (firstn n l).
Proof.
  intros H. revert n. induction H as [|x l Hx Hl IH]; intros n.
  - destruct n; constructor.
  - destruct n as [|n]; cbn [firstn]; constructor; [exact Hx | apply IH].
Qed.

Lemma lines_where_in_range (test : string -> bool) (lines : list string) :
  Forall (fun n => in_range lines n = true) (lines_where test lines).
Proof.
  apply List.Forall_forall. intros n Hn.
  apply AnalyzerFacts.lines_where_In in Hn. tauto.
Qed.

Lemma related_in_range (issue : Issue) (code : string) :
  Forall (fun n => in_range (split_lines code) n = true)
         (_find_related_elements issue code).
Proof.
  unfold _find_related_elements.
  destruct (dict_get (principle_id issue) search_patterns);
    [apply lines_where_in_range|].
  destruct (str_in (category issue) _); [apply lines_where_in_range | constructor].
Qed.

Lemma repair_line_in_range (keywords lines : list string) (n : Z) :
  in_range lines n = true -> in_range lines (repair_line keywords lines n) = true.
Proof.
  intros Hn. unfold repair_line.
  match goal with |- context [List.find ?f ?l] => destruct (List.find f l) eqn:E end;
    [|exact Hn].
  apply find_some in E. destruct E as [_ E].
  apply andb_true_iff in E. tauto.
Qed.

(** For a snippet that is not blank, the locator returns at least one line
    number, and only line numbers of the text. *)
Lemma improve_in_range (issue : Issue) (code : string) :
  strip (code_snippet issue) <> "" ->
  _improve_line_accuracy issue code <> []
  /\ Forall (fun n => in_range (split_lines code) n = true)
            (_improve_line_accuracy issue code).
Proof.
  intros Hne. unfold _improve_line_accuracy.
  destruct (strip (code_snippet issue)) as [|c sn] eqn:Es; [congruence|].
  set (lines := split_lines code).
  pose proof (lines_where_in_range (contains (String c sn)) lines) as H1.
  destruct (lines_where (contains (String c sn)) lines) as [|n1 l1].
  2: { split; [discriminate | apply (firstn_Forall _ 3); exact H1]. }
  pose proof (lines_where_in_range (_fuzzy_match_code (String c sn)) lines) as H2.
  destruct (lines_where (_fuzzy_match_code (String c sn)) lines) as [|n2 l2].
  2: { split; [discriminate | apply (firstn_Forall _ 3); exact H2]. }
  pose proof (related_in_range issue code) as H3.
  destruct (_find_related_elements issue code) as [|n3 l3].
  2: { split; [discriminate | apply (firstn_Forall _ 3); exact H3]. }
  assert (H4 : Forall (fun n => in_range lines n = true)
                 (map (repair_line (_extract_keywords_from_issue issue) lines)
                      (List.filter (in_range lines) (line_numbers issue)))).
  { apply List.Forall_forall. intros n Hn. apply in_map_iff in Hn.
    destruct Hn as (m & <- & Hm). apply filter_In in Hm.
    apply repair_line_in_range. tauto. }
  destruct (map _ _) as [|n4 l4].
  - split; [discriminate|]. constructor; [|constructor].
    unfold in_range. pose proof (AnalyzerFacts.split_lines_nonempty code) as Hl.
    fold lines in Hl. destruct lines; [congruence|]. simpl length. 
    apply andb_true_iff. split; apply Z.leb_le; lia.
  - split; [discriminate | exact H4].
Qed.

Lemma existsb_in_range_matches (issue : Issue) (code : string) (line_nums : list Z) :
  code_snippet issue
  = _extract_precise_code_snippet code line_nums (code_snippet issue) \/
  (exists original,
     code_snippet issue = _extract_precise_code_snippet code line_nums original) ->
  existsb (line_matches issue (strip (code_snippet issue)) (split_lines code)) line_nums
  = existsb (in_range (split_lines code)) line_nums.
Proof.
  intros Hsn.
  assert (Hex : exists original,
            code_snippet issue = _extract_precise_code_snippet code line_nums original).
  { destruct Hsn as [H|H]; [eexists; exact H | exact H]. }
  destruct Hex as [original E].
  assert (Hall : forall ln, In ln line_nums ->
            line_matches issue (strip (code_snippet issue)) (split_lines code) ln
            = in_range (split_lines code) ln).
  { intros ln Hin. unfold line_matches.
    destruct (in_range (split_lines code) ln) eqn:Hr; [|reflexivity].
    rewrite E, (precise_snippet_matches code original line_nums ln Hin Hr).
    rewrite orb_true_r. reflexivity. }
  clear Hsn E. induction line_nums as [|n ns IH]; [reflexivity|].
  cbn [existsb]. rewrite Hall by (left; reflexivity).
  rewrite IH; [reflexivity|]. intros ln Hin. apply Hall. right; exact Hin.
Qed.

(** The validator on an enhanced finding: the verdict, read from the
    finding as it was reported, and the finding, which it does not change. *)
Lemma validate_enhanced (issue : Issue) (code : string) :
  _validate_issue_existence (_enhance_issue issue code) code
  = (if String.eqb (strip (code_snippet issue)) ""
     then match line_numbers issue with
          | [] => is_lenient (principle_id issue)
          | claimed => existsb (in_range (split_lines code)) claimed
          end
     else true,
     _enhance_issue issue code).
Proof.
  pose proof (enhance_line_numbers issue code) as Hl.
  pose proof (enhance_code_snippet issue code) as Hs.
  destruct (_improve_line_accuracy issue code) as [|ln lns] eqn:EL.
  - (* no line number after the enhancement: the snippet is blank *)
    destruct (String.eqb (strip (code_snippet issue)) "") eqn:Eb.
    + apply String.eqb_eq in Eb.
      assert (Ec : line_numbers issue = []).
      { unfold _improve_line_accuracy in EL. rewrite Eb in EL. exact EL. }
      rewrite Ec, validate_without_lines, enhance_principle_id;
        [reflexivity | exact Hl | rewrite Hs; exact Eb].
    + apply String.eqb_neq in Eb. destruct (improve_in_range issue code Eb) as [H _].
      congruence.
  - rewrite (validate_with_lines _ code ln lns Hl).
    rewrite existsb_in_range_matches by (right; eexists; exact Hs).
    f_equal.
    destruct (String.eqb (strip (code_snippet issue)) "") eqn:Eb.
    + apply String.eqb_eq in Eb.
      assert (Ec : line_numbers issue = ln :: lns).
      { unfold _improve_line_accuracy in EL. rewrite Eb in EL. exact EL. }
      rewrite Ec. reflexivity.
    + apply String.eqb_neq in Eb. destruct (improve_in_range issue code Eb) as [_ H].
      rewrite EL in H. inversion H as [|? ? Hn _]; subst.
      cbn [existsb]. rewrite Hn. reflexivity.
Qed.

(** X1. What the validator answers on an enhanced finding, for an
    enhancement that returns: a finding whose snippet is not blank is
    accepted, even when the snippet stands on no line and no claimed line
    exists; one with a blank snippet is accepted when one of its claimed
    line numbers is a line of the text or, with no claimed line number,
    when its principle is lenient. The validator leaves the enhanced
    finding as it is. *)
Theorem enhanced_finding_verdict (issue : Issue) (code : string) :
  let verdict := _validate_issue_existence (_enhance_issue issue code) code in
  fst verdict
  = (if String.eqb (strip (code_snippet issue)) ""
     then match line_numbers issue with
          | [] => is_lenient (principle_id issue)
          | claimed => existsb (in_range (split_lines code)) claimed
          end
     else true)
  /\ snd verdict = _enhance_issue issue code.
Proof.
  intros verdict. subst verdict. rewrite validate_enhanced. split; reflexivity.
Qed.

(** A blank line matches every snippet fuzzily, and a blank snippet every
    line. *)
Lemma fuzzy_blank (snippet line : string) :
  strip line = "" \/ strip snippet = "" -> _fuzzy_match_code snippet line = true.
Proof.
  intros H. unfold _fuzzy_match_code.
  rewrite !sub_empty_spaces, !squeeze_lower.
  destruct H as [H|H].
  - rewrite <- (squeeze_strip line), H. cbn [squeeze lower].
    rewrite contains_empty, orb_true_r. reflexivity.
  - rewrite <- (squeeze_strip snippet), H. cbn [squeeze lower].
    rewrite contains_empty. reflexivity.
Qed.

Lemma firstn_head_sorted (l : list Z) (n x : Z) :
  StronglySorted Z.lt l -> In n l -> In x (firstn 3 l) ->
  exists m, In m (firstn 3 l) /\ m <= n.
Proof.
  intros Hs Hn _. destruct l as [|a l]; [contradiction|].
  exists a. split; [left; reflexivity|].
  destruct Hn as [<-|Hn]; [lia|].
  inversion Hs as [|? ? _ Hall]; subst.
  pose proof (proj1 (List.Forall_forall _ _) Hall n Hn). lia.
Qed.

(** X3. When the snippet of a finding is not blank and stands on no line, a
    blank line of the text settles the location: the locator returns lines
    that match fuzzily, one of them at or before the first blank line,
    whatever line numbers were claimed. *)
Theorem blank_line_attracts_snippet (issue : Issue) (code : string) (n : Z) :
  strip (code_snippet issue) <> "" ->
  lines_where (contains (strip (code_snippet issue))) (split_lines code) = [] ->
  in_range (split_lines code) n = true ->
  strip (line_at (split_lines code) n) = "" ->
  Forall (fun m =>
            in_range (split_lines code) m = true
            /\ _fuzzy_match_code (strip (code_snippet issue))
                                 (line_at (split_lines code) m) = true)
         (_improve_line_accuracy issue code)
  /\ exists m, In m (_improve_line_accuracy issue code) /\ m <= n.
Proof.
  intros Hne Hexact Hn Hblank. unfold _improve_line_accuracy.
  destruct (strip (code_snippet issue)) as [|c sn] eqn:Es; [congruence|].
  rewrite Hexact.
  assert (Hin : In n (lines_where (_fuzzy_match_code (String c sn)) (split_lines code))).
  { apply AnalyzerFacts.lines_where_In. split; [exact Hn|].
    apply fuzzy_blank. left. exact Hblank. }
  pose proof (AnalyzerFacts.lines_where_sorted (_fuzzy_match_code (String c sn))
                                               (split_lines code)) as Hsorted.
  assert (Hall : Forall (fun m =>
                   in_range (split_lines code) m = true
                   /\ _fuzzy_match_code (String c sn) (line_at (split_lines code) m) = true)
                 (lines_where (_fuzzy_match_code (String c sn)) (split_lines code))).
  { apply List.Forall_forall. intros m Hm.
    apply AnalyzerFacts.lines_where_In in Hm. exact Hm. }
  destruct (lines_where (_fuzzy_match_code (String c sn)) (split_lines code))
    as [|a l] eqn:El; [contradiction|].
  split; [apply (firstn_Forall _ 3); exact Hall|].
  apply (firstn_head_sorted (a :: l) n a Hsorted Hin). left; reflexivity.
Qed.

(** The snippet that stands nowhere, claimed on line 500, is located on
    the blank first line. *)
Lemma blank_line_attracts_snippet_witness :
  Forall (fun m =>
            in_range (split_lines blank_then_rule) m = true
            /\ _fuzzy_match_code (strip (code_snippet absent_issue))
                                 (line_at (split_lines blank_then_rule) m) = true)
         (_improve_line_accuracy absent_issue blank_then_rule)
  /\ exists m, In m (_improve_line_accuracy absent_issue blank_then_rule) /\ m <= 1.
Proof.
  apply (blank_line_attracts_snippet absent_issue blank_then_rule 1).
  - vm_compute. discriminate.
  - vm_compute. reflexivity.
  - reflexivity.
  - reflexivity.
Defined.

End EnhanceFacts.

(* ===================================================================== *)
(** ** Properties of the metrics, the principle ids and the code context *)
(* ===================================================================== *)

Module ReportFacts.
Import PyStr Re Analyzer.
Import Scenario Examples.

(** *** Metrics *)

Lemma fold_tally (issues : list Issue) (sev cat : list (string * nat)) :
  fold_left tally issues (sev, cat)
  = (fold_left (fun counts issue => bump (severity issue) counts) issues sev,
     fold_left (fun counts issue => bump (category issue) counts) issues cat).
Proof.
  revert sev cat. induction issues as [|i issues IH]; intros sev cat.
  - reflexivity.
  - cbn [fold_left tally]. rewrite IH. reflexivity.
Qed.

Lemma bump_keys (key : string) (counts : list (string * nat)) :
  map fst (bump key counts) = map fst counts.
Proof.
  unfold bump. rewrite map_map. apply map_ext. intros [k n]. cbn [fst].
  destruct (String.eqb key k); reflexivity.
Qed.

Lemma count_of_bump (key k : string) (counts : list (string * nat)) :
  In k (map fst counts) ->
  count_of k (bump key counts)
  = ((if String.eqb key k then 1 else 0) + count_of k counts)%nat.
Proof.
  unfold count_of. induction counts as [|[k0 n0] counts IH]; [contradiction|].
  intros Hin. cbn [bump map fst snd dict_get].
  destruct (String.eqb key k0) eqn:E0; cbn [dict_get fst snd].
  - apply String.eqb_eq in E0. subst k0.
    destruct (String.eqb k key) eqn:E1.
    + rewrite String.eqb_sym, E1. reflexivity.
    + destruct Hin as [Hin|Hin]; [cbn in Hin; subst; rewrite String.eqb_refl in E1; discriminate|].
      apply IH. exact Hin.
  - destruct (String.eqb k k0) eqn:E1.
    + apply String.eqb_eq in E1. subst k0. rewrite E0. reflexivity.
    + destruct Hin as [Hin|Hin]; [cbn in Hin; subst; rewrite String.eqb_refl in E1; discriminate|].
      apply IH. exact Hin.
Qed.

Lemma count_of_tally (field : Issue -> string) (k : string) (issues : list Issue)
      (counts : list (string * nat)) :
  In k (map fst counts) ->
  count_of k (fold_left (fun counts issue => bump (field issue) counts) issues counts)
  = (count_of k counts
     + length (List.filter (fun issue => String.eqb (field issue) k) issues))%nat.
Proof.
  revert counts. induction issues as [|i issues IH]; intros counts Hin.
  - cbn. lia.
  - cbn [fold_left List.filter]. rewrite IH by (rewrite bump_keys; exact Hin).
    rewrite count_of_bump by exact Hin.
    destruct (String.eqb (field i) k); cbn [length]; lia.
Qed.

Lemma zero_counts_keys (keys : list string) : map fst (zero_counts keys) = keys.
Proof. unfold zero_counts. rewrite map_map. apply map_id. Qed.

Lemma count_of_zero (k : string) (keys : list string) :
  count_of k (zero_counts keys) = O.
Proof.
  unfold count_of. induction keys as [|k0 keys IH]; [reflexivity|].
  cbn [zero_counts map dict_get]. destruct (String.eqb k k0); [reflexivity | exact IH].
Qed.

Lemma tally_from_zero (field : Issue -> string) (keys : list string) (issues : list Issue) :
  Forall (fun k =>
            count_of k (fold_left (fun counts issue => bump (field issue) counts)
                                  issues (zero_counts keys))
            = length (List.filter (fun issue => String.eqb (field issue) k) issues))
         keys.
Proof.
  apply List.Forall_forall. intros k Hk.
  rewrite count_of_tally by (rewrite zero_counts_keys; exact Hk).
  rewrite count_of_zero. reflexivity.
Qed.

Lemma metrics_unfold (i : Issue) (issues : list Issue) :
  let all := i :: issues in
  let sev := fold_left (fun counts issue => bump (severity issue) counts) all
                       (zero_counts severity_levels) in
  let cat := fold_left (fun counts issue => bump (category issue) counts) all
                       (zero_counts design_categories) in
  _calculate_metrics all
  = mkMetrics (length all) sev cat
      (Z.max 0 (100 - Z.of_nat (count_of "critical" sev + count_of "high" sev) * 5
                - Z.of_nat (count_of "medium" sev) * 2)).
Proof.
  intros all sev cat. unfold _calculate_metrics.
  change (length all) with (S (length issues)). cbv iota beta.
  rewrite fold_tally. reflexivity.
Qed.

Lemma metrics_total (issues : list Issue) :
  metrics_total_issues (_calculate_metrics issues) = length issues.
Proof.
  destruct issues as [|i issues]; [reflexivity|].
  rewrite metrics_unfold. reflexivity.
Qed.

(** X4. The severity and category counts are the numbers of issues with that
    severity or category; the design score is 100 less 5 per critical or
    high issue and 2 per medium issue, and never below 0. *)
Theorem metrics_counts (issues : list Issue) :
  let m := _calculate_metrics issues in
  let count (field : Issue -> string) (k : string) :=
    length (List.filter (fun issue => String.eqb (field issue) k) issues) in
  metrics_total_issues m = length issues
  /\ Forall (fun level => count_of level (severity_breakdown m) = count severity level)
            severity_levels
  /\ Forall (fun c => count_of c (category_breakdown m) = count category c)
            design_categories
  /\ design_score m
     = Z.max 0 (100 - 5 * Z.of_nat (count severity "critical" + count severity "high")
                - 2 * Z.of_nat (count severity "medium"))
  /\ 0 <= design_score m <= 100.
Proof.
  intros m count. subst m.
  destruct issues as [|i issues].
  - cbn [_calculate_metrics length metrics_total_issues severity_breakdown
         category_breakdown design_score].
    split; [reflexivity|]. split.
    { apply List.Forall_forall. intros k _. apply count_of_zero. }
    split.
    { apply List.Forall_forall. intros k _. apply count_of_zero. }
    split; [reflexivity | lia].
  - rewrite metrics_unfold.
    cbn [metrics_total_issues severity_breakdown category_breakdown design_score].
    pose proof (tally_from_zero severity severity_levels (i :: issues)) as Hs.
    pose proof (tally_from_zero category design_categories (i :: issues)) as Hc.
    split; [reflexivity|]. split; [exact Hs|]. split; [exact Hc|].
    assert (H3 : count_of "critical" (fold_left (fun counts issue => bump (severity issue) counts)
                                       (i :: issues) (zero_counts severity_levels))
                 = count severity "critical"
                 /\ count_of "high" (fold_left (fun counts issue => bump (severity issue) counts)
                                       (i :: issues) (zero_counts severity_levels))
                    = count severity "high"
                 /\ count_of "medium" (fold_left (fun counts issue => bump (severity issue) counts)
                                       (i :: issues) (zero_counts severity_levels))
                    = count severity "medium").
    { unfold severity_levels in Hs.
      inversion Hs as [|? ? H1 Hs1]; subst. inversion Hs1 as [|? ? H2 Hs2]; subst.
      inversion Hs2 as [|? ? H3 _]; subst. auto. }
    destruct H3 as (-> & -> & ->). split; lia.
Qed.

(** *** Principle ids *)

Lemma str_in_In (x : string) (l : list string) : str_in x l = true <-> In x l.
Proof.
  unfold str_in. rewrite existsb_exists. split.
  - intros (y & Hy & E). apply String.eqb_eq in E. subst y. exact Hy.
  - intros H. exists x. split; [exact H | apply String.eqb_refl].
Qed.

Lemma taxonomy_key_not_empty (key : string) :
  In key aesthetic_principles -> String.eqb key "" = false.
Proof.
  intros Hin. apply String.eqb_neq. intros ->.
  repeat (destruct Hin as [Hin|Hin]; [discriminate|]). exact Hin.
Qed.

Lemma extract_principle_id_key (key : string) :
  In key aesthetic_principles -> _extract_principle_id key = key.
Proof.
  intros Hin. unfold _extract_principle_id.
  rewrite (proj2 (str_in_In _ _) Hin). reflexivity.
Qed.

Lemma extract_principle_id_cases (principle_text : string) :
  (In (_extract_principle_id principle_text) aesthetic_principles
   /\ contains (_extract_principle_id principle_text) principle_text = true)
  \/ (_extract_principle_id principle_text = ""
      /\ existsb (fun key => contains key principle_text) aesthetic_principles = false).
Proof.
  unfold _extract_principle_id.
  destruct (str_in principle_text aesthetic_principles) eqn:Ekey.
  - left. apply str_in_In in Ekey. split; [exact Ekey | apply TextFacts.contains_refl].
  - destruct (List.find (fun principle_id => contains principle_id principle_text)
                        aesthetic_principles) as [key|] eqn:Efind.
    + left. exact (find_some _ _ Efind).
    + right. split; [reflexivity|].
      destruct (existsb _ aesthetic_principles) eqn:Ex; [|reflexivity].
      apply existsb_exists in Ex. destruct Ex as (key & Hin & Hc).
      pose proof (find_none _ _ Efind key Hin) as Hn. cbv beta in Hn. congruence.
Qed.

(** X6. The principle id read from a text is a key of the taxonomy that occurs
    in the text, or empty when no key occurs in it; reading it again gives
    it back. *)
Theorem extract_principle_id_sound (principle_text : string) :
  let found := _extract_principle_id principle_text in
  (found = ""
   \/ (In found aesthetic_principles /\ contains found principle_text = true))
  /\ existsb (fun key => contains key principle_text) aesthetic_principles
     = negb (String.eqb found "")
  /\ _extract_principle_id found = found.
Proof.
  intros found. subst found.
  destruct (extract_principle_id_cases principle_text) as [[Hin Hc]|[E Hnone]].
  - split; [right; split; assumption|]. split.
    + rewrite (taxonomy_key_not_empty _ Hin). apply existsb_exists.
      eexists. split; [exact Hin | exact Hc].
    + apply extract_principle_id_key. exact Hin.
  - rewrite E, Hnone. split; [left; reflexivity|]. split; reflexivity.
Qed.

(** *** Code context *)

Lemma min_of_le (x : Z) (xs : list Z) :
  min_of x xs <= x /\ Forall (fun y => min_of x xs <= y) xs.
Proof.
  unfold min_of. revert x. induction xs as [|y xs IH]; intros x.
  - cbn. split; [lia | constructor].
  - cbn [fold_left]. destruct (IH (Z.min x y)) as [H1 H2]. split; [lia|].
    constructor; [lia | exact H2].
Qed.

Lemma max_of_ge (x : Z) (xs : list Z) :
  x <= max_of x xs /\ Forall (fun y => y <= max_of x xs) xs.
Proof.
  unfold max_of. revert x. induction xs as [|y xs IH]; intros x.
  - cbn. split; [lia | constructor].
  - cbn [fold_left]. destruct (IH (Z.max x y)) as [H1 H2]. split; [lia|].
    constructor; [lia | exact H2].
Qed.

Lemma range_In (a b i : Z) : In i (range a b) <-> a <= i < b.
Proof.
  unfold range. rewrite in_map_iff. split.
  - intros (k & <- & Hk). apply in_seq in Hk. lia.
  - intros H. exists (Z.to_nat (i - a)). split; [lia|]. apply in_seq. lia.
Qed.

(** The lines of a code context. *)
Lemma context_lines_spec (code : string) (n : Z) (ns : list Z) :
  let lines := split_lines code in
  let ctx := _extract_accurate_code_context code (n :: ns) in
  Forall (fun entry =>
            in_range lines (ctx_number entry) = true
            /\ ctx_content entry = line_at lines (ctx_number entry)
            /\ ctx_highlighted entry = existsb (Z.eqb (ctx_number entry)) (n :: ns))
         (ctx_lines ctx)
  /\ map ctx_number (ctx_lines ctx) = range (start_line ctx) (end_line ctx + 1)
  /\ start_line ctx = Z.max 1 (min_of n ns - 2)
  /\ end_line ctx = Z.min (Z.of_nat (length lines)) (max_of n ns + 3).
Proof.
  intros lines ctx. subst ctx. unfold _extract_accurate_code_context. fold lines.
  cbn [ctx_lines start_line end_line].
  set (min_line := Z.max 0 (min_of n ns - 3)).
  set (max_line := Z.min (Z.of_nat (length lines)) (max_of n ns + 3)).
  split; [|split; [|split]].
  - apply List.Forall_forall. intros entry Hin. apply in_map_iff in Hin.
    destruct Hin as (i & <- & Hi). apply range_In in Hi.
    cbn [ctx_number ctx_content ctx_highlighted].
    assert (Hlt : (i <? Z.of_nat (length lines))%Z = true) by (apply Z.ltb_lt; lia).
    rewrite Hlt. split; [|split; [|reflexivity]].
    + unfold in_range. apply andb_true_iff. split; apply Z.leb_le; lia.
    + unfold line_at. replace (i + 1 - 1) with i by lia. reflexivity.
  - rewrite map_map. cbn [ctx_number]. unfold range.
    rewrite map_map.
    replace (Z.to_nat (max_line + 1 - (min_line + 1))) with (Z.to_nat (max_line - min_line))
      by lia.
    apply map_ext. intros k. lia.
  - lia.
  - reflexivity.
Qed.

(** X7. Every line of a code context is a line of the text, with its number,
    its content and its indentation; it is highlighted exactly when its
    number was claimed. The lines are those numbered from [start_line] to
    [end_line], which are the first claimed line less 2 (at least 1) and
    the last claimed line plus 3 (at most the last line of the text). *)
Theorem code_context_lines (code : string) (line_numbers : list Z) :
  let lines := split_lines code in
  let ctx := _extract_accurate_code_context code line_numbers in
  Forall (fun entry =>
            in_range lines (ctx_number entry) = true
            /\ ctx_content entry = line_at lines (ctx_number entry)
            /\ ctx_highlighted entry = existsb (Z.eqb (ctx_number entry)) line_numbers)
         (ctx_lines ctx)
  /\ match line_numbers with
     | [] => ctx_lines ctx = [] /\ highlighted_lines ctx = None
     | n :: ns =>
         map ctx_number (ctx_lines ctx) = range (start_line ctx) (end_line ctx + 1)
         /\ start_line ctx = Z.max 1 (min_of n ns - 2)
         /\ end_line ctx = Z.min (Z.of_nat (length lines)) (max_of n ns + 3)
     end.
Proof.
  intros lines ctx. subst lines ctx. destruct line_numbers as [|n ns].
  - cbn. split; [constructor | split; reflexivity].
  - destruct (context_lines_spec code n ns) as (H1 & H2 & H3 & H4).
    split; [exact H1|]. split; [exact H2|]. split; [exact H3 | exact H4].
Qed.

(** X8. A claimed line that is a line of the text is in the code context,
    highlighted, and so is every line of the text from two lines before it
    to three lines after it. *)
Theorem code_context_window (code : string) (line_numbers : list Z) (n m : Z) :
  In n line_numbers ->
  in_range (split_lines code) m = true ->
  n - 2 <= m <= n + 3 ->
  exists entry,
    In entry (ctx_lines (_extract_accurate_code_context code line_numbers))
    /\ ctx_number entry = m
    /\ ctx_content entry = line_at (split_lines code) m
    /\ ctx_highlighted entry = existsb (Z.eqb m) line_numbers.
Proof.
  intros Hin Hm Hnear.
  destruct line_numbers as [|n0 ns]; [contradiction|].
  destruct (context_lines_spec code n0 ns) as (Hall & Hnum & Hs & He).
  cbv zeta in *.
  assert (Hmem : In m (map ctx_number
                         (ctx_lines (_extract_accurate_code_context code (n0 :: ns))))).
  { rewrite Hnum, Hs, He. apply range_In.
    unfold in_range in Hm. apply andb_true_iff in Hm. destruct Hm as [H1 H2].
    apply Z.leb_le in H1, H2.
    destruct (min_of_le n0 ns) as [Hmin Hmins].
    destruct (max_of_ge n0 ns) as [Hmax Hmaxs].
    assert (min_of n0 ns <= n <= max_of n0 ns).
    { destruct Hin as [<-|Hin]; [lia|].
      pose proof (proj1 (List.Forall_forall _ _) Hmins n Hin).
      pose proof (proj1 (List.Forall_forall _ _) Hmaxs n Hin). cbv beta in *. lia. }
    lia. }
  apply in_map_iff in Hmem. destruct Hmem as (entry & En & Hentry).
  exists entry. split; [exact Hentry|]. split; [exact En|].
  pose proof (proj1 (List.Forall_forall _ _) Hall entry Hentry) as (_ & Hc & Hh).
  rewrite En in Hc, Hh. split; assumption.
Qed.

(** Line 4 of four lines, two lines after the claimed line 2. *)
Lemma code_context_window_witness :
  exists entry,
    In entry (ctx_lines (_extract_accurate_code_context repeated_css [2; 500]))
    /\ ctx_number entry = 4
    /\ ctx_content entry = line_at (split_lines repeated_css) 4
    /\ ctx_highlighted entry = existsb (Z.eqb 4) [2; 500].
Proof.
  apply (code_context_window repeated_css [2; 500] 2 4);
    [left; reflexivity | reflexivity | lia].
Defined.

End ReportFacts.

(* ===================================================================== *)
(** ** Properties of the processing of a reply *)
(* ===================================================================== *)

Module PipelineFacts.
Import PyStr Re Analyzer Remediation Pipeline.
Import Scenario Examples.

Lemma fold_keep_raised (code : string) (issues : list Issue) (e : PyExc) :
  fold_left (keep_if_valid code) issues (Raise e) = Raise e.
Proof. induction issues as [|i issues IH]; [reflexivity | exact IH]. Qed.

Lemma fold_keep_if_valid (code : string) (issues kept : list Issue) :
  match fold_left (keep_if_valid code) issues (Ok kept) with
  | Ok enhanced_issues =>
      enhanced_issues
      = kept ++ map (fun issue => _enhance_issue issue code)
                    (List.filter (survives code) issues)
  | Raise e =>
      exists issue,
        In issue issues
        /\ _extract_element_type (code_snippet (_enhance_issue issue code)) = Raise e
  end.
Proof.
  revert kept. induction issues as [|i issues IH]; intros kept.
  - cbn. rewrite app_nil_r. reflexivity.
  - cbn [fold_left List.filter]. unfold keep_if_valid at 2.
    destruct (_extract_element_type (code_snippet (_enhance_issue i code)))
      as [tag|e] eqn:Etag.
    + rewrite EnhanceFacts.validate_enhanced. fold (survives code i).
      specialize (IH (if survives code i
                      then kept ++ [_enhance_issue i code] else kept)).
      destruct (fold_left (keep_if_valid code) issues _) as [l|e].
      * rewrite IH. destruct (survives code i); [|reflexivity].
        cbn [map]. rewrite <- app_assoc. reflexivity.
      * destruct IH as (issue & Hin & Hr). exists issue. split; [right|]; assumption.
    + rewrite fold_keep_raised. exists i. split; [left; reflexivity | exact Etag].
Qed.

(** *** The processed result *)

(** X2. A reply without an error is processed unless the element type of
    the preview of an enhanced finding raises, on a class attribute of
    whitespace only. The issues of the processed reply are the enhanced
    findings the validator keeps, in the order of the reply, followed by
    the issues of the static analysis: a finding whose snippet is not blank
    is always among them. The counts add up. *)
Theorem process_keeps_enhanced_findings
        (env : Env) (llm_result : LLMResult) (name : option string)
        (original_code : string) :
  llm_error llm_result = false ->
  match process_llm_result env llm_result name original_code with
  | Ok (inr processed) =>
      out_issues processed
      = map (fun issue => _enhance_issue issue original_code)
            (List.filter (survives original_code) (llm_issues llm_result))
        ++ match name with
           | Some name => _perform_static_analysis env original_code name
           | None => []
           end
      /\ llm_issues_count processed
         = length (List.filter (survives original_code) (llm_issues llm_result))
      /\ out_total_issues processed
         = (llm_issues_count processed + static_issues_count processed)%nat
      /\ metrics_total_issues (out_metrics processed) = out_total_issues processed
      /\ Forall (fun issue =>
                   strip (code_snippet issue) = ""
                   \/ In (_enhance_issue issue original_code) (out_issues processed))
                (llm_issues llm_result)
  | Ok (inl _) => False
  | Raise e =>
      exc_type e = "IndexError"
      /\ exists issue,
           In issue (llm_issues llm_result)
           /\ _extract_element_type
                (code_snippet (_enhance_issue issue original_code)) = Raise e
  end.
Proof.
  intros Herr. unfold process_llm_result. rewrite Herr.
  pose proof (fold_keep_if_valid original_code (llm_issues llm_result) []) as Hfold.
  destruct (fold_left (keep_if_valid original_code) (llm_issues llm_result) (Ok []))
    as [kept|e].
  - rewrite app_nil_l in Hfold. subst kept.
    cbn [out_issues llm_issues_count out_total_issues static_issues_count out_metrics].
    split; [reflexivity|]. split; [apply length_map|].
    split; [apply length_app|]. split.
    + apply ReportFacts.metrics_total.
    + apply List.Forall_forall. intros issue Hin.
      destruct (String.eqb (strip (code_snippet issue)) "") eqn:E.
      * left. apply String.eqb_eq. exact E.
      * right. apply in_or_app. left.
        apply (in_map (fun issue0 => _enhance_issue issue0 original_code)).
        apply filter_In.
        split; [exact Hin|]. unfold survives. rewrite E. reflexivity.
  - split; [|exact Hfold].
    destruct Hfold as (issue & _ & Hr). unfold _extract_element_type in Hr.
    destruct (search_group1 true known_tag_pattern _); [discriminate|].
    destruct (search_group1 true class_pattern _) as [classes|].
    + destruct (split_ws classes); [|discriminate]. injection Hr as <-. reflexivity.
    + destruct (search_group1 true any_tag_pattern _); discriminate.
Qed.

(** The finding of Scenario A and the finding that stands nowhere are both
    kept; a finding on a line with a blank class attribute stops the
    processing. *)
Lemma process_keeps_enhanced_findings_witness :
  (exists processed,
     process_llm_result (card_env false) margin_reply (Some "notes.txt") margin_css
     = Ok (inr processed)
     /\ llm_issues_count processed = 2%nat
     /\ map issue_id (out_issues processed) = ["LLM_001"; "LLM_005"]
     /\ map line_numbers (out_issues processed) = [[1]; [1]])
  /\ process_llm_result (card_env false) blank_class_reply (Some "notes.txt")
                        blank_class_html
     = Raise (mkExc "IndexError" "list index out of range").
Proof.
  split; [|vm_compute; reflexivity].
  pose proof (process_keeps_enhanced_findings
                (card_env false) margin_reply (Some "notes.txt") margin_css eq_refl)
    as H.
  destruct (process_llm_result (card_env false) margin_reply (Some "notes.txt")
                               margin_css) as [[reply|processed]|e] eqn:E.
  - contradiction.
  - exists processed. split; [reflexivity|].
    destruct H as (Hissues & Hcount & _). rewrite Hcount, Hissues.
    vm_compute. auto.
  - exfalso. vm_compute in E. discriminate E.
Defined.

End PipelineFacts.

(* ===================================================================== *)
(** ** Properties of previews, applies and rollbacks *)
(* ===================================================================== *)

Module LifecycleFacts.
Import PyStr Re Analyzer Remediation.
Import Scenario Examples.

(** *** Proposals and previews *)

Lemma create_backup_cases (env : Env) (w : World) (file dest : string) :
  (exists content,
     fs w !! file = Some content
     /\ create_backup env w file dest
        = (Ok (backup_name env file dest),
           mkWorld (<[backup_name env file dest := content]> (fs w)) (clock w)
                   (io_log w ++ [EvSnapshot file (Some (backup_name env file dest))])))
  \/ create_backup env w file dest
     = (Raise (io_error "backup failed"),
        mkWorld (fs w) (clock w) (io_log w ++ [EvSnapshot file None])).
Proof.
  unfold create_backup.
  destruct (backup_fails env file); [right; reflexivity|].
  destruct (fs w !! file) as [content|]; [left; eauto | right; reflexivity].
Qed.

(** What a proposal does to the world. A failed one does nothing. A
    successful one attempts one snapshot of the file of the issue: the
    backup, when it is made, holds the content of the file. *)
Lemma get_cases (env : Env) (w : World) (ss : gmap string Session)
      (sid iid model : string) :
  let out := get_enhanced_remediation env w ss sid iid model in
  (snd out = w /\ exists stage error, fst out = Failed stage error)
  \/ exists path r,
       issue_file ss sid iid = Some path
       /\ fst out = Proposed r
       /\ ((exists content,
              fs w !! path = Some content
              /\ backup_path r = Some (backup_name env path (backup_dir sid))
              /\ snd out
                 = mkWorld (<[backup_name env path (backup_dir sid) := content]> (fs w))
                           (clock w)
                           (io_log w ++ [EvSnapshot path (backup_path r)]))
           \/ (backup_path r = None
               /\ snd out
                  = mkWorld (fs w) (clock w) (io_log w ++ [EvSnapshot path None]))).
Proof.
  unfold get_enhanced_remediation, issue_file.
  destruct (ss !! sid) as [session|]; [|left; cbn; eauto].
  destruct (_find_issue_in_session session iid) as [details|]; [|left; cbn; eauto].
  destruct (String.eqb (file_path details) ""); [left; cbn; eauto|].
  destruct (negb (path_exists w (file_path details))); [left; cbn; eauto|].
  destruct (read_file_content env w (file_path details)) as [content|e];
    [|left; cbn; eauto].
  destruct content as [|c content]; [left; cbn; eauto|].
  destruct (call_model env details (String c content) (file_path details) model)
    as [reply|e]; [|left; cbn; eauto].
  destruct (reply_success reply); [|left; cbn; eauto].
  destruct (reply_changes reply) as [|ch chs]; [left; cbn; eauto|].
  right. exists (file_path details).
  destruct (create_backup_cases env w (file_path details) (backup_dir sid))
    as [(saved & Hsaved & ->)| ->].
  - destruct (diff_fails env); eexists; (split; [reflexivity|]);
      (split; [reflexivity|]); left; exists saved; cbn; auto.
  - eexists. split; [reflexivity|]. split; [reflexivity|]. right. cbn. auto.
Qed.

Lemma lookup_backup_other (store : gmap string string) (backup path content : string) :
  store !! path = Some content ->
  <[backup := content]> store !! path = store !! path.
Proof.
  intros H. destruct (decide (backup = path)) as [->|Hne].
  - rewrite lookup_insert_eq. symmetry; exact H.
  - rewrite lookup_insert_ne by exact Hne. reflexivity.
Qed.

(** X9. A preview writes no file of the workspace: the clock is not read, the
    only file operation is at most one snapshot of the file of the issue,
    the file store gains at most the backup, a copy of that file, and the
    file of the issue keeps its content. *)
Theorem preview_never_writes (env : Env) (w : World) (ss : gmap string Session)
        (sid iid model : string) :
  let out := preview_remediation env w ss sid iid model in
  clock (snd out) = clock w
  /\ (io_log (snd out) = io_log w
      \/ exists path backup,
           issue_file ss sid iid = Some path
           /\ io_log (snd out) = io_log w ++ [EvSnapshot path backup])
  /\ (fs (snd out) = fs w
      \/ exists path content,
           issue_file ss sid iid = Some path
           /\ fs w !! path = Some content
           /\ fs (snd out) = <[backup_name env path (backup_dir sid) := content]> (fs w))
  /\ match issue_file ss sid iid with
     | Some path => fs (snd out) !! path = fs w !! path
     | None => snd out = w
     end.
Proof.
  unfold preview_remediation.
  pose proof (get_cases env w ss sid iid model) as H. cbv zeta in H.
  destruct (get_enhanced_remediation env w ss sid iid model) as [res w1].
  cbn [fst snd] in H.
  destruct H as [(-> & stage & error & ->)|(path & r & Hfile & -> & H)].
  - cbn [snd]. split; [reflexivity|]. split; [left; reflexivity|].
    split; [left; reflexivity|]. destruct (issue_file ss sid iid); reflexivity.
  - cbn [snd]. rewrite Hfile.
    destruct H as [(content & Hc & Hb & ->)|(Hb & ->)]; cbn [clock io_log fs].
    + split; [reflexivity|]. split; [right; eauto|]. split; [right; eauto|].
      apply lookup_backup_other. exact Hc.
    + split; [reflexivity|]. split; [right; eauto|]. split; [left; reflexivity|].
      reflexivity.
Qed.

(** *** Applying *)

(** X10. An apply that does not report an application leaves the sessions
    as they were and does not read the clock. When the proposal failed,
    the world is untouched. Otherwise the proposal left the file of the
    issue as it was, and either no write was issued, and the files are
    those the proposal left, or the write of the candidate was issued and
    raised: the files are those the proposal left when it raised before the
    file was opened; when it raised afterwards, the file was truncated by
    then, and it holds only the first characters of the candidate that
    reached it, possibly none. *)
Theorem rejected_apply_effects
        (env : Env) (w : World) (ss : gmap string Session)
        (sid iid model : string) (force : bool)
        (res : ApplyResult) (w' : World) (ss' : gmap string Session) :
  apply_remediation env w ss sid iid model force = (res, w', ss') ->
  is_applied res = false ->
  let proposal := get_enhanced_remediation env w ss sid iid model in
  ss' = ss
  /\ clock w' = clock w
  /\ match issue_file ss sid iid, fst proposal with
     | Some path, Proposed r =>
         fs (snd proposal) !! path = fs w !! path
         /\ ((io_log w' = io_log (snd proposal) /\ fs w' = fs (snd proposal))
             \/ (io_log w'
                 = io_log (snd proposal) ++ [EvWrite path (fixed_code r) false]
                 /\ fs w'
                    = match write_reach env path with
                      | None => fs (snd proposal)
                      | Some reached =>
                          <[path := take reached (fixed_code r)]>
                            (fs (snd proposal))
                      end))
     | _, _ => w' = w
     end.
Proof.
  intros Happly Hno. cbv zeta. unfold apply_remediation in Happly.
  pose proof (get_cases env w ss sid iid model) as H. cbv zeta in H.
  destruct (get_enhanced_remediation env w ss sid iid model) as [got w1].
  cbn [fst snd] in *.
  destruct H as [(-> & stage & error & ->)|(path & r & Hfile & -> & H)].
  - injection Happly as <- <- <-.
    split; [reflexivity|]. split; [reflexivity|].
    destruct (issue_file ss sid iid); reflexivity.
  - rewrite Hfile.
    assert (Hw1 : clock w1 = clock w /\ fs w1 !! path = fs w !! path).
    { destruct H as [(content & Hc & Hb & ->)|(Hb & ->)]; cbn [clock io_log fs].
      - split; [reflexivity|]. apply lookup_backup_other. exact Hc.
      - split; reflexivity. }
    clear H. destruct Hw1 as (Hclock & Hpath).
    destruct (below_threshold (quality_score r) && negb force).
    { injection Happly as <- <- <-.
      split; [reflexivity|]. split; [exact Hclock|]. split; [exact Hpath|].
      left. split; reflexivity. }
    unfold issue_file in Hfile.
    destruct (ss !! sid) as [session|]; [|discriminate].
    destruct (_find_issue_in_session session iid) as [details|]; [|discriminate].
    injection Hfile as Hd. rewrite Hd in Happly.
    unfold write_file in Happly.
    destruct (write_fails env path).
    + injection Happly as <- <- <-. cbn [fs clock io_log].
      split; [reflexivity|]. split; [exact Hclock|]. split; [exact Hpath|].
      right. split; [reflexivity|].
      unfold torn. destruct (write_reach env path); reflexivity.
    + cbn in Happly. injection Happly as <- <- <-. discriminate.
Qed.

(** The write of the card fix raises right after the card file was
    opened: the apply is not reported, the backup holds the original
    content and the card file is empty. *)
Lemma rejected_apply_effects_witness :
  (snd torn_apply = card_sessions
   /\ clock (snd (fst torn_apply)) = clock card_world
   /\ match issue_file card_sessions "s1" "LLM_007", fst torn_proposal with
      | Some path, Proposed r =>
          fs (snd torn_proposal) !! path = fs card_world !! path
          /\ ((io_log (snd (fst torn_apply)) = io_log (snd torn_proposal)
               /\ fs (snd (fst torn_apply)) = fs (snd torn_proposal))
              \/ (io_log (snd (fst torn_apply))
                  = io_log (snd torn_proposal) ++ [EvWrite path (fixed_code r) false]
                  /\ fs (snd (fst torn_apply))
                     = match write_reach torn_env path with
                       | None => fs (snd torn_proposal)
                       | Some reached =>
                           <[path := take reached (fixed_code r)]>
                             (fs (snd torn_proposal))
                       end))
      | _, _ => snd (fst torn_apply) = card_world
      end)
  /\ is_applied (fst (fst torn_apply)) = false
  /\ fs card_world !! card_path = Some card_original
  /\ fs (snd (fst torn_apply)) !! card_path = Some ""
  /\ fs (snd (fst torn_apply)) !! card_backup = Some card_original.
Proof.
  split.
  - apply (rejected_apply_effects
             torn_env card_world card_sessions "s1" "LLM_007" "gpt-4o" false
             (fst (fst torn_apply))).
    + vm_compute. reflexivity.
    + vm_compute. reflexivity.
  - vm_compute. auto.
Defined.

(** What an apply that reports a backup did. *)
Lemma applied_with_backup (env : Env) (w : World) (ss : gmap string Session)
      (sid iid model : string) (force : bool)
      (res : ApplyResult) (w' : World) (ss' : gmap string Session)
      (backup : string) :
  apply_remediation env w ss sid iid model force = (res, w', ss') ->
  backup_of res = Some backup ->
  exists session details r content,
    ss !! sid = Some session
    /\ _find_issue_in_session session iid = Some details
    /\ fs w !! file_path details = Some content
    /\ backup_path r = Some backup
    /\ fs w' = <[file_path details := fixed_code r]> (<[backup := content]> (fs w))
    /\ ss' = <[sid := mkSession (analysis_results session)
                        (Some (<[iid := mkRecord model r (wall_clock env (clock w))
                                                 true (quality_score r) false
                                                 None]>
                                 (match remediations session with
                                  | Some store => store
                                  | None => ∅
                                  end)))]> ss.
Proof.
  unfold apply_remediation. intros Happly Hb.
  pose proof (get_cases env w ss sid iid model) as H. cbv zeta in H.
  destruct (get_enhanced_remediation env w ss sid iid model) as [got w1].
  cbn [fst snd] in H.
  destruct H as [(-> & stage & error & ->)|(path & r & Hfile & -> & H)].
  { injection Happly as <- <- <-. discriminate. }
  destruct (below_threshold (quality_score r) && negb force).
  { injection Happly as <- <- <-. discriminate. }
  unfold issue_file in Hfile.
  destruct (ss !! sid) as [session|] eqn:Hs; [|discriminate].
  destruct (_find_issue_in_session session iid) as [details|] eqn:Hfind; [|discriminate].
  injection Hfile as Hd.
  unfold write_file in Happly.
  destruct (write_fails env (file_path details)).
  { injection Happly as <- <- <-. discriminate. }
  destruct H as [(content & Hc & Hbp & ->)|(Hbp & ->)];
    cbn in Happly; injection Happly as <- <- <-; cbn [backup_of] in Hb.
  - exists session, details, r, content. subst path.
    rewrite Hbp in Hb. injection Hb as <-. rewrite Hbp. cbn [fs]. auto 10.
  - congruence.
Qed.

(** *** Rolling back *)

Lemma find_issue_same_results (s1 s2 : Session) (iid : string) :
  analysis_results s1 = analysis_results s2 ->
  _find_issue_in_session s1 iid = _find_issue_in_session s2 iid.
Proof. unfold _find_issue_in_session. intros ->. reflexivity. Qed.

(** X11. After an apply that reports a backup at another path than the file,
    a rollback whose copy does not fail succeeds: the file holds again the
    content it had before the apply, and the record of the issue is kept,
    marked as rolled back. *)
Theorem rollback_restores_original
        (env1 env2 : Env) (w0 w1 w2 : World) (ss0 ss1 ss2 : gmap string Session)
        (sid iid model : string) (force : bool)
        (applied : ApplyResult) (undone : RollbackResult) (path backup : string) :
  apply_remediation env1 w0 ss0 sid iid model force = (applied, w1, ss1) ->
  backup_of applied = Some backup ->
  issue_file ss0 sid iid = Some path ->
  backup <> path ->
  copy_fails env2 backup path = false ->
  rollback_remediation env2 w1 ss1 sid iid = (undone, w2, ss2) ->
  undone = RolledBack iid backup
  /\ is_Some (fs w0 !! path)
  /\ fs w2 !! path = fs w0 !! path
  /\ option_map rec_rolled_back (store_of ss2 sid !! iid) = Some true
  /\ option_map rec_model (store_of ss2 sid !! iid) = Some model.
Proof.
  intros Happly Hb Hfile Hne Hcopy Hroll.
  destruct (applied_with_backup _ _ _ _ _ _ _ _ _ _ _ Happly Hb)
    as (session & details & r & content & Hs & Hd & Hc & Hbp & Hfs & ->).
  unfold issue_file in Hfile. rewrite Hs, Hd in Hfile. injection Hfile as Hp.
  subst path. clear Happly.
  unfold rollback_remediation in Hroll.
  rewrite lookup_insert_eq in Hroll. cbn [remediations rec_result] in Hroll.
  rewrite lookup_insert_eq in Hroll. cbn [rec_result] in Hroll.
  rewrite Hbp in Hroll.
  assert (Hback : fs w1 !! backup = Some content).
  { rewrite Hfs, lookup_insert_ne by congruence. apply lookup_insert_eq. }
  assert (Hex : path_exists w1 backup = true).
  { unfold path_exists. destruct backup; [reflexivity|].
    apply bool_decide_eq_true. rewrite Hback. eauto. }
  rewrite Hex in Hroll. cbn [negb] in Hroll.
  rewrite (find_issue_same_results _ session) in Hroll by reflexivity.
  rewrite Hd in Hroll. unfold copy2 in Hroll. rewrite Hback in Hroll.
  replace (String.eqb backup (file_path details)) with false in Hroll
    by (symmetry; apply String.eqb_neq; exact Hne).
  rewrite Hcopy in Hroll.
  cbn in Hroll. injection Hroll as <- <- <-.
  split; [reflexivity|]. split; [rewrite Hc; eauto|]. split.
  - cbn [fs]. rewrite lookup_insert_eq. symmetry; exact Hc.
  - unfold store_of. rewrite lookup_insert_eq. cbn [remediations].
    rewrite lookup_insert_eq. split; reflexivity.
Qed.

(** The card scenario: after the apply and the rollback the card file
    holds its original content. *)
Lemma rollback_restores_original_witness :
  fst (fst step2) = RolledBack "LLM_007" card_backup
  /\ is_Some (fs card_world !! card_path)
  /\ fs (snd (fst step2)) !! card_path = fs card_world !! card_path
  /\ option_map rec_rolled_back (store_of (snd step2) "s1" !! "LLM_007") = Some true
  /\ option_map rec_model (store_of (snd step2) "s1" !! "LLM_007") = Some "gpt-4o".
Proof.
  apply (rollback_restores_original
           (card_env false) (card_env false)
           card_world (snd (fst step1)) (snd (fst step2))
           card_sessions (snd step1) (snd step2)
           "s1" "LLM_007" "gpt-4o" false
           (fst (fst step1)) (fst (fst step2)) card_path card_backup).
  - vm_compute. reflexivity.
  - vm_compute. reflexivity.
  - vm_compute. reflexivity.
  - vm_compute. discriminate.
  - reflexivity.
  - vm_compute. reflexivity.
Defined.

(** X12. A rollback that fails leaves the sessions as they were, the
    record of the remediation unmarked, and does not read the clock. When
    it fails before the copy, the world is untouched. When the copy raises,
    the files are untouched if it raised before the file of the issue was
    opened (the backup is missing, or it is that file itself); when it
    raised afterwards, the file was truncated by then, and it holds only
    the first characters of the backup that reached it, possibly none. *)
Theorem failed_rollback_effects
        (env : Env) (w : World) (ss : gmap string Session) (sid iid : string)
        (res : RollbackResult) (w' : World) (ss' : gmap string Session) :
  rollback_remediation env w ss sid iid = (res, w', ss') ->
  is_rolled_back res = false ->
  ss' = ss
  /\ clock w' = clock w
  /\ (w' = w
      \/ exists path backup,
           issue_file ss sid iid = Some path
           /\ io_log w' = io_log w ++ [EvRestore backup path false]
           /\ fs w'
              = match fs w !! backup, copy_reach env backup path with
                | Some content, Some reached =>
                    if String.eqb backup path then fs w
                    else <[path := take reached content]> (fs w)
                | _, _ => fs w
                end).
Proof.
  unfold rollback_remediation, issue_file. intros H Hno.
  destruct (ss !! sid) as [session|].
  2: { injection H as <- <- <-. auto. }
  destruct (match remediations session with
            | Some store => store !! iid
            | None => None
            end) as [record|].
  2: { injection H as <- <- <-. auto. }
  set (backup := match backup_path (rec_result record) with
                 | Some p => p
                 | None => ""
                 end) in *.
  destruct (negb (path_exists w backup)).
  { injection H as <- <- <-. auto. }
  destruct (_find_issue_in_session session iid) as [details|].
  2: { injection H as <- <- <-. auto. }
  unfold copy2 in H.
  destruct (fs w !! backup) as [content|] eqn:Hcontent.
  2: { injection H as <- <- <-. cbn [fs clock io_log].
       split; [reflexivity|]. split; [reflexivity|].
       right. exists (file_path details), backup. rewrite Hcontent. auto. }
  destruct (String.eqb backup (file_path details)) eqn:Hsame.
  { injection H as <- <- <-. cbn [fs clock io_log].
    split; [reflexivity|]. split; [reflexivity|].
    right. exists (file_path details), backup. rewrite Hcontent, Hsame.
    split; [reflexivity|]. split; [reflexivity|].
    destruct (copy_reach env backup (file_path details)); reflexivity. }
  destruct (copy_fails env backup (file_path details)).
  - injection H as <- <- <-. cbn [fs clock io_log].
    split; [reflexivity|]. split; [reflexivity|].
    right. exists (file_path details), backup. rewrite Hcontent, Hsame.
    split; [reflexivity|]. split; [reflexivity|].
    unfold torn. destruct (copy_reach env backup (file_path details)); reflexivity.
  - cbn in H. injection H as <- <- <-. discriminate.
Qed.

(** After the card fix was applied, the copy of the backup raises right
    after the card file was opened: the rollback fails, the record stays
    unmarked and the card file is empty. *)
Lemma failed_rollback_effects_witness :
  (snd torn_rollback = snd step1
   /\ clock (snd (fst torn_rollback)) = clock (snd (fst step1))
   /\ (snd (fst torn_rollback) = snd (fst step1)
       \/ exists path backup,
            issue_file (snd step1) "s1" "LLM_007" = Some path
            /\ io_log (snd (fst torn_rollback))
               = io_log (snd (fst step1)) ++ [EvRestore backup path false]
            /\ fs (snd (fst torn_rollback))
               = match fs (snd (fst step1)) !! backup,
                       copy_reach torn_env backup path with
                 | Some content, Some reached =>
                     if String.eqb backup path then fs (snd (fst step1))
                     else <[path := take reached content]> (fs (snd (fst step1)))
                 | _, _ => fs (snd (fst step1))
                 end))
  /\ is_rolled_back (fst (fst torn_rollback)) = false
  /\ fs (snd (fst step1)) !! card_path = Some card_fixed
  /\ fs (snd (fst torn_rollback)) !! card_path = Some ""
  /\ option_map rec_rolled_back (store_of (snd torn_rollback) "s1" !! "LLM_007")
     = Some false.
Proof.
  split.
  - apply (failed_rollback_effects
             torn_env (snd (fst step1)) (snd step1) "s1" "LLM_007"
             (fst (fst torn_rollback))).
    + vm_compute. reflexivity.
    + vm_compute. reflexivity.
  - vm_compute. auto.
Defined.

(** X13. A rollback that succeeded can be repeated: the second one succeeds
    with the same answer, leaves every file as the first one left it, and
    the record stays marked as rolled back. *)
Theorem rollback_twice
        (env : Env) (w w1 : World) (ss ss1 : gmap string Session)
        (sid iid : string) (res : RollbackResult) :
  rollback_remediation env w ss sid iid = (res, w1, ss1) ->
  is_rolled_back res = true ->
  exists w2 ss2,
    rollback_remediation env w1 ss1 sid iid = (res, w2, ss2)
    /\ fs w2 = fs w1
    /\ option_map rec_rolled_back (store_of ss2 sid !! iid) = Some true.
Proof.
  unfold rollback_remediation at 1. intros H Hyes.
  destruct (ss !! sid) as [session|] eqn:Hs.
  2: { injection H as <- <- <-. discriminate. }
  destruct (remediations session) as [store|] eqn:Hst.
  2: { injection H as <- <- <-. discriminate. }
  destruct (store !! iid) as [record|] eqn:Hrec.
  2: { injection H as <- <- <-. discriminate. }
  set (backup := match backup_path (rec_result record) with
                 | Some p => p
                 | None => ""
                 end) in *.
  destruct (path_exists w backup) eqn:Hex.
  2: { injection H as <- <- <-. discriminate. }
  cbn [negb] in H.
  destruct (_find_issue_in_session session iid) as [details|] eqn:Hd.
  2: { injection H as <- <- <-. discriminate. }
  unfold copy2 in H.
  destruct (fs w !! backup) as [content|] eqn:Hcontent.
  2: { injection H as <- <- <-. discriminate. }
  destruct (String.eqb backup (file_path details)) eqn:Hsame.
  { injection H as <- <- <-. discriminate. }
  destruct (copy_fails env backup (file_path details)) eqn:Hcopy.
  { injection H as <- <- <-. discriminate. }
  cbn in H. injection H as <- <- <-.
  assert (Hback : <[file_path details := content]> (fs w) !! backup = Some content).
  { rewrite lookup_insert_ne; [exact Hcontent|].
    apply String.eqb_neq in Hsame. congruence. }
  unfold rollback_remediation.
  rewrite lookup_insert_eq. cbn [remediations]. rewrite lookup_insert_eq.
  cbn [mark_rolled_back rec_result]. fold backup.
  assert (Hex2 : path_exists
                   (mkWorld (<[file_path details := content]> (fs w)) (S (clock w))
                            (io_log w ++ [EvRestore backup (file_path details) true]))
                   backup = true).
  { unfold path_exists. destruct backup; [reflexivity|].
    apply bool_decide_eq_true. cbn [fs]. rewrite Hback. eauto. }
  rewrite Hex2. cbn [negb].
  rewrite (find_issue_same_results _ session) by reflexivity.
  rewrite Hd. unfold copy2. cbn [fs]. rewrite Hback, Hsame, Hcopy.
  cbn. eexists _, _. split; [reflexivity|]. split.
  - cbn [fs]. apply insert_insert_eq.
  - unfold store_of. rewrite lookup_insert_eq. cbn [remediations].
    rewrite lookup_insert_eq. reflexivity.
Qed.

(** The rollback of the card scenario, repeated. *)
Lemma rollback_twice_witness :
  exists w2 ss2,
    rollback_remediation (card_env false) (snd (fst step2)) (snd step2) "s1" "LLM_007"
    = (fst (fst step2), w2, ss2)
    /\ fs w2 = fs (snd (fst step2))
    /\ option_map rec_rolled_back (store_of ss2 "s1" !! "LLM_007") = Some true.
Proof.
  apply (rollback_twice
           (card_env false) (snd (fst step1)) (snd (fst step2))
           (snd step1) (snd step2) "s1" "LLM_007" (fst (fst step2))).
  - vm_compute. reflexivity.
  - vm_compute. reflexivity.
Defined.

End LifecycleFacts.

(* ===================================================================== *)
(** ** Properties of the changes, the session lookup and the quality score *)
(* ===================================================================== *)

Module ChangeFacts.
Import PyStr Re Analyzer Remediation Whitespace TextFacts LineFacts.
Import Scenario Examples.

(** *** Applying changes to the content *)

Lemma insert_desc_In (c x : Change) (l : list Change) :
  In x (insert_desc c l) <-> x = c \/ In x l.
Proof.
  induction l as [|y l IH]; cbn [insert_desc].
  - cbn. intuition congruence.
  - destruct (line_number y <=? line_number c)%Z; cbn [In]; [intuition congruence|].
    rewrite IH. intuition congruence.
Qed.

Lemma sorted_desc_In (x : Change) (l : list Change) :
  In x (sorted_desc l) <-> In x l.
Proof.
  unfold sorted_desc. induction l as [|c l IH]; [reflexivity|].
  cbn [fold_right In]. rewrite insert_desc_In, IH. intuition congruence.
Qed.

Lemma apply_change_length (lines : list string) (change : Change) :
  length (apply_change lines change) = length lines.
Proof.
  unfold apply_change.
  destruct (negb (line_number change =? 0)%Z && in_range lines (line_number change));
    [|reflexivity].
  destruct (negb (String.eqb (original change) "") && _);
    apply length_insert.
Qed.

Lemma apply_change_out_of_range (lines : list string) (change : Change) :
  in_range lines (line_number change) = false -> apply_change lines change = lines.
Proof.
  intros H. unfold apply_change. rewrite H, andb_false_r. reflexivity.
Qed.

Lemma apply_change_other (lines : list string) (change : Change) (n : Z) :
  line_number change <> n -> 1 <= n ->
  line_at (apply_change lines change) n = line_at lines n.
Proof.
  intros Hne Hn. unfold apply_change.
  destruct (negb (line_number change =? 0)%Z && in_range lines (line_number change))
    eqn:E; [|reflexivity].
  apply andb_true_iff in E. destruct E as [_ E].
  unfold in_range in E. apply andb_true_iff in E. destruct E as [E1 E2].
  apply Z.leb_le in E1, E2.
  assert (Hi : Z.to_nat (line_number change - 1) <> Z.to_nat (n - 1)) by lia.
  unfold line_at.
  destruct (negb (String.eqb (original change) "") && _);
    rewrite !nth_lookup, list_lookup_insert_ne by exact Hi; reflexivity.
Qed.

Lemma apply_change_no_lf (lines : list string) (change : Change) :
  no_lf (fixed change) = true ->
  Forall (fun l => no_lf l = true) lines ->
  Forall (fun l => no_lf l = true) (apply_change lines change).
Proof.
  intros Hf Hl. unfold apply_change.
  destruct (negb (line_number change =? 0)%Z && in_range lines (line_number change))
    eqn:E; [|exact Hl].
  apply andb_true_iff in E. destruct E as [_ E].
  unfold in_range in E. apply andb_true_iff in E. destruct E as [E1 E2].
  apply Z.leb_le in E1, E2.
  assert (Hcur : no_lf (line_at lines (line_number change)) = true).
  { unfold line_at. apply (proj1 (List.Forall_forall _ _) Hl).
    apply nth_In. lia. }
  destruct (negb (String.eqb (original change) "") && _).
  - apply Forall_insert; [exact Hl|].
    apply no_lf_replace; [apply no_lf_strip; exact Hf | exact Hcur].
  - apply Forall_insert; [exact Hl | exact Hf].
Qed.

Lemma fold_apply_out_of_range (changes : list Change) (lines : list string) :
  Forall (fun change => in_range lines (line_number change) = false) changes ->
  fold_left apply_change changes lines = lines.
Proof.
  intros H. induction H as [|c cs Hc _ IH]; [reflexivity|].
  cbn [fold_left]. rewrite apply_change_out_of_range by exact Hc. exact IH.
Qed.

Lemma fold_apply_facts (changes : list Change) (lines : list string) :
  Forall (fun change => no_lf (fixed change) = true) changes ->
  Forall (fun l => no_lf l = true) lines ->
  length (fold_left apply_change changes lines) = length lines
  /\ Forall (fun l => no_lf l = true) (fold_left apply_change changes lines)
  /\ forall n, 1 <= n ->
       (forall change, In change changes -> line_number change <> n) ->
       line_at (fold_left apply_change changes lines) n = line_at lines n.
Proof.
  intros H. revert lines. induction H as [|c cs Hc _ IH]; intros lines Hl.
  - cbn [fold_left]. auto.
  - cbn [fold_left].
    destruct (IH (apply_change lines c) (apply_change_no_lf _ _ Hc Hl))
      as (H1 & H2 & H3).
    split; [rewrite H1; apply apply_change_length|]. split; [exact H2|].
    intros n Hn Hnot. rewrite H3; [|exact Hn|].
    + apply apply_change_other; [|exact Hn]. apply Hnot. left; reflexivity.
    + intros change Hin. apply Hnot. right; exact Hin.
Qed.

(** X14. Changes that name no line of the content (a line number of 0, or none,
    or one beyond the last line) leave the content as it is. *)
Theorem changes_out_of_range_keep_content
        (original_content : string) (changes : list Change) :
  Forall (fun change =>
            in_range (split_lines original_content) (line_number change) = false)
         changes ->
  _apply_changes_to_content original_content changes = original_content.
Proof.
  intros H. unfold _apply_changes_to_content.
  rewrite fold_apply_out_of_range; [apply join_split|].
  apply List.Forall_forall. intros c Hc. apply (proj1 (sorted_desc_In _ _)) in Hc.
  exact (proj1 (List.Forall_forall _ _) H c Hc).
Qed.

(** A change of line 5 of a text of one line. *)
Lemma changes_out_of_range_keep_content_witness :
  _apply_changes_to_content card_original [stray_change] = card_original.
Proof.
  apply (changes_out_of_range_keep_content card_original [stray_change]).
  repeat constructor.
Defined.

(** X15. When every fixed line is one line, the content keeps its number of
    lines, and every line that no change names is left as it was. *)
Theorem changes_keep_other_lines
        (original_content : string) (changes : list Change) :
  Forall (fun change => no_lf (fixed change) = true) changes ->
  let before := split_lines original_content in
  let after := split_lines (_apply_changes_to_content original_content changes) in
  length after = length before
  /\ forall n, 1 <= n ->
       (forall change, In change changes -> line_number change <> n) ->
       line_at after n = line_at before n.
Proof.
  intros H before after. subst before after. unfold _apply_changes_to_content.
  assert (Hs : Forall (fun change => no_lf (fixed change) = true) (sorted_desc changes)).
  { apply List.Forall_forall. intros c Hc. apply (proj1 (sorted_desc_In _ _)) in Hc.
    exact (proj1 (List.Forall_forall _ _) H c Hc). }
  destruct (fold_apply_facts _ _ Hs (split_lines_no_lf original_content))
    as (H1 & H2 & H3).
  rewrite split_join; [|intros E|exact H2].
  - split; [exact H1|]. intros n Hn Hnot. apply H3; [exact Hn|].
    intros c Hc. apply Hnot. apply (proj1 (sorted_desc_In _ _)). exact Hc.
  - apply (f_equal (@length string)) in E. rewrite H1 in E.
    pose proof (AnalyzerFacts.split_lines_nonempty original_content) as Hne.
    destruct (split_lines original_content); [congruence | discriminate].
Qed.

(** A change of the second of four lines. *)
Lemma changes_keep_other_lines_witness :
  length (split_lines (_apply_changes_to_content repeated_css [second_line_change]))
  = length (split_lines repeated_css)
  /\ forall n, 1 <= n ->
       (forall change, In change [second_line_change] -> line_number change <> n) ->
       line_at (split_lines (_apply_changes_to_content repeated_css [second_line_change])) n
       = line_at (split_lines repeated_css) n.
Proof.
  apply (changes_keep_other_lines repeated_css [second_line_change]).
  repeat constructor.
Defined.

End ChangeFacts.

Module SessionFacts.
Import PyStr Re Analyzer Remediation.
Import Scenario Examples.

Lemma first_some_Some {A B : Type} (f : A -> option B) (l : list A) (y : B) :
  first_some f l = Some y -> exists x, In x l /\ f x = Some y.
Proof.
  induction l as [|x l IH]; [discriminate|].
  cbn [first_some]. destruct (f x) as [y'|] eqn:E.
  - intros H. injection H as <-. exists x. split; [left; reflexivity | exact E].
  - intros H. destruct (IH H) as (x' & Hin & Hx'). exists x'. split; [right|]; assumption.
Qed.

Lemma first_some_None {A B : Type} (f : A -> option B) (l : list A) (x : A) :
  first_some f l = None -> In x l -> f x = None.
Proof.
  induction l as [|x' l IH]; [contradiction|].
  cbn [first_some]. destruct (f x') as [y'|] eqn:E; [discriminate|].
  intros H [<-|Hin]; [exact E | exact (IH H Hin)].
Qed.

(** X16. The issue a session lookup returns has the requested id; it is an
    issue of a file of a model whose results are a list, with the path of
    that file as its file path. *)
Theorem find_issue_sound (session : Session) (issue_id : string) (found : Issue) :
  _find_issue_in_session session issue_id = Some found ->
  Analyzer.issue_id found = issue_id
  /\ exists model model_results file_result issue,
       In (model, Some model_results) (analysis_results session)
       /\ In file_result model_results
       /\ In issue (issues file_result)
       /\ found = set_file_path (info_path file_result) issue.
Proof.
  unfold _find_issue_in_session. intros H.
  apply first_some_Some in H. destruct H as ([model [model_results|]] & Hm & H);
    [|discriminate].
  cbn [snd] in H. apply first_some_Some in H. destruct H as (file_result & Hf & H).
  unfold find_in_file in H.
  destruct (List.find _ (issues file_result)) as [issue|] eqn:E; [|discriminate].
  injection H as <-. apply find_some in E. destruct E as [Hi E].
  apply String.eqb_eq in E. split; [exact E|].
  exists model, model_results, file_result, issue. auto.
Qed.

(** The card finding in the card session. *)
Lemma find_issue_sound_witness :
  issue_id (set_file_path card_path card_issue) = "LLM_007"
  /\ exists model model_results file_result issue,
       In (model, Some model_results) (analysis_results card_session)
       /\ In file_result model_results
       /\ In issue (issues file_result)
       /\ set_file_path card_path card_issue
          = set_file_path (info_path file_result) issue.
Proof.
  apply (find_issue_sound card_session "LLM_007" (set_file_path card_path card_issue)).
  reflexivity.
Defined.

(** X17. An issue listed in a file of a model whose results are a list is found
    by its id. *)
Theorem find_issue_complete (session : Session) (issue_id model : string)
        (model_results : list FileResult) (file_result : FileResult) (issue : Issue) :
  In (model, Some model_results) (analysis_results session) ->
  In file_result model_results ->
  In issue (issues file_result) ->
  Analyzer.issue_id issue = issue_id ->
  exists found, _find_issue_in_session session issue_id = Some found.
Proof.
  intros Hm Hf Hi Hid.
  destruct (_find_issue_in_session session issue_id) as [found|] eqn:E.
  - exists found. reflexivity.
  - exfalso. unfold _find_issue_in_session in E.
    pose proof (first_some_None _ _ _ E Hm) as E1. cbn [snd] in E1.
    pose proof (first_some_None _ _ _ E1 Hf) as E2.
    unfold find_in_file in E2.
    destruct (List.find _ (issues file_result)) as [x|] eqn:E3; [discriminate|].
    pose proof (find_none _ _ E3 issue Hi) as E4. cbv beta in E4.
    rewrite Hid, String.eqb_refl in E4. discriminate.
Qed.

Lemma find_issue_complete_witness :
  exists found, _find_issue_in_session card_session "LLM_007" = Some found.
Proof.
  apply (find_issue_complete
           card_session "LLM_007" "gpt-4o"
           [mkFileResult card_path "card.txt" [card_issue]]
           (mkFileResult card_path "card.txt" [card_issue]) card_issue);
    [left; reflexivity | left; reflexivity | left; reflexivity | reflexivity].
Defined.

End SessionFacts.

Module QualityFacts.
Import PyStr Re Analyzer Remediation.

Lemma existsb_common (l1 l2 : list Z) :
  existsb (fun x => existsb (Z.eqb x) l2) l1
  = existsb (fun y => existsb (Z.eqb y) l1) l2.
Proof.
  apply eq_true_iff_eq. rewrite !existsb_exists. split.
  - intros (x & Hx & H). apply existsb_exists in H. destruct H as (y & Hy & H).
    apply Z.eqb_eq in H. subst y.
    exists x. split; [exact Hy|]. apply existsb_exists.
    exists x. split; [exact Hx | apply Z.eqb_refl].
  - intros (y & Hy & H). apply existsb_exists in H. destruct H as (x & Hx & H).
    apply Z.eqb_eq in H. subst y.
    exists x. split; [exact Hx|]. apply existsb_exists.
    exists x. split; [exact Hy | apply Z.eqb_refl].
Qed.

(** X18. Similarity of two issues does not depend on their order, and every
    issue is similar to itself. *)
Theorem similar_issue_symmetric (a b : Issue) :
  _is_similar_issue a b = _is_similar_issue b a
  /\ _is_similar_issue a a = true.
Proof.
  unfold _is_similar_issue. split.
  - rewrite (String.eqb_sym (principle_id a) (principle_id b)).
    destruct (String.eqb (principle_id b) (principle_id a)); [reflexivity|].
    apply existsb_common.
  - rewrite String.eqb_refl. reflexivity.
Qed.

(** The two answers of the resolution check. *)
Lemma resolution_cases (original fixed : string) (issue : Issue) (r : Resolution) :
  _check_issue_resolution original fixed issue = Ok r ->
  r = mkResolution true 0.5%Q \/ r = mkResolution false 0.1%Q.
Proof.
  unfold _check_issue_resolution.
  destruct (match dict_get (principle_id issue) resolution_patterns with
            | Some patterns => Some patterns
            | None => _
            end) as [patterns|].
  - intros H. injection H as <-.
    match goal with
    | |- context [match ?found with [] => _ | _ :: _ => _ end] => destruct found
    end; auto.
  - simpl. discriminate.
Qed.

Lemma recheck_cases (env : Env) (fixed : string) (issue : Issue) (path : string) :
  let recheck := _recheck_aesthetics env fixed issue path in
  (similar_issues_remaining recheck = O /\ improvement_score recheck = 1.0%Q)
  \/ (exists n, similar_issues_remaining recheck = S n)
      /\ improvement_score recheck = 0.3%Q.
Proof.
  unfold _recheck_aesthetics. cbn [similar_issues_remaining improvement_score].
  destruct (List.filter _ _); [left | right]; cbn [length]; eauto.
Qed.

(** X19. The quality score is at most 0.8, and it reaches the threshold of 0.7
    in one case only, where it is 0.8: the code processor finds the fixed
    content valid, the resolution check finds a new improvement marker, and
    the static analysis of the fixed content finds no similar issue. The
    validation verdict says the same; in every other case the score is at
    most 0.64. *)
Theorem quality_reaches_threshold_once
        (env : Env) (original fixed : string) (issue : Issue) (path : string) :
  let verdict := _validate_remediation env original fixed issue path in
  let clean :=
    match validate_fixed_code env original fixed path,
          _check_issue_resolution original fixed issue with
    | Ok true, Ok resolution =>
        likely_resolved resolution
        && (similar_issues_remaining (_recheck_aesthetics env fixed issue path) =? 0)%nat
    | _, _ => false
    end in
  fst verdict = clean
  /\ Qle_bool 0.7 (snd verdict) = clean
  /\ (0 <= snd verdict <= 0.8)%Q
  /\ (if clean then snd verdict == 0.8 else snd verdict <= 0.64)%Q.
Proof.
  intros verdict clean. subst verdict clean. unfold _validate_remediation.
  destruct (validate_fixed_code env original fixed path) as [syntax_valid|e].
  2: { cbn. repeat split; discriminate. }
  destruct (_check_issue_resolution original fixed issue) as [r|e] eqn:Er.
  2: { destruct syntax_valid; cbn; repeat split; discriminate. }
  pose proof (recheck_cases env fixed issue path) as Hre. cbv zeta in Hre.
  unfold _calculate_remediation_quality.
  destruct (resolution_cases _ _ _ _ Er) as [-> | ->];
    destruct Hre as [[-> ->]|[[n ->] ->]];
    destruct syntax_valid; cbn [fst snd likely_resolved confidence andb Nat.eqb];
    vm_compute; repeat split; discriminate.
Qed.

End QualityFacts.

(* ===================================================================== *)
(** ** Properties of the detection and of its checks *)
(* ===================================================================== *)

Module ClientFacts.
Import PyStr Re Analyzer Remediation Detection Whitespace TextFacts LineFacts.
Import Scenario Examples.

(** *** Numbered code *)

Lemma no_lf_uint (d : Decimal.uint) : no_lf (NilEmpty.string_of_uint d) = true.
Proof. induction d; cbn [NilEmpty.string_of_uint no_lf]; try rewrite IHd; reflexivity. Qed.

Lemma no_lf_decimal (i : Z) : no_lf (decimal i) = true.
Proof.
  unfold decimal, NilZero.string_of_int, NilZero.string_of_uint.
  destruct (Z.to_int i) as [d|d]; destruct d; try reflexivity;
    try apply (no_lf_uint (Decimal.D0 d));
    cbn [no_lf NilEmpty.string_of_uint]; rewrite ?no_lf_uint; reflexivity.
Qed.

Lemma no_lf_spaces (n : nat) : no_lf (spaces n) = true.
Proof. induction n as [|n IH]; [reflexivity|]. cbn [spaces no_lf]. rewrite IH. reflexivity. Qed.

Lemma no_lf_numbered_line (i : Z) (line : string) :
  no_lf line = true -> no_lf (numbered_line (i, line)) = true.
Proof.
  intros H. unfold numbered_line, format_4d. cbn [fst snd].
  rewrite !no_lf_app, no_lf_spaces, no_lf_decimal, H. reflexivity.
Qed.

Lemma enumerate_from_length (i : Z) (lines : list string) :
  length (enumerate_from i lines) = length lines.
Proof.
  revert i. induction lines as [|l ls IH]; intros i; [reflexivity|].
  cbn [enumerate_from length]. rewrite IH. reflexivity.
Qed.

Lemma enumerate_from_nth (i : Z) (lines : list string) (k : nat) (d : Z * string) :
  (k < length lines)%nat ->
  nth k (enumerate_from i lines) d = (i + Z.of_nat k, nth k lines "").
Proof.
  revert i k. induction lines as [|l ls IH]; intros i k Hk; [cbn in Hk; lia|].
  destruct k as [|k]; cbn [enumerate_from nth].
  - rewrite Z.add_0_r. reflexivity.
  - rewrite IH by (cbn in Hk; lia). f_equal. lia.
Qed.

Lemma numbered_lines_no_lf (i : Z) (lines : list string) :
  Forall (fun l => no_lf l = true) lines ->
  Forall (fun l => no_lf l = true) (map numbered_line (enumerate_from i lines)).
Proof.
  intros H. revert i. induction H as [|l ls Hl _ IH]; intros i; [constructor|].
  cbn [enumerate_from map]. constructor; [|apply IH].
  apply no_lf_numbered_line. exact Hl.
Qed.

Lemma numbered_code_split (code : string) :
  split_lines (_create_numbered_code code)
  = map numbered_line (enumerate_from 1 (split_lines code)).
Proof.
  unfold _create_numbered_code. apply split_join.
  - intros E. apply (f_equal (@length string)) in E.
    rewrite length_map, enumerate_from_length in E.
    pose proof (AnalyzerFacts.split_lines_nonempty code) as Hne.
    destruct (split_lines code); [congruence | discriminate].
  - apply numbered_lines_no_lf, split_lines_no_lf.
Qed.

Lemma format_4d_width (i : Z) :
  1 <= i <= 9999 -> String.length (format_4d i) = 4%nat.
Proof.
  intros Hi.
  assert (Hall : forallb (fun k => (String.length (format_4d (Z.of_nat k)) =? 4)%nat)
                         (seq 1 (Z.to_nat 9999)) = true) by (vm_compute; reflexivity).
  rewrite forallb_forall in Hall.
  specialize (Hall (Z.to_nat i)). rewrite Z2Nat.id in Hall by lia.
  apply Nat.eqb_eq, Hall, in_seq. lia.
Qed.

Lemma length_app_string (a b : string) :
  String.length (a ++ b) = (String.length a + String.length b)%nat.
Proof.
  induction a as [|c a IH]; [reflexivity|].
  rewrite append_cons. cbn [String.length]. rewrite IH. reflexivity.
Qed.

Lemma drop_app_length (a b : string) : drop (String.length a) (a ++ b) = b.
Proof.
  induction a as [|c a IH]; [reflexivity|].
  rewrite append_cons. cbn [String.length drop]. exact IH.
Qed.

(** X20. The numbered code has the lines of the code, in order, each after its
    1-based number and a colon; up to line 9999 the number takes four
    characters, so that a line is its numbered line without the first six
    characters. *)
Theorem numbered_code_line (code : string) (n : Z) :
  in_range (split_lines code) n = true ->
  let numbered := split_lines (_create_numbered_code code) in
  length numbered = length (split_lines code)
  /\ line_at numbered n
     = (format_4d n ++ ": " ++ line_at (split_lines code) n)%string
  /\ (n <= 9999 -> drop 6 (line_at numbered n) = line_at (split_lines code) n).
Proof.
  intros Hn numbered. subst numbered. rewrite numbered_code_split.
  unfold in_range in Hn. apply andb_true_iff in Hn. destruct Hn as [H1 H2].
  apply Z.leb_le in H1, H2.
  assert (Hline : line_at (map numbered_line (enumerate_from 1 (split_lines code))) n
                  = (format_4d n ++ ": " ++ line_at (split_lines code) n)%string).
  { unfold line_at.
    rewrite (nth_indep _ "" (numbered_line (0, "")))
      by (rewrite length_map, enumerate_from_length; lia).
    rewrite map_nth, enumerate_from_nth by lia.
    unfold numbered_line. cbn [fst snd].
    replace (1 + Z.of_nat (Z.to_nat (n - 1))) with n by lia. reflexivity. }
  split; [rewrite length_map; apply enumerate_from_length|].
  split; [exact Hline|].
  intros Hmax. rewrite Hline, <- append_assoc.
  replace 6%nat with (String.length (format_4d n ++ ": ")).
  - apply drop_app_length.
  - rewrite length_app_string, format_4d_width by lia. reflexivity.
Qed.

(** The third of four lines. *)
Lemma numbered_code_line_witness :
  length (split_lines (_create_numbered_code repeated_css))
  = length (split_lines repeated_css)
  /\ line_at (split_lines (_create_numbered_code repeated_css)) 3
     = (format_4d 3 ++ ": " ++ line_at (split_lines repeated_css) 3)%string
  /\ (3 <= 9999 ->
      drop 6 (line_at (split_lines (_create_numbered_code repeated_css)) 3)
      = line_at (split_lines repeated_css) 3).
Proof. apply (numbered_code_line repeated_css 3). reflexivity. Defined.

(** *** The score and the acceptance of a fix *)

Lemma newly_matched_same (text : string) (pattern : regex) :
  newly_matched text text pattern = false.
Proof. unfold newly_matched. destruct (search true pattern text); reflexivity. Qed.

(** X21. The score of a fix lies within [0,1]; a fix that is the code itself
    scores nothing but the 0.1 of a FIXED comment it holds. *)
Theorem fix_validation_score_bounds (original fixed : string) :
  (0 <= _calculate_fix_validation_score original fixed <= 1)%Q
  /\ (_calculate_fix_validation_score original original
      == if contains "// FIXED" original then 0.1 else 0)%Q.
Proof.
  split.
  - unfold _calculate_fix_validation_score, improvements. cbn [fold_left].
    repeat match goal with
           | |- context [newly_matched ?o ?f ?p] => destruct (newly_matched o f p)
           end;
      destruct (contains "// FIXED" fixed); vm_compute; split; discriminate.
  - unfold _calculate_fix_validation_score, improvements. cbn [fold_left].
    rewrite !newly_matched_same.
    destruct (contains "// FIXED" original); vm_compute; reflexivity.
Qed.

(** X22. A fix that is longer than the code it replaces, or that holds a FIXED
    comment, is accepted, whatever the issue. *)
Theorem longer_fix_accepted (original_code fixed_code : string) (issue : Issue) :
  (String.length original_code < String.length fixed_code)%nat
  \/ contains "// FIXED" fixed_code = true ->
  _validate_fix_quality original_code fixed_code issue = true.
Proof.
  intros H. unfold _validate_fix_quality.
  match goal with |- (if ?e then _ else _) = _ => destruct e end; [reflexivity|].
  destruct H as [H|H].
  - apply Nat.ltb_lt in H. rewrite H. apply orb_true_r.
  - rewrite H. reflexivity.
Qed.

(** The card fix, for a finding whose principle and category have no
    patterns. *)
Lemma longer_fix_accepted_witness :
  _validate_fix_quality card_original card_fixed unknown_issue = true.
Proof.
  apply (longer_fix_accepted card_original card_fixed unknown_issue).
  left. vm_compute. lia.
Defined.

(** *** The accuracy of a reported issue *)

Lemma Qle_bool_fraction (p q a b : nat) :
  (0 < q)%nat -> (0 < b)%nat ->
  Qle_bool (nat_Q p / nat_Q q) (nat_Q a / nat_Q b) = (p * b <=? q * a)%nat.
Proof.
  intros Hq Hb. apply eq_true_iff_eq. rewrite Qle_bool_iff, Nat.leb_le.
  unfold nat_Q.
  assert (Hq' : (0 < inject_Z (Z.of_nat q))%Q) by (apply AnalyzerFacts.nat_Q_pos; exact Hq).
  assert (Hb' : (0 < inject_Z (Z.of_nat b))%Q) by (apply AnalyzerFacts.nat_Q_pos; exact Hb).
  split.
  - intros H.
    apply (Qmult_le_r _ _ _ Hq') in H. apply (Qmult_le_r _ _ _ Hb') in H.
    assert (E1 : (inject_Z (Z.of_nat p) / inject_Z (Z.of_nat q) * inject_Z (Z.of_nat q)
                  * inject_Z (Z.of_nat b)
                  == inject_Z (Z.of_nat p) * inject_Z (Z.of_nat b))%Q)
      by (field; intros E; rewrite E in Hq'; discriminate).
    assert (E2 : (inject_Z (Z.of_nat a) / inject_Z (Z.of_nat b) * inject_Z (Z.of_nat q)
                  * inject_Z (Z.of_nat b)
                  == inject_Z (Z.of_nat q) * inject_Z (Z.of_nat a))%Q)
      by (field; intros E; rewrite E in Hb'; discriminate).
    rewrite E1, E2, <- !inject_Z_mult, <- Zle_Qle in H. lia.
  - intros H.
    apply (Qmult_le_r _ _ _ Hq'). apply (Qmult_le_r _ _ _ Hb').
    assert (E1 : (inject_Z (Z.of_nat p) / inject_Z (Z.of_nat q) * inject_Z (Z.of_nat q)
                  * inject_Z (Z.of_nat b)
                  == inject_Z (Z.of_nat p) * inject_Z (Z.of_nat b))%Q)
      by (field; intros E; rewrite E in Hq'; discriminate).
    assert (E2 : (inject_Z (Z.of_nat a) / inject_Z (Z.of_nat b) * inject_Z (Z.of_nat q)
                  * inject_Z (Z.of_nat b)
                  == inject_Z (Z.of_nat q) * inject_Z (Z.of_nat a))%Q)
      by (field; intros E; rewrite E in Hb'; discriminate).
    rewrite E1, E2, <- !inject_Z_mult, <- Zle_Qle. lia.
Qed.

Lemma Qle_bool_left (a a' c : Q) : (a == a')%Q -> Qle_bool a c = Qle_bool a' c.
Proof.
  intros E. apply eq_true_iff_eq. rewrite !Qle_bool_iff, E. reflexivity.
Qed.

Lemma count_fold {A : Type} (p : A -> bool) (l : list A) (n : nat) :
  fold_left (fun (count : nat) x => if p x then S count else count) l n
  = (n + length (List.filter p l))%nat.
Proof.
  revert n. induction l as [|x l IH]; intros n; cbn [fold_left List.filter].
  - cbn. lia.
  - rewrite IH. destruct (p x); cbn [length]; lia.
Qed.

Lemma accuracy_unfold (issue : Issue) (original_code : string) :
  line_numbers issue <> [] ->
  let confidence :=
    (nat_Q (length (List.filter (accurate_line issue (split_lines original_code))
                                (line_numbers issue)))
     / nat_Q (length (line_numbers issue)))%Q in
  _validate_issue_accuracy issue original_code
  = mkValidation (Qle_bool 0.5 confidence) confidence.
Proof.
  intros Hne. unfold _validate_issue_accuracy.
  destruct (line_numbers issue) as [|ln lns]; [congruence|].
  rewrite count_fold, Nat.add_0_l. reflexivity.
Qed.

(** The threshold of the detection: at least three accurate lines in ten
    claimed ones, and at least one claimed line. *)
Lemma confident_spec (issue : Issue) (original_code : string) :
  Qle_bool 0.3 (accuracy_confidence (_validate_issue_accuracy issue original_code))
  = ((0 <? length (line_numbers issue))%nat
     && (3 * length (line_numbers issue)
         <=? 10 * length (List.filter (accurate_line issue (split_lines original_code))
                                      (line_numbers issue)))%nat).
Proof.
  destruct (line_numbers issue) as [|ln lns] eqn:E.
  - unfold _validate_issue_accuracy. rewrite E. reflexivity.
  - rewrite accuracy_unfold by (rewrite E; discriminate). rewrite E.
    cbn [accuracy_confidence].
    rewrite (Qle_bool_left 0.3 (nat_Q 3 / nat_Q 10)) by reflexivity.
    rewrite Qle_bool_fraction by (cbn [length]; lia).
    replace (0 <? length (ln :: lns))%nat with true
      by (symmetry; apply Nat.ltb_lt; cbn [length]; lia).
    cbn [andb]. f_equal; lia.
Qed.

(** X23. The confidence of an issue is the fraction of its claimed lines that
    are lines of the code and hold the trimmed snippet or one of its words
    of more than three characters; the issue is valid when at least half
    of them do, and an issue without line numbers has confidence 0 and is
    not valid. *)
Theorem issue_accuracy_fraction (issue : Issue) (original_code : string) :
  let result := _validate_issue_accuracy issue original_code in
  let claimed := length (line_numbers issue) in
  let accurate :=
    length (List.filter (accurate_line issue (split_lines original_code))
                        (line_numbers issue)) in
  (accuracy_confidence result == nat_Q accurate / nat_Q claimed)%Q
  /\ (0 <= accuracy_confidence result <= 1)%Q
  /\ is_valid result = ((0 <? claimed)%nat && (claimed <=? 2 * accurate)%nat).
Proof.
  intros result claimed accurate. subst result claimed accurate.
  destruct (line_numbers issue) as [|ln lns] eqn:E.
  - unfold _validate_issue_accuracy. rewrite E. cbn. repeat split; discriminate.
  - rewrite accuracy_unfold by (rewrite E; discriminate). rewrite E.
    set (accurate := length (List.filter _ (ln :: lns))).
    assert (Hle : (accurate <= length (ln :: lns))%nat)
      by apply AnalyzerFacts.filter_length_le.
    set (claimed := length (ln :: lns)) in *.
    assert (Hpos : (0 < claimed)%nat) by (subst claimed; cbn; lia).
    cbn [is_valid accuracy_confidence].
    split; [reflexivity|]. split; [apply AnalyzerFacts.fraction_bounds; exact Hle|].
    replace (0 <? claimed)%nat with true by (symmetry; apply Nat.ltb_lt; exact Hpos).
    cbn [andb].
    rewrite (Qle_bool_left 0.5 (nat_Q 1 / nat_Q 2)) by reflexivity.
    rewrite Qle_bool_fraction by lia. f_equal; lia.
Qed.

End ClientFacts.

Module DetectionFacts.
Import PyStr Re Analyzer Remediation Detection.
Import Whitespace TextFacts LineFacts ClientFacts.
Import Scenario Examples.

Section Gateway.

Variable _call_model : Prompt -> string -> Exn Detection.

Lemma fold_keep_confident (code : string)
      (entries kept : list (Issue * option Validation)) :
  fold_left (keep_confident code) entries kept
  = kept ++ map (fun issue => (issue, Some (_validate_issue_accuracy issue code)))
                (List.filter
                   (fun issue =>
                      Qle_bool 0.3 (accuracy_confidence
                                      (_validate_issue_accuracy issue code)))
                   (map fst entries)).
Proof.
  revert kept. induction entries as [|e entries IH]; intros kept.
  - cbn. rewrite app_nil_r. reflexivity.
  - cbn [fold_left map List.filter]. rewrite IH. unfold keep_confident.
    destruct (Qle_bool 0.3 _); [|reflexivity].
    cbn [map]. rewrite <- app_assoc. reflexivity.
Qed.

(** X24. Outside the chunked analysis, the issues of a detection are those of
    the model's reply that have a confidence of at least 0.3, in the order
    of the reply, each with its validation: such an issue claims at least
    one line, and at least three in ten of the lines it claims are
    accurate. When the reply has issues, [total_issues] is the number of
    the issues kept. *)
Theorem detection_keeps_confident_issues
        (code filename model : string) (raw : Detection) :
  String.eqb model "llama-maverick" && (2000 <? Z.of_nat (String.length code))%Z
  = false ->
  _call_model (DetectionPrompt code (_create_numbered_code code) filename) model
  = Ok raw ->
  let result := detect_aesthetic_issues _call_model code filename model in
  map fst (det_issues result)
  = List.filter
      (fun issue =>
         Qle_bool 0.3 (accuracy_confidence (_validate_issue_accuracy issue code)))
      (map fst (det_issues raw))
  /\ (det_issues raw = []
      \/ (det_total_issues result = Z.of_nat (length (det_issues result))
          /\ Forall (fun entry =>
                       snd entry = Some (_validate_issue_accuracy (fst entry) code)
                       /\ (0 < length (line_numbers (fst entry))
                           /\ 3 * length (line_numbers (fst entry))
                              <= 10 * length (List.filter
                                                (accurate_line (fst entry) (split_lines code))
                                                (line_numbers (fst entry))))%nat)
                    (det_issues result))).
Proof.
  intros Hsmall Hcall result. subst result. unfold detect_aesthetic_issues.
  rewrite Hsmall, Hcall.
  destruct (det_issues raw) as [|e entries] eqn:E.
  - rewrite E. split; [reflexivity | left; reflexivity].
  - cbn [det_issues det_total_issues]. rewrite fold_keep_confident, app_nil_l.
    split.
    + rewrite map_map. cbn [fst]. apply map_id.
    + right. split; [reflexivity|].
      apply List.Forall_forall. intros entry Hin. apply in_map_iff in Hin.
      destruct Hin as (issue & <- & Hin). apply filter_In in Hin.
      destruct Hin as [_ Hconf]. cbn [fst snd]. split; [reflexivity|].
      rewrite confident_spec in Hconf. apply andb_true_iff in Hconf.
      destruct Hconf as [H1 H2]. apply Nat.ltb_lt in H1. apply Nat.leb_le in H2.
      split; assumption.
Qed.

(** *** Chunked detection *)

Lemma chunk_starts_In (n i : nat) :
  In i (chunk_starts n) -> (i < n)%nat.
Proof.
  unfold chunk_starts. intros H. apply in_map_iff in H.
  destruct H as (k & <- & Hk). apply in_seq in Hk.
  pose proof (Nat.div_mod_eq (n + 99) 100) as Hd.
  pose proof (Nat.mod_upper_bound (n + 99) 100) as Hm. lia.
Qed.

Lemma firstn_incl {A : Type} (m : nat) (xs : list A) (x : A) :
  In x (firstn m xs) -> In x xs.
Proof.
  revert xs. induction m as [|m IH]; intros xs Hin; [contradiction|].
  destruct xs as [|y xs]; [contradiction|].
  cbn [firstn] in Hin. destruct Hin as [<-|Hin]; [left; reflexivity|].
  right. apply IH. exact Hin.
Qed.

Lemma skipn_incl {A : Type} (m : nat) (xs : list A) (x : A) :
  In x (skipn m xs) -> In x xs.
Proof.
  revert xs. induction m as [|m IH]; intros xs Hin; [exact Hin|].
  destruct xs as [|y xs]; [contradiction|].
  cbn [skipn] in Hin. right. apply IH. exact Hin.
Qed.

Lemma chunk_lines_split (lines : list string) (i : nat) :
  (i < length lines)%nat ->
  Forall (fun l => no_lf l = true) lines ->
  let chunk_lines := firstn 100 (skipn i lines) in
  split_lines (join_lines chunk_lines) = chunk_lines
  /\ (i + length chunk_lines <= length lines)%nat.
Proof.
  intros Hi Hl chunk_lines. subst chunk_lines. split.
  - apply split_join.
    + intros E. apply (f_equal (@length string)) in E.
      rewrite length_firstn, length_skipn in E. cbn [length] in E. lia.
    + apply List.Forall_forall. intros l Hin.
      apply (proj1 (List.Forall_forall _ _) Hl).
      apply (skipn_incl i). apply (firstn_incl 100). exact Hin.
  - rewrite length_firstn, length_skipn. lia.
Qed.

Lemma fold_detect_chunk (lines : list string) (filename model : string)
      (starts : list nat) (all_issues : list (Issue * option Validation)) :
  fold_left (detect_chunk _call_model lines filename model) starts all_issues
  = all_issues
    ++ concat
         (map (fun i =>
                 map (adjust_lines i)
                     (let chunk_code := join_lines (firstn 100 (skipn i lines)) in
                      if String.eqb (strip chunk_code) "" then []
                      else match _call_model
                                   (ChunkPrompt filename (Z.of_nat i + 1)
                                      (Z.min (Z.of_nat (i + 100))
                                             (Z.of_nat (length lines)))
                                      chunk_code) model with
                           | Ok chunk_result => det_issues chunk_result
                           | Raise _ => []
                           end))
              starts).
Proof.
  revert all_issues. induction starts as [|i starts IH]; intros all_issues.
  - cbn [fold_left map concat]. rewrite app_nil_r. reflexivity.
  - cbn [fold_left map concat]. rewrite IH. rewrite app_assoc. f_equal.
    unfold detect_chunk. cbv zeta.
    destruct (String.eqb (strip (join_lines (firstn 100 (skipn i lines)))) "").
    { cbn [map]. rewrite app_nil_r. reflexivity. }
    destruct (_call_model _ model) as [chunk_result|e].
    + destruct (det_issues chunk_result) as [|entry entries].
      * cbn [map]. rewrite app_nil_r. reflexivity.
      * reflexivity.
    + cbn [map]. rewrite app_nil_r. reflexivity.
Qed.

(** X25. The chunks start at the lines 0, 100, 200, ... of the code. The
    issues of the chunked detection are, chunk after chunk, the issues of
    the replies to the chunks that are not blank, in the order of each
    reply, with every line number increased by the start of its chunk and
    nothing else changed; a chunk whose call raises gives no issue. When
    the model answers each chunk with line numbers of that chunk, every
    line number of the detection is a line number of the code.
    [total_issues] is the number of the issues, and no error is
    reported. *)
Theorem chunked_lines_moved (code filename model : string) :
  (forall fname start_line end_line chunk_code result,
     _call_model (ChunkPrompt fname start_line end_line chunk_code) model = Ok result ->
     Forall (fun entry =>
               Forall (fun line_num => in_range (split_lines chunk_code) line_num = true)
                      (line_numbers (fst entry)))
            (det_issues result)) ->
  let lines := split_lines code in
  let result := _detect_aesthetic_issues_chunked _call_model code filename model in
  let reply (i : nat) : list (Issue * option Validation) :=
    let chunk_code := join_lines (firstn 100 (skipn i lines)) in
    if String.eqb (strip chunk_code) "" then []
    else match _call_model
                 (ChunkPrompt filename (Z.of_nat i + 1)
                    (Z.min (Z.of_nat (i + 100)) (Z.of_nat (length lines)))
                    chunk_code) model with
         | Ok chunk_result => det_issues chunk_result
         | Raise _ => []
         end in
  let moved (i : nat) (entry : Issue * option Validation) :=
    (set_line_numbers (map (fun line_num => line_num + Z.of_nat i)
                           (line_numbers (fst entry)))
                      (fst entry),
     snd entry) in
  det_issues result
  = concat (map (fun i => map (moved i) (reply i))
                (map (fun k => (100 * k)%nat)
                     (seq 0 (Nat.div (length lines + 99) 100))))
  /\ Forall (fun entry =>
               Forall (fun line_num => in_range lines line_num = true)
                      (line_numbers (fst entry)))
            (det_issues result)
  /\ det_total_issues result = Z.of_nat (length (det_issues result))
  /\ det_error result = None.
Proof.
  intros Hmodel lines result reply moved. subst result.
  unfold _detect_aesthetic_issues_chunked.
  cbn [det_issues det_total_issues det_error]. fold lines.
  split; [|split; [|split; reflexivity]].
  - rewrite fold_detect_chunk, app_nil_l. unfold chunk_starts.
    f_equal. rewrite !map_map. apply map_ext. intros k.
    rewrite (Nat.mul_comm k 100). reflexivity.
  - assert (Hgen : forall starts all_issues,
              (forall i, In i starts -> (i < length lines)%nat) ->
              Forall (fun entry =>
                        Forall (fun line_num => in_range lines line_num = true)
                               (line_numbers (fst entry))) all_issues ->
              Forall (fun entry =>
                        Forall (fun line_num => in_range lines line_num = true)
                               (line_numbers (fst entry)))
                     (fold_left (detect_chunk _call_model lines filename model)
                                starts all_issues)).
    { induction starts as [|i starts IH]; intros all_issues Hstarts Hall; [exact Hall|].
      cbn [fold_left]. apply IH; [intros j Hj; apply Hstarts; right; exact Hj|].
      unfold detect_chunk.
      destruct (String.eqb (strip (join_lines (firstn 100 (skipn i lines)))) "");
        [exact Hall|].
      destruct (_call_model _ model) as [chunk_result|e] eqn:Ecall; [|exact Hall].
      specialize (Hmodel _ _ _ _ _ Ecall).
      destruct (det_issues chunk_result) as [|e es]; [exact Hall|].
      apply Forall_app. split; [exact Hall|].
      assert (Hi : (i < length lines)%nat) by (apply Hstarts; left; reflexivity).
      destruct (chunk_lines_split lines i Hi (split_lines_no_lf code)) as [Hsplit Hlen].
      rewrite Hsplit in Hmodel.
      apply List.Forall_forall. intros entry Hin. apply in_map_iff in Hin.
      destruct Hin as (raw & <- & Hraw).
      pose proof (proj1 (List.Forall_forall _ _) Hmodel raw Hraw) as Hlines.
      cbn [adjust_lines fst line_numbers set_line_numbers].
      apply List.Forall_forall. intros n Hn. apply in_map_iff in Hn.
      destruct Hn as (m & <- & Hm).
      pose proof (proj1 (List.Forall_forall _ _) Hlines m Hm) as Hr.
      cbv beta in Hr. unfold in_range in *.
      apply andb_true_iff in Hr. destruct Hr as [H1 H2]. apply Z.leb_le in H1, H2.
      apply andb_true_iff. split; apply Z.leb_le; lia. }
    apply Hgen; [intros i Hi; apply chunk_starts_In; exact Hi | constructor].
Qed.

End Gateway.

Lemma first_line_in_range (text : string) : in_range (split_lines text) 1 = true.
Proof.
  pose proof (AnalyzerFacts.split_lines_nonempty text) as Hne.
  unfold in_range. destruct (split_lines text); [congruence|].
  apply andb_true_iff. split; apply Z.leb_le; cbn [length]; lia.
Qed.

(** Of the two findings of the sample reply, the one that stands on its
    line is kept, the one claimed on line 500 is dropped. *)
Lemma detection_keeps_confident_issues_witness :
  map fst (det_issues (detect_aesthetic_issues sample_gateway margin_css
                                               "style.css" "gpt-4o"))
  = [spaced_issue]
  /\ det_total_issues (detect_aesthetic_issues sample_gateway margin_css
                                               "style.css" "gpt-4o") = 1.
Proof.
  destruct (detection_keeps_confident_issues
              sample_gateway margin_css "style.css" "gpt-4o" sample_reply
              eq_refl eq_refl) as [Hkept Hrest].
  split.
  - rewrite Hkept. vm_compute. reflexivity.
  - destruct Hrest as [Hnone|[Htotal _]]; [discriminate Hnone|].
    rewrite Htotal. vm_compute. reflexivity.
Defined.

(** A text of 150 lines is analysed in two chunks, which start at the
    lines 0 and 100: the findings on the first line of each chunk come out
    on lines 1 and 101. *)
Lemma chunked_lines_moved_witness :
  Forall (fun entry =>
            Forall (fun line_num => in_range (split_lines long_css) line_num = true)
                   (line_numbers (fst entry)))
         (det_issues (_detect_aesthetic_issues_chunked
                        sample_gateway long_css "style.css" "llama-maverick"))
  /\ map (fun entry => line_numbers (fst entry))
         (det_issues (_detect_aesthetic_issues_chunked
                        sample_gateway long_css "style.css" "llama-maverick"))
     = [[1]; [101]]
  /\ det_total_issues (_detect_aesthetic_issues_chunked
                         sample_gateway long_css "style.css" "llama-maverick")
     = 2.
Proof.
  destruct (chunked_lines_moved sample_gateway long_css "style.css" "llama-maverick")
    as (Hmoved & Hin & Htotal & _).
  - intros fname start_line end_line chunk_code result H. injection H as <-.
    repeat constructor. apply first_line_in_range.
  - split; [exact Hin|]. split.
    + rewrite Hmoved. vm_compute. reflexivity.
    + rewrite Htotal, Hmoved. vm_compute. reflexivity.
Defined.

End DetectionFacts.

(* ===================================================================== *)
(** ** Further properties of the reply parser *)
(* ===================================================================== *)

Module ParserShapeFacts.
Import PyStr Re LLMClient Braces ParserFacts.

Section Retry.

Variable json_loads : string -> Exn json.

(** X26. The second attempt decodes the text the first attempt decoded: it
    never changes the outcome. *)
Theorem retry_changes_nothing (content : string) :
  try_block json_loads content
  = match first_attempt json_loads content with
    | Some outcome => outcome
    | None =>
        Ok (error_result
              "Failed to parse LLM response as JSON: Content does not contain valid JSON"
              content)
    end.
Proof.
  unfold try_block.
  destruct (first_attempt json_loads content) as [outcome|] eqn:E1; [reflexivity|].
  assert (E2 : second_attempt json_loads content = None).
  { unfold second_attempt. rewrite search_group_braced, <- json_candidate_braced.
    unfold first_attempt in E1.
    destruct (json_candidate content) as [t|]; [|reflexivity].
    destruct (json_loads t) as [v|e].
    - destruct v; discriminate.
    - destruct (is_decode_error e); [reflexivity | discriminate]. }
  rewrite E2. reflexivity.
Qed.

End Retry.

Lemma jget_jset_same (key : string) (v : json) (fields : list (string * json)) :
  jget key (jset key v fields) = Some v.
Proof.
  unfold jget. induction fields as [|[k x] fields IH]; cbn [jset Analyzer.dict_get].
  - rewrite String.eqb_refl. reflexivity.
  - destruct (String.eqb key k) eqn:E; cbn [Analyzer.dict_get]; rewrite E;
      [reflexivity | exact IH].
Qed.

Lemma jget_jset_other (key k' : string) (v : json) (fields : list (string * json)) :
  k' <> key -> jget k' (jset key v fields) = jget k' fields.
Proof.
  intros Hne. unfold jget.
  induction fields as [|[k x] fields IH]; cbn [jset Analyzer.dict_get].
  - apply String.eqb_neq in Hne. rewrite Hne. reflexivity.
  - destruct (String.eqb key k) eqn:E; cbn [Analyzer.dict_get].
    + apply String.eqb_eq in E. subst k.
      apply String.eqb_neq in Hne. rewrite Hne. reflexivity.
    + destruct (String.eqb k' k); [reflexivity | exact IH].
Qed.

Lemma issues_listed (fields : list (string * json)) :
  exists items,
    jget "issues" (match jget "issues" fields with
                   | Some (JList _) => fields
                   | _ => jset "issues" (JList []) fields
                   end) = Some (JList items).
Proof.
  destruct (jget "issues" fields) as [v|] eqn:E.
  - destruct v; try (eexists; apply jget_jset_same). eexists; exact E.
  - eexists; apply jget_jset_same.
Qed.

Lemma normalise_issues (fields : list (string * json)) :
  exists items, jget "issues" (normalise fields) = Some (JList items).
Proof.
  unfold normalise. destruct (issues_listed fields) as [items Hitems].
  set (fields1 := match jget "issues" fields with
                  | Some (JList _) => fields
                  | _ => jset "issues" (JList []) fields
                  end) in *.
  destruct (jget "total_issues" fields1) as [v|].
  - destruct v; try (exists items; exact Hitems);
      exists items; rewrite jget_jset_other by discriminate; exact Hitems.
  - exists items. rewrite jget_jset_other by discriminate. exact Hitems.
Qed.

Lemma normalise_total (fields : list (string * json)) :
  (exists n, jget "total_issues" (normalise fields) = Some (JInt n))
  \/ (exists b, jget "total_issues" (normalise fields) = Some (JBool b)).
Proof.
  unfold normalise.
  set (fields1 := match jget "issues" fields with
                  | Some (JList _) => fields
                  | _ => jset "issues" (JList []) fields
                  end).
  destruct (jget "total_issues" fields1) as [v|] eqn:E.
  - destruct v; try (left; eexists; apply jget_jset_same).
    + right. eexists; exact E.
    + left. eexists; exact E.
  - left. eexists; apply jget_jset_same.
Qed.

Lemma normalise_fixed (fields : list (string * json)) :
  (exists items, jget "issues" fields = Some (JList items)) ->
  (exists n, jget "total_issues" fields = Some (JInt n))
  \/ (exists b, jget "total_issues" fields = Some (JBool b)) ->
  normalise fields = fields.
Proof.
  intros [items Hi] Ht. unfold normalise. rewrite Hi.
  destruct Ht as [[n Hn]|[b Hb]]; [rewrite Hn | rewrite Hb]; reflexivity.
Qed.

(** X27. The shape of a normalised reply: [issues] is a list and [total_issues]
    an integer; normalising again changes nothing. *)
Theorem normalise_shape (fields : list (string * json)) :
  let normal := normalise fields in
  (exists items, jget "issues" normal = Some (JList items))
  /\ ((exists n, jget "total_issues" normal = Some (JInt n))
      \/ (exists b, jget "total_issues" normal = Some (JBool b)))
  /\ normalise normal = normal.
Proof.
  intros normal. subst normal.
  split; [apply normalise_issues|]. split; [apply normalise_total|].
  apply normalise_fixed; [apply normalise_issues | apply normalise_total].
Qed.

End ParserShapeFacts.
